(** * SynergyForge: the cloud functions (the compiled [index.js])

    A shallow embedding of the token cache ([getAppAccessToken]), the
    request proxy ([msfProxy], [getCookie]) and the ETL run ([syncGameRef],
    [fetchJSON], the character normaliser), followed by the properties the
    specification states about them.

    Conventions of the embedding.
    - A JavaScript value that comes out of [JSON.parse] / [Response.json] is
      a [value].  Numbers are integers extended with [NaN] and the two
      infinities; arithmetic on them is exact (timestamps and durations are
      integral and far below 2^53).  [undefined] is the [None] of an
      [option value].
    - A computation that may throw returns a [Result].  Code that reads the
      clock, talks to the network, or touches the module-level [cachedToken]
      or the stores, runs in the monad [M] over [State]; the outside world
      (clock readings, replies of the network, storage faults) is a [World].
    - [logger] calls have no effect on control flow or on any store and are
      left out. *)

From stdpp Require Import base gmap strings list pretty.
From Stdlib Require Import ZArith Lia Ascii.

Set Warnings "-register-all".
Open Scope string_scope.
Open Scope list_scope.
Open Scope Z_scope.

(** ** JavaScript values *)

Module JS.

(** A JavaScript number. *)
Inductive num := NaN | NegInf | Fin (z : Z) | PosInf.

Inductive value :=
| VNull
| VBool (b : bool)
| VNum (n : num)
| VStr (s : string)
| VArr (elems : list value)
| VObj (fields : list (string * value)).

(** A thrown exception: the constructor name and the [message]. *)
Record exn := MkExn { ename : string; message : string }.

Definition Error (msg : string) : exn := MkExn "Error" msg.
Definition TypeError (msg : string) : exn := MkExn "TypeError" msg.

Inductive Result (A : Type) :=
| Ok (a : A)
| Throw (e : exn).
Arguments Ok {A} a.
Arguments Throw {A} e.

Definition bindR {A B} (r : Result A) (k : A -> Result B) : Result B :=
  match r with
  | Ok a => k a
  | Throw e => Throw e
  end.

Notation "'let?' x ':=' e 'in' k" := (bindR e (fun x => k))
  (at level 10, x name, e at level 100, k at level 200).

Fixpoint mapR {A B} (f : A -> Result B) (l : list A) : Result (list B) :=
  match l with
  | [] => Ok []
  | x :: r => let? y := f x in let? ys := mapR f r in Ok (y :: ys)
  end.

(** *** Numbers *)

Definition num_neg (a : num) : num :=
  match a with
  | NaN => NaN
  | NegInf => PosInf
  | Fin z => Fin (- z)
  | PosInf => NegInf
  end.

Definition num_add (a b : num) : num :=
  match a, b with
  | NaN, _ | _, NaN => NaN
  | PosInf, NegInf | NegInf, PosInf => NaN
  | PosInf, _ | _, PosInf => PosInf
  | NegInf, _ | _, NegInf => NegInf
  | Fin x, Fin y => Fin (x + y)
  end.

Definition num_sub (a b : num) : num := num_add a (num_neg b).

(** The infinity of the sign of [z], [NaN] for [0 * Infinity]. *)
Definition inf_times (positive : bool) (z : Z) : num :=
  if z =? 0 then NaN
  else if Bool.eqb positive (0 <? z) then PosInf else NegInf.

Definition num_mul (a b : num) : num :=
  match a, b with
  | NaN, _ | _, NaN => NaN
  | Fin x, Fin y => Fin (x * y)
  | PosInf, Fin y => inf_times true y
  | NegInf, Fin y => inf_times false y
  | Fin x, PosInf => inf_times true x
  | Fin x, NegInf => inf_times false x
  | PosInf, PosInf | NegInf, NegInf => PosInf
  | PosInf, NegInf | NegInf, PosInf => NegInf
  end.

(** [Math.floor(a / d)] for a finite divisor [d > 0]. *)
Definition floor_div (a : num) (d : Z) : num :=
  match a with
  | Fin z => Fin (z / d)
  | _ => a
  end.

(** [a < b]: every comparison with [NaN] is false. *)
Definition num_lt (a b : num) : bool :=
  match a, b with
  | NaN, _ | _, NaN => false
  | _, NegInf | PosInf, _ => false
  | NegInf, _ | _, PosInf => true
  | Fin x, Fin y => x <? y
  end.

(** [a <= b] *)
Definition num_le (a b : num) : bool :=
  match a, b with
  | NaN, _ | _, NaN => false
  | NegInf, _ | _, PosInf => true
  | _, NegInf | PosInf, _ => false
  | Fin x, Fin y => x <=? y
  end.

(** [Math.max(a, b)]. *)
Definition Math_max (a b : num) : num :=
  match a, b with
  | NaN, _ | _, NaN => NaN
  | PosInf, _ | _, PosInf => PosInf
  | NegInf, c | c, NegInf => c
  | Fin x, Fin y => Fin (Z.max x y)
  end.

(** [String(n)] for a number (decimal digits; the exponent form of very
    large magnitudes is not modelled). *)
Definition num_to_string (n : num) : string :=
  match n with
  | NaN => "NaN"
  | NegInf => "-Infinity"
  | Fin z => pretty z
  | PosInf => "Infinity"
  end.

(** *** Objects and property reads *)

Fixpoint assoc {A} (k : string) (l : list (string * A)) : option A :=
  match l with
  | [] => None
  | (k', v) :: r => if String.eqb k k' then Some v else assoc k r
  end.

Definition has_own (k : string) (fields : list (string * value)) : bool :=
  match assoc k fields with
  | Some _ => true
  | None => false
  end.

Definition len {A} (l : list A) : Z := Z.of_nat (length l).

(** The data property [k] of a non-null [v]: an object yields its own
    property; strings and arrays have [length]; every other read is
    [undefined].  (None of the names this program reads is inherited from a
    prototype.) *)
Definition prop (v : value) (k : string) : option value :=
  match v with
  | VObj fields => assoc k fields
  | VArr elems =>
      if String.eqb k "length" then Some (VNum (Fin (len elems))) else None
  | VStr s =>
      if String.eqb k "length"
      then Some (VNum (Fin (Z.of_nat (String.length s)))) else None
  | VNull | VBool _ | VNum _ => None
  end.

(** [v.k]: reading a property of [null] throws. *)
Definition js_get (v : value) (k : string) : Result (option value) :=
  match v with
  | VNull =>
      Throw (TypeError ("Cannot read properties of null (reading '" +:+ k +:+ "')"))
  | _ => Ok (prop v k)
  end.

(** [o?.k] on a possibly undefined [o]. *)
Definition js_get_opt (o : option value) (k : string) : option value :=
  match o with
  | None | Some VNull => None
  | Some v => prop v k
  end.

Arguments js_get_opt : simpl never.

(** [o ?? d]. *)
Definition nullish (o : option value) (d : value) : value :=
  match o with
  | None | Some VNull => d
  | Some v => v
  end.

(** [Boolean(v)]. *)
Definition to_boolean (v : value) : bool :=
  match v with
  | VNull => false
  | VBool b => b
  | VNum NaN => false
  | VNum (Fin z) => negb (z =? 0)
  | VNum _ => true
  | VStr s => negb (String.eqb s "")
  | VArr _ | VObj _ => true
  end.

Definition truthy (o : option value) : bool :=
  match o with
  | None => false
  | Some v => to_boolean v
  end.

Definition isArray (v : value) : bool :=
  match v with
  | VArr _ => true
  | _ => false
  end.

(** [typeof v === "object"] for a truthy [v]. *)
Definition is_object (v : value) : bool :=
  match v with
  | VArr _ | VObj _ => true
  | _ => false
  end.

Definition is_string (v : value) : Prop :=
  match v with
  | VStr _ => True
  | _ => False
  end.

Definition cannot_convert : exn :=
  TypeError "Cannot convert object to primitive value".

(** [String(v)].  An array joins its elements with commas, [null] elements
    printing as the empty string.  An object prints as [[object Object]]
    through [Object.prototype.toString], unless it has an own [toString]
    property: a value decoded from JSON is never callable, the fallback
    [valueOf] returns the object itself, and the conversion throws. *)
Fixpoint ToString (v : value) : Result string :=
  match v with
  | VNull => Ok "null"
  | VBool b => Ok (if b then "true" else "false")
  | VNum n => Ok (num_to_string n)
  | VStr s => Ok s
  | VArr elems =>
      (fix join (l : list value) : Result string :=
         match l with
         | [] => Ok ""
         | x :: r =>
             let? a := match x with VNull => Ok "" | _ => ToString x end in
             match r with
             | [] => Ok a
             | _ :: _ => let? b := join r in Ok (a +:+ "," +:+ b)
             end
         end) elems
  | VObj fields =>
      if has_own "toString" fields then Throw cannot_convert
      else Ok "[object Object]"
  end.

(** The parts of the runtime library whose results the program passes on
    without looking at them. *)
Record Runtime := {
  (** [Number(s)] for a string [s] *)
  StringToNumber : string -> num;
  (** [decodeURIComponent(s)], [None] when it throws [URIError] *)
  decodeURIComponent : string -> option string;
  (** [Buffer.from(s).toString("base64")] *)
  base64 : string -> string
}.

(** [Number(v)]: arrays and objects go through their string form. *)
Definition ToNumber (rt : Runtime) (v : value) : Result num :=
  match v with
  | VNull => Ok (Fin 0)
  | VBool b => Ok (Fin (if b then 1 else 0))
  | VNum n => Ok n
  | VStr s => Ok (StringToNumber rt s)
  | VArr _ | VObj _ => let? s := ToString v in Ok (StringToNumber rt s)
  end.

(** [n < v] with a number on the left. *)
Definition lt_value (rt : Runtime) (n : num) (v : value) : Result bool :=
  let? m := ToNumber rt v in Ok (num_lt n m).

End JS.
Import JS.

(** ** Induction on values, through the arrays and the objects *)

Section value_induction.

Variable P : value -> Prop.
Hypothesis Hnull : P VNull.
Hypothesis Hbool : forall b, P (VBool b).
Hypothesis Hnum : forall n, P (VNum n).
Hypothesis Hstr : forall s, P (VStr s).
Hypothesis Harr : forall elems, Forall P elems -> P (VArr elems).
Hypothesis Hobj : forall fields, Forall (fun kv => P kv.2) fields -> P (VObj fields).

Fixpoint value_nested_ind (v : value) : P v :=
  match v with
  | VNull => Hnull
  | VBool b => Hbool b
  | VNum n => Hnum n
  | VStr s => Hstr s
  | VArr elems =>
      Harr elems
        ((fix all (l : list value) : Forall P l :=
            match l with
            | [] => List.Forall_nil P
            | x :: r => List.Forall_cons P x r (value_nested_ind x) (all r)
            end) elems)
  | VObj fields =>
      Hobj fields
        ((fix all (l : list (string * value)) : Forall (fun kv => P kv.2) l :=
            match l with
            | [] => List.Forall_nil _
            | (k, x) :: r =>
                List.Forall_cons (fun kv => P kv.2) (k, x) r (value_nested_ind x) (all r)
            end) fields)
  end.

End value_induction.

(** ** The normaliser (the callback of [items.map] in [syncGameRef]) *)

(** The object [out] built for one character.  [id], [name] and [traits]
    are always assigned; the other properties only under their guards.
    [name] is stored as read, without conversion. *)
Record Character := {
  out_id : string;
  out_name : value;
  out_imageUrl : option string;
  out_traits : list string;
  out_faction : option string;
  out_role : option string;
  out_stats : option value
}.

(** [if (c.k) out.k = String(c.k)] *)
Definition string_if_truthy (o : option value) : Result (option string) :=
  match o with
  | Some v =>
      if to_boolean v then let? s := ToString v in Ok (Some s) else Ok None
  | None => Ok None
  end.

Definition normalize (c : value) : Result Character :=
  let? _a := js_get c "id" in
  let? id := ToString (nullish _a (VStr "")) in
  let? _b := js_get c "name" in
  let name := nullish _b (VStr "") in
  let? c_imageUrl := js_get c "imageUrl" in
  let? imageUrl := string_if_truthy c_imageUrl in
  let? c_traits := js_get c "traits" in
  let? traits :=
    match c_traits with
    | Some (VArr ts) => mapR ToString ts
    | _ => Ok []
    end in
  let? c_faction := js_get c "faction" in
  let? faction := string_if_truthy c_faction in
  let? c_role := js_get c "role" in
  let? role := string_if_truthy c_role in
  let? c_stats := js_get c "stats" in
  let stats :=
    match c_stats with
    | Some v => if to_boolean v && is_object v then Some v else None
    | None => None
    end in
  Ok {| out_id := id; out_name := name; out_imageUrl := imageUrl;
        out_traits := traits; out_faction := faction; out_role := role;
        out_stats := stats |}.

Definition opt_field (k : string) (o : option value) : list (string * value) :=
  match o with
  | Some v => [(k, v)]
  | None => []
  end.

(** [out] as the JavaScript object it is, properties in assignment order. *)
Definition character_value (o : Character) : value :=
  VObj ([("id", VStr (out_id o)); ("name", out_name o)]
        ++ opt_field "imageUrl" (VStr <$> out_imageUrl o)
        ++ [("traits", VArr (VStr <$> out_traits o))]
        ++ opt_field "faction" (VStr <$> out_faction o)
        ++ opt_field "role" (VStr <$> out_role o)
        ++ opt_field "stats" (out_stats o)).

(** [String(v)] does not throw: no object with an own [toString] is
    reached through the arrays of [v]. *)
Fixpoint stringifiable (v : value) : bool :=
  match v with
  | VArr elems => forallb stringifiable elems
  | VObj fields => negb (has_own "toString" fields)
  | _ => true
  end.

Definition convertible (o : option value) : bool :=
  match o with
  | Some v => stringifiable v
  | None => true
  end.

(** The records [normalize] accepts: anything but [null], provided the
    properties it converts to strings can be converted. *)
Definition normalizable (c : value) : bool :=
  match c with
  | VNull => false
  | _ =>
      convertible (prop c "id") && convertible (prop c "imageUrl")
      && match prop c "traits" with
         | Some (VArr ts) => forallb stringifiable ts
         | _ => true
         end
      && convertible (prop c "faction") && convertible (prop c "role")
  end.

(** ** The outside world and the state of the process *)

(** A call of [fetch(url, { method, headers, body })]. *)
Record Request := {
  url : string;
  method : string;
  headers : list (string * string);
  body : option (list (string * string))
}.

(** What the program reads from a [Response]: [json] is the result of
    decoding [text], [None] when decoding throws. *)
Record HttpResponse := {
  status : Z;
  statusText : string;
  contentType : option string;
  text : string;
  json : option value
}.

(** [r.ok] *)
Definition ok (r : HttpResponse) : bool :=
  (200 <=? status r) && (status r <=? 299).

(** The calls that leave the process, in the order they are made. *)
Inductive Event :=
| EvFetch (rq : Request)
| EvSave (path : string) (content : value) (content_type : string)
| EvSet (collection doc : string) (data : value) (merge : bool).

Record World := {
  runtime : Runtime;
  MSF_CLIENT_ID : string;
  MSF_CLIENT_SECRET : string;
  MSF_TOKEN_URL : string;
  MSF_API_BASE : string;
  MSF_X_API_KEY : string;
  (** the [k]-th reading of [Date.now()] *)
  Date_now : nat -> Z;
  (** the outcome of a [fetch], given everything that happened before it *)
  fetch : list Event -> Request -> Result HttpResponse;
  (** whether the next write to a store fails, and with what *)
  storage_fault : list Event -> option exn
}.

Record CachedToken := {
  access_token : value;
  expiresAt : num
}.

Record State := {
  cachedToken : option CachedToken;
  clock_reads : nat;
  trace : list Event;
  (** the bucket: path to the document saved there *)
  bucket : gmap string value;
  (** Firestore: (collection, document id) to the document *)
  firestore : gmap (string * string) value
}.

Definition M (A : Type) : Type := State -> Result A * State.

Definition ret {A} (a : A) : M A := fun s => (Ok a, s).

Definition throw {A} (e : exn) : M A := fun s => (Throw e, s).

Definition bind {A B} (m : M A) (k : A -> M B) : M B :=
  fun s =>
    match m s with
    | (Ok a, s') => k a s'
    | (Throw e, s') => (Throw e, s')
    end.

Notation "'let*' x ':=' e 'in' k" := (bind e (fun x => k))
  (at level 10, x name, e at level 100, k at level 200).

Definition lift {A} (r : Result A) : M A := fun s => (r, s).

(** [try { m } catch (e) { h e }] *)
Definition try_catch {A} (m : M A) (h : exn -> M A) : M A :=
  fun s =>
    match m s with
    | (Ok a, s') => (Ok a, s')
    | (Throw e, s') => h e s'
    end.

Definition get_cachedToken : M (option CachedToken) :=
  fun s => (Ok (cachedToken s), s).

Definition set_cachedToken (t : CachedToken) : M unit :=
  fun s => (Ok tt,
            {| cachedToken := Some t; clock_reads := clock_reads s;
               trace := trace s; bucket := bucket s; firestore := firestore s |}).

Definition log_event (e : Event) (s : State) : State :=
  {| cachedToken := cachedToken s; clock_reads := clock_reads s;
     trace := trace s ++ [e]; bucket := bucket s; firestore := firestore s |}.

(** [o[k] = v] on an object, [form.set(k, v)] on URLSearchParams. *)
Fixpoint set_field {A} (k : string) (v : A) (l : list (string * A)) : list (string * A) :=
  match l with
  | [] => [(k, v)]
  | (k', v') :: r =>
      if String.eqb k k' then (k, v) :: r else (k', v') :: set_field k v r
  end.

(** [set(data, { merge: true })] on a document: only the leaves given in
    [data] are written, the other fields stay.  (The program passes the
    two fields [updatedAt] and [counts].) *)
Fixpoint merge_value (old : option value) (data : value) {struct data} : value :=
  match data with
  | VObj [] => VObj []
  | VObj new_fields =>
      let old_fields := match old with Some (VObj f) => f | _ => [] end in
      VObj ((fix go (nf acc : list (string * value)) {struct nf} :=
               match nf with
               | [] => acc
               | (k, v) :: r => go r (set_field k (merge_value (assoc k acc) v) acc)
               end) new_fields old_fields)
  | _ => data
  end.

(** ** String helpers *)

(** [s.replace(/\/$/, "")] *)
Fixpoint strip_trailing_slash (s : string) : string :=
  match s with
  | "" => ""
  | String c "" => if Ascii.eqb c "/"%char then "" else s
  | String c r => String c (strip_trailing_slash r)
  end.

(** [s.replace(/^\//, "")] *)
Definition strip_leading_slash (s : string) : string :=
  match s with
  | String c r => if Ascii.eqb c "/"%char then r else s
  | "" => ""
  end.

(** [\s], on the characters a header has.  Node reads a header as
    Latin-1, one character per byte; of the white space of JavaScript
    (tab to carriage return, the space, U+00A0, U+1680, U+2000 to U+200A,
    U+2028, U+2029, U+202F, U+205F, U+3000, U+FEFF) those below 256 are
    9 to 13, 32 and 160. *)
Definition is_space (c : Ascii.ascii) : bool :=
  let n := Ascii.N_of_ascii c in
  ((9 <=? n) && (n <=? 13))%N || (n =? 32)%N || (n =? 160)%N.

(** [raw.split(/;\s*/)]: [skipping] is set while the white space that
    follows a semicolon is being consumed. *)
Fixpoint split_semicolons (skipping : bool) (raw : string) : list string :=
  match raw with
  | "" => [""]
  | String c r =>
      if skipping && is_space c then split_semicolons true r
      else if Ascii.eqb c ";"%char then "" :: split_semicolons true r
      else match split_semicolons false r with
           | part :: parts => String c part :: parts
           | [] => [String c ""]
           end
  end.

(** The text before the first [=], and what follows it if there is one. *)
Fixpoint cut_at_equals (s : string) : string * option string :=
  match s with
  | "" => ("", None)
  | String c r =>
      if Ascii.eqb c "="%char then ("", Some r)
      else let (k, rest) := cut_at_equals r in (String c k, rest)
  end.

(** [const [k, v] = part.split("=")]: [v] is [undefined] without an [=]. *)
Definition key_value (part : string) : string * option string :=
  let (k, rest) := cut_at_equals part in
  (k, (fun r => fst (cut_at_equals r)) <$> rest).

Section Program.

Context (W : World).

(** [Date.now()] *)
Definition now : M Z :=
  fun s => (Ok (Date_now W (clock_reads s)),
            {| cachedToken := cachedToken s; clock_reads := S (clock_reads s);
               trace := trace s; bucket := bucket s; firestore := firestore s |}).

(** [await fetch(...)] *)
Definition do_fetch (rq : Request) : M HttpResponse :=
  fun s => (fetch W (trace s) rq, log_event (EvFetch rq) s).

(** [await bucket.file(path).save(JSON.stringify(content, null, 2), { contentType })] *)
Definition save (path : string) (content : value) (content_type : string) : M unit :=
  fun s =>
    let s' := log_event (EvSave path content content_type) s in
    match storage_fault W (trace s) with
    | Some e => (Throw e, s')
    | None =>
        (Ok tt,
         {| cachedToken := cachedToken s'; clock_reads := clock_reads s';
            trace := trace s'; bucket := <[path := content]> (bucket s');
            firestore := firestore s' |})
    end.

(** [await db.collection(c).doc(d).set(data, { merge: true })] *)
Definition set_merge (c d : string) (data : value) : M unit :=
  fun s =>
    let s' := log_event (EvSet c d data true) s in
    match storage_fault W (trace s) with
    | Some e => (Throw e, s')
    | None =>
        (Ok tt,
         {| cachedToken := cachedToken s'; clock_reads := clock_reads s';
            trace := trace s'; bucket := bucket s';
            firestore := <[(c, d) := merge_value (firestore s' !! (c, d)) data]> (firestore s') |})
    end.


(** ** Helpers *)

(** An incoming request, as far as the handlers read it: [req.query.path]
    and [req.headers.cookie]. *)
Record IncomingRequest := {
  query_path : option value;
  cookie : option string
}.

Inductive Payload :=
| SendJson (v : value)
| SendText (s : string).

(** What a handler sends: the status, the [Content-Type] it sets itself,
    and the body. *)
Record Response := {
  res_status : Z;
  res_contentType : option string;
  res_body : Payload
}.

(** [res.status(code).json({ ok: false, error })] *)
Definition fail_with (code : Z) (error : string) : Response :=
  {| res_status := code; res_contentType := None;
     res_body := SendJson (VObj [("ok", VBool false); ("error", VStr error)]) |}.

Definition URIError : exn := MkExn "URIError" "URI malformed".

Fixpoint find_cookie (name : string) (parts : list string) : Result (option string) :=
  match parts with
  | [] => Ok None
  | part :: rest =>
      let (k, v) := key_value part in
      if String.eqb k name
      then match decodeURIComponent (runtime W) (default "" v) with
           | Some t => Ok (Some t)
           | None => Throw URIError
           end
      else find_cookie name rest
  end.

Definition getCookie (req : IncomingRequest) (name : string) : Result (option string) :=
  let raw := default "" (cookie req) in
  find_cookie name (split_semicolons false raw).

Definition SyntaxError : exn := MkExn "SyntaxError" "Unexpected token in JSON".

(** The request [fetchJSON] makes. *)
Definition api_request (path : string) (hdrs : list (string * string)) : Request :=
  {| url := strip_trailing_slash (MSF_API_BASE W) +:+ "/" +:+ strip_leading_slash path;
     method := "GET"; headers := hdrs; body := None |}.

Definition fetchJSON (path : string) (hdrs : list (string * string)) : M value :=
  let* r := do_fetch (api_request path hdrs) in
  if negb (ok r)
  then throw (Error (path +:+ " -> " +:+ pretty (status r) +:+ " " +:+ statusText r))
  else match json r with
       | Some v => ret v
       | None => throw SyntaxError
       end.

(** ** The token cache *)

(** The request for a new token (the part of [getAppAccessToken] up to the
    [fetch]). *)
Definition token_request : Request :=
  let useBasic :=
    negb (String.eqb (MSF_CLIENT_ID W) "") && negb (String.eqb (MSF_CLIENT_SECRET W) "") in
  let form := [("grant_type", "client_credentials"); ("scope", "openid")] in
  let headers := [("Content-Type", "application/x-www-form-urlencoded")] in
  if useBasic
  then
    let basic := base64 (runtime W) (MSF_CLIENT_ID W +:+ ":" +:+ MSF_CLIENT_SECRET W) in
    {| url := MSF_TOKEN_URL W; method := "POST";
       headers := set_field "Authorization" ("Basic " +:+ basic) headers;
       body := Some form |}
  else
    {| url := MSF_TOKEN_URL W; method := "POST"; headers := headers;
       body := Some (set_field "client_secret" (MSF_CLIENT_SECRET W)
                       (set_field "client_id" (MSF_CLIENT_ID W) form)) |}.

(** The rest of [getAppAccessToken] once the cache has been passed over:
    ask for a token, check the answer, fill the cache, and return the
    decoded answer itself. *)
Definition refresh_token : M value :=
  let* r := do_fetch token_request in
  if negb (ok r) then throw (Error ("Hydra token error " +:+ pretty (status r)))
  else match json r with
       | None => throw (Error "Hydra token parse error")
       | Some json =>
           let tok := js_get_opt (Some json) "access_token" in
           let exp := js_get_opt (Some json) "expires_in" in
           if negb (truthy tok) || negb (truthy exp)
           then throw (Error "Hydra token missing fields")
           else
             let* t := now in
             let* n := lift (ToNumber (runtime W) (nullish exp VNull)) in
             let* _ := set_cachedToken
                         {| access_token := nullish tok VNull;
                            expiresAt := num_add (Fin t) (num_mul n (Fin 1000)) |} in
             ret json
       end.

Definition getAppAccessToken : M value :=
  let* cached := get_cachedToken in
  match cached with
  | Some c =>
      let* t := now in
      if num_lt (Fin t) (num_sub (expiresAt c) (Fin 60000))
      then
        let* t' := now in
        ret (VObj [("access_token", access_token c);
                   ("expires_in",
                    VNum (Math_max (Fin 60)
                            (floor_div (num_sub (expiresAt c) (Fin t')) 1000)))])
      else refresh_token
  | None => refresh_token
  end.

(** ** The proxy *)

Definition msfProxy (req : IncomingRequest) : M Response :=
  try_catch
    (let* path := lift (ToString (nullish (query_path req) (VStr ""))) in
     if negb (String.prefix "game/v1/" path)
     then ret (fail_with 400 "path must start with game/v1/...")
     else
       let* token := lift (getCookie req "msf_at") in
       match token with
       | None | Some "" => ret (fail_with 401 "missing msf_at cookie")
       | Some token =>
           let url := strip_trailing_slash (MSF_API_BASE W) +:+ "/" +:+ path in
           let* upstream :=
             do_fetch {| url := url; method := "GET";
                         headers := [("x-api-key", MSF_X_API_KEY W);
                                     ("Authorization", "Bearer " +:+ token);
                                     ("User-Agent", "SynergyForge/1.0");
                                     ("Accept", "application/json");
                                     ("Accept-Language", "en-US,en;q=0.8")];
                         body := None |} in
           ret {| res_status := status upstream;
                  res_contentType :=
                    match contentType upstream with
                    | Some "" | None => None
                    | Some ct => Some ct
                    end;
                  res_body := SendText (text upstream) |}
       end)
    (fun e => ret (fail_with 500 (message e))).

(** ** The ETL run *)

Definition perPage : Z := 200.

Definition characters_path (page : Z) : string :=
  "game/v1/characters?lang=none&traitFormat=id&perPage=" +:+ pretty perPage
  +:+ "&page=" +:+ pretty page.

(** [`${o}`] *)
Definition template (o : option value) : Result string :=
  match o with
  | Some v => ToString v
  | None => Ok "undefined"
  end.

(** [Array.isArray(resp) ? resp : (resp.items ?? [])] *)
Definition items_of (resp : value) : Result value :=
  if isArray resp then Ok resp
  else let? i := js_get resp "items" in Ok (nullish i (VArr [])).

(** The receiver of [items.map(...)]: only an array has a [map] to call. *)
Definition as_array (items : value) : Result (list value) :=
  match items with
  | VArr l => Ok l
  | _ => Throw (TypeError "items.map is not a function")
  end.

(** The [while] loop of [syncGameRef], with its three variables.  [fuel]
    bounds the number of iterations the model is allowed to run; [None]
    means the bound was reached with the loop still going. *)
Fixpoint collect_pages (fuel : nat) (hdrs : list (string * string))
    (page : Z) (allChars : list Character) (perTotal : value)
    : M (option (list Character * Z)) :=
  let* more := lift (lt_value (runtime W) (Fin (len allChars)) perTotal) in
  if negb more then ret (Some (allChars, page))
  else
    match fuel with
    | O => ret None
    | S fuel' =>
        let* resp := fetchJSON (characters_path page) hdrs in
        let* items := lift (let? i := items_of resp in as_array i) in
        let* normalized := lift (mapR normalize items) in
        let allChars := allChars ++ normalized in
        let meta := nullish (js_get_opt (Some resp) "meta") (VObj []) in
        let perTotal :=
          nullish (prop meta "perTotal")
            (VNum (Fin (if len items <? perPage
                        then len allChars else len allChars + perPage))) in
        if len items <? perPage then ret (Some (allChars, page))
        else
          let page := page + 1 in
          if 200 <? page then ret (Some (allChars, page))
          else collect_pages fuel' hdrs page allChars perTotal
    end.

(** What the run holds when the loop is left. *)
Record Extracted := {
  traits : value;
  allChars : list Character;
  page : Z
}.

(** The [headers] of [syncGameRef], for the token [bearer]. *)
Definition api_headers (bearer : string) : list (string * string) :=
  [("x-api-key", MSF_X_API_KEY W);
   ("Authorization", "Bearer " +:+ bearer);
   ("User-Agent", "SynergyForge/1.0");
   ("Accept", "application/json")].

(** The first half of [syncGameRef]: the token, the traits, the pages. *)
Definition extract (fuel : nat) : M (option Extracted) :=
  let* token := getAppAccessToken in
  let* bearer := lift (let? a := js_get token "access_token" in template a) in
  let hdrs := api_headers bearer in
  let* traits := fetchJSON "game/v1/traits?lang=none" hdrs in
  let* collected := collect_pages fuel hdrs 1 [] (VNum PosInf) in
  ret ((fun '(allChars, page) =>
          {| traits := traits; allChars := allChars; page := page |}) <$> collected).

(** [Array.isArray(traits) ? traits.length : (traits.items?.length ?? 0)] *)
Definition count_traits (traits : value) : Result value :=
  match traits with
  | VArr l => Ok (VNum (Fin (len l)))
  | _ =>
      let? i := js_get traits "items" in
      Ok (nullish (js_get_opt i "length") (VNum (Fin 0)))
  end.

Definition characters_document (x : Extracted) : value :=
  VObj [("items", VArr (character_value <$> allChars x));
        ("meta", VObj [("perTotal", VNum (Fin (len (allChars x))));
                       ("perPage", VNum (Fin perPage));
                       ("page", VNum (Fin (page x)))])].

(** The second half: the two artifacts, the metadata, the answer.
    [Timestamp.now()] is a reading of the clock. *)
Definition load (x : Extracted) : M Response :=
  let* _ := save "datasets/traits.json" (traits x) "application/json" in
  let* _ := save "datasets/characters.json" (characters_document x) "application/json" in
  let* traitsCount := lift (count_traits (traits x)) in
  let charsCount := VNum (Fin (len (allChars x))) in
  let counts := VObj [("traits", traitsCount); ("characters", charsCount)] in
  let* t := now in
  let* _ := set_merge "meta" "datasets"
              (VObj [("updatedAt", VNum (Fin t)); ("counts", counts)]) in
  ret {| res_status := 200; res_contentType := None;
         res_body :=
           SendJson (VObj [("ok", VBool true);
                           ("written",
                            VObj [("traits", VStr "datasets/traits.json");
                                  ("characters", VStr "datasets/characters.json")]);
                           ("counts", counts)]) |}.

Definition syncGameRef (fuel : nat) : M (option Response) :=
  try_catch
    (let* x := extract fuel in
     match x with
     | Some x => let* r := load x in ret (Some r)
     | None => ret None
     end)
    (fun e => ret (Some (fail_with 500 (message e)))).

End Program.

(** ** Test doubles

    Concrete worlds on which the statements below are exercised. *)

Module Mock.

Definition rt : Runtime :=
  {| StringToNumber := fun _ => NaN;
     decodeURIComponent := fun s => Some s;
     base64 := fun s => s |}.

(** A world with the given secret, clock and network. *)
Definition world (secret : string) (clock : nat -> Z)
    (net : list Event -> Request -> Result HttpResponse) : World :=
  {| runtime := rt;
     MSF_CLIENT_ID := "forge";
     MSF_CLIENT_SECRET := secret;
     MSF_TOKEN_URL := "https://hydra.test/oauth2/token";
     MSF_API_BASE := "https://api.test/";
     MSF_X_API_KEY := "k3y";
     Date_now := clock;
     fetch := net;
     storage_fault := fun _ => None |}.

(** A reply [200 OK] whose body decodes to [v]. *)
Definition json_reply (v : value) : HttpResponse :=
  {| status := 200; statusText := "OK"; contentType := Some "application/json";
     text := "(json)"; json := Some v |}.

(** A freshly started process. *)
Definition cold : State :=
  {| cachedToken := None; clock_reads := 0; trace := []; bucket := ∅; firestore := ∅ |}.

(** A process whose cache holds [tok], valid until [expires]. *)
Definition warm (tok : string) (expires : Z) : State :=
  {| cachedToken := Some {| access_token := VStr tok; expiresAt := Fin expires |};
     clock_reads := 0; trace := []; bucket := ∅; firestore := ∅ |}.

(** The token answer [{ access_token: tok, expires_in: secs }]. *)
Definition grant (tok : string) (secs : Z) : value :=
  VObj [("access_token", VStr tok); ("expires_in", VNum (Fin secs))].

(** A token endpoint that always grants [tok] for [secs] seconds. *)
Definition granting (tok : string) (secs : Z) : list Event -> Request -> Result HttpResponse :=
  fun _ _ => Ok (json_reply (grant tok secs)).

(** A network that answers the [k]-th call of the run with the [k]-th
    of [replies], each a [200 OK] with that JSON body. *)
Definition scripted (replies : list value) : list Event -> Request -> Result HttpResponse :=
  fun history _ =>
    match replies !! length history with
    | Some v => Ok (json_reply v)
    | None => Throw (TypeError "fetch failed")
    end.

(** A raw character, and what it normalises to. *)
Definition raw_character : value :=
  VObj [("id", VNum (Fin 42)); ("name", VStr "Hulk"); ("traits", VArr [VStr "Hero"])].

Definition character : Character :=
  {| out_id := "42"; out_name := VStr "Hulk"; out_imageUrl := None;
     out_traits := ["Hero"]; out_faction := None; out_role := None;
     out_stats := None |}.

(** A page of [n] characters, as [{ items: [...] }]. *)
Definition page_of (n : nat) : value := VObj [("items", VArr (replicate n raw_character))].

(** An upstream that has a full page for every request. *)
Definition unending : list Event -> Request -> Result HttpResponse :=
  fun _ _ => Ok (json_reply (page_of 200)).

(** A clock that advances one second per reading, from [0]. *)
Definition ticking : nat -> Z := fun k => 1000 * Z.of_nat k.

(** The same clock, stopped at the end of the first minute. *)
Definition first_minute : nat -> Z := fun k => Z.min (1000 * Z.of_nat k) 60000.

End Mock.

(** ** Vocabulary of the statements *)

(** Whether [getAppAccessToken] answers from the cache in state [s]. *)
Definition cache_fresh (W : World) (s : State) : bool :=
  match cachedToken s with
  | Some c => num_lt (Fin (Date_now W (clock_reads s))) (num_sub (expiresAt c) (Fin 60000))
  | None => false
  end.

(** The state after one more reading of the clock. *)
Definition tick (s : State) : State :=
  {| cachedToken := cachedToken s; clock_reads := S (clock_reads s);
     trace := trace s; bucket := bucket s; firestore := firestore s |}.

(** The answer built from the cached token [c] at time [t]. *)
Definition cached_answer (c : CachedToken) (t : Z) : value :=
  VObj [("access_token", access_token c);
        ("expires_in",
         VNum (Math_max (Fin 60) (floor_div (num_sub (expiresAt c) (Fin t)) 1000)))].

(** The state in which [refresh_token] leaves the process on success. *)
Definition refreshed (W : World) (s : State) (tok : value) (n : num) : State :=
  {| cachedToken :=
       Some {| access_token := tok;
               expiresAt := num_add (Fin (Date_now W (clock_reads s))) (num_mul n (Fin 1000)) |};
     clock_reads := S (clock_reads s);
     trace := trace s ++ [EvFetch (token_request W)];
     bucket := bucket s; firestore := firestore s |}.

(** Two calls of [getAppAccessToken], one after the other. *)
Definition two_calls (W : World) : M (value * value) :=
  let* first := getAppAccessToken W in
  let* second := getAppAccessToken W in
  ret (first, second).

(** The answer [{ access_token: tok, expires_in }] for a token that
    expires at [expires], given at time [t]: the remaining whole seconds,
    but at least 60. *)
Definition reported (tok : value) (expires t : Z) : value :=
  VObj [("access_token", tok);
        ("expires_in", VNum (Fin (Z.max 60 ((expires - t) / 1000))))].

(** [meta.perTotal] of a page, [meta] being [resp?.meta ?? {}]. *)
Definition declared_total (resp : value) : option value :=
  prop (nullish (js_get_opt (Some resp) "meta") (VObj [])) "perTotal".

(** The fetch of page [p] of the characters. *)
Definition page_fetch (W : World) (hdrs : list (string * string)) (p : Z) : Event :=
  EvFetch (api_request W (characters_path p) hdrs).

(** The total that page [resp] declares does not end the loop after [n]
    items: there is none, or it is a number above [n]. *)
Definition total_allows (resp : value) (n : Z) : Prop :=
  match declared_total resp with
  | None | Some VNull => True
  | Some (VNum (Fin t)) => n < t
  | Some (VNum PosInf) => True
  | Some _ => False
  end.

(** With the calls [history] behind it, the call [rq] is answered with a
    success status and a body that decodes to [v]. *)
Definition replies (W : World) (history : list Event) (rq : Request) (v : value) : Prop :=
  exists r : HttpResponse,
    fetch W history rq = Ok r /\ ok r = true /\ json r = Some v.

(** With the calls [history] behind it, the fetch of page [p] succeeds
    with a body [resp] whose items are [items], which normalise to [chars]. *)
Definition page_arrives (W : World) (hdrs : list (string * string))
    (history : list Event) (p : Z)
    (resp : value) (items : list value) (chars : list Character) : Prop :=
  exists r : HttpResponse,
    fetch W history (api_request W (characters_path p) hdrs) = Ok r
    /\ ok r = true /\ json r = Some resp
    /\ items_of resp = Ok (VArr items)
    /\ mapR normalize items = Ok chars.

(** An upstream that answers every page, whenever asked, with exactly
    [perPage] items that normalise, and declares no total. *)
Definition always_full (W : World) (hdrs : list (string * string)) : Prop :=
  forall (history : list Event) (p : Z),
  exists (resp : value) (items : list value) (chars : list Character),
    page_arrives W hdrs history p resp items chars
    /\ length items = 200%nat
    /\ declared_total resp = None.

(** The traits of the end-to-end scenario. *)
Definition fast_traits : value :=
  VArr [VObj [("id", VStr "t1"); ("name", VStr "Fast")]].

(** [{ traits, characters }] *)
Definition sync_counts (traits characters : Z) : value :=
  VObj [("traits", VNum (Fin traits)); ("characters", VNum (Fin characters))].

(** The answer of a run that went through. *)
Definition sync_report (counts : value) : Response :=
  {| res_status := 200; res_contentType := None;
     res_body :=
       SendJson (VObj [("ok", VBool true);
                       ("written",
                        VObj [("traits", VStr "datasets/traits.json");
                              ("characters", VStr "datasets/characters.json")]);
                       ("counts", counts)]) |}.

(** The fields the run sets on [meta/datasets]. *)
Definition sync_metadata (updatedAt : Z) (counts : value) : value :=
  VObj [("updatedAt", VNum (Fin updatedAt)); ("counts", counts)].

Definition is_fetch (e : Event) : Prop :=
  match e with
  | EvFetch _ => True
  | _ => False
  end.

(** A call to one of the stores. *)
Definition is_write (e : Event) : Prop :=
  match e with
  | EvFetch _ => False
  | _ => True
  end.

(** [s'] is [s] after some network calls, with nothing written: the bucket
    and Firestore are as they were. *)
Definition only_fetched (s s' : State) : Prop :=
  (exists calls : list Event, trace s' = trace s ++ calls /\ Forall is_fetch calls)
  /\ bucket s' = bucket s
  /\ firestore s' = firestore s.

(** A computation that reaches the outside only through [fetch]. *)
Definition reads_only {A} (m : M A) : Prop :=
  forall s : State, only_fetched s (m s).2.

(** A computation whose calls all go to the stores. *)
Definition writes_only {A} (m : M A) : Prop :=
  forall s : State,
  exists writes : list Event, trace (m s).2 = trace s ++ writes /\ Forall is_write writes.

(** * The other handlers of the module *)

(** What these handlers read from their host beyond the [World]. *)
Record Host := {
  (** [process.env.FUNCTIONS_EMULATOR] *)
  FUNCTIONS_EMULATOR : option string;
  (** [encodeURIComponent(s)], [None] when it throws [URIError] *)
  encodeURIComponent : string -> option string;
  (** [bucket.name] *)
  bucket_name : string;
  (** whether a read of the bucket fails, by operation ([exists],
      [download]) and path *)
  read_fault : string -> string -> option exn
}.

(** What a handler sends: the status, the headers it sets with
    [res.setHeader], and the body. *)
Record Reply := {
  reply_status : Z;
  reply_headers : list (string * string);
  reply_body : Payload
}.

(** [res.status(code).json({ ok: false, error })] *)
Definition refuse (code : Z) (error : string) : Reply :=
  {| reply_status := code; reply_headers := [];
     reply_body := SendJson (VObj [("ok", VBool false); ("error", VStr error)]) |}.

(** [Math.min(a, b)] *)
Definition Math_min (a b : num) : num :=
  match a, b with
  | NaN, _ | _, NaN => NaN
  | NegInf, _ | _, NegInf => NegInf
  | PosInf, c | c, PosInf => c
  | Fin x, Fin y => Fin (Z.min x y)
  end.

(** [l.join(sep)] *)
Fixpoint join_with (sep : string) (l : list string) : string :=
  match l with
  | [] => ""
  | [x] => x
  | x :: r => x +:+ sep +:+ join_with sep r
  end.

(** [s.toLowerCase()], on the letters a byte string has. *)
Definition lower_char (c : Ascii.ascii) : Ascii.ascii :=
  let n := Ascii.N_of_ascii c in
  if ((65 <=? n) && (n <=? 90))%N then Ascii.ascii_of_N (n + 32) else c.

Fixpoint toLowerCase (s : string) : string :=
  match s with
  | "" => ""
  | String c r => String (lower_char c) (toLowerCase r)
  end.

(** What follows the prefix [p] in [s], if [s] starts with it. *)
Fixpoint after_prefix (p s : string) : option string :=
  match p, s with
  | "", _ => Some s
  | String a p', String b s' => if Ascii.eqb a b then after_prefix p' s' else None
  | String _ _, "" => None
  end.

(** [[^/]+] at the head of [s], as far as it goes. *)
Fixpoint take_segment (s : string) : string :=
  match s with
  | "" => ""
  | String c r => if Ascii.eqb c "/"%char then "" else String c (take_segment r)
  end.

(** [pathname.match(/\/datasets\/([^/]+)/)?.[1]]: the leftmost place where
    [/datasets/] is followed by a character other than [/]. *)
Fixpoint match_datasets (pathname : string) : option string :=
  match pathname with
  | "" => None
  | String _ r =>
      match after_prefix "/datasets/" pathname with
      | Some rest =>
          match take_segment rest with
          | "" => match_datasets r
          | seg => Some seg
          end
      | None => match_datasets r
      end
  end.

(** [raw.replace(/\.(json)?$/, "")] *)
Fixpoint strip_json_suffix (raw : string) : string :=
  match raw with
  | "" => ""
  | String c r =>
      if Ascii.eqb c "."%char && (String.eqb r "json" || String.eqb r "")
      then "" else String c (strip_json_suffix r)
  end.

(** The request of [datasets], as far as it is read: the [pathname] of
    [new URL(req.url, "http://localhost")] and [req.query.name]. *)
Record DatasetsRequest := {
  pathname : string;
  query_name : option value
}.

(** [name] in [datasets]. *)
Definition dataset_name (req : DatasetsRequest) : Result string :=
  let? raw :=
    match match_datasets (pathname req) with
    | Some seg => Ok seg
    | None => ToString (if truthy (query_name req)
                        then nullish (query_name req) (VStr "") else VStr "")
    end in
  Ok (strip_json_suffix (toLowerCase raw)).

Section Handlers.

Context (H : Host) (W : World).

(** [Boolean(process.env.FUNCTIONS_EMULATOR)] *)
Definition in_emulator : bool :=
  match FUNCTIONS_EMULATOR H with
  | Some s => negb (String.eqb s "")
  | None => false
  end.

Definition secureCookie : string :=
  if in_emulator then "" else " Secure;".

(** The array [missing] of [oauthClientCreds] and [tokenDebug]. *)
Definition missing_env : list string :=
  (if String.eqb (MSF_CLIENT_ID W) "" then ["MSF_CLIENT_ID"] else [])
  ++ (if String.eqb (MSF_CLIENT_SECRET W) "" then ["MSF_CLIENT_SECRET"] else [])
  ++ (if String.eqb (MSF_TOKEN_URL W) "" then ["MSF_TOKEN_URL"] else []).

Definition missing_env_reply : Reply :=
  refuse 400 ("Missing env: " +:+ join_with ", " missing_env).

(** The value of the [Set-Cookie] header. *)
Definition session_cookie (encoded_token : string) (maxAge : num) : string :=
  "msf_at=" +:+ encoded_token +:+ "; Path=/; HttpOnly; SameSite=Lax; Max-Age="
  +:+ num_to_string maxAge +:+ ";" +:+ secureCookie.

(** [encodeURIComponent(o)] of a possibly undefined value. *)
Definition encode_value (o : option value) : Result string :=
  let? s := template o in
  match encodeURIComponent H s with
  | Some enc => Ok enc
  | None => Throw URIError
  end.

Definition oauthClientCreds (method : string) : M Reply :=
  if negb (String.eqb method "POST")
  then ret {| reply_status := 405; reply_headers := []; reply_body := SendText "POST only" |}
  else
    try_catch
      (match missing_env with
       | _ :: _ => ret missing_env_reply
       | [] =>
           let* token := getAppAccessToken W in
           let* expires_in := lift (js_get token "expires_in") in
           let* n := lift (ToNumber (runtime W) (nullish expires_in (VNum (Fin 3300)))) in
           let maxAge := Math_max (Fin 60) (Math_min n (Fin 3600)) in
           let* tok := lift (js_get token "access_token") in
           let* encoded := lift (encode_value tok) in
           ret {| reply_status := 200;
                  reply_headers := [("Set-Cookie", session_cookie encoded maxAge)];
                  reply_body :=
                    SendJson (VObj [("ok", VBool true);
                                    ("expires_in", nullish expires_in (VNum (Fin 0)))]) |}
       end)
      (fun e => ret (refuse 500 (message e))).

(** [whoami] has no [try]: what [getCookie] throws leaves the handler. *)
Definition whoami (req : IncomingRequest) : Result Reply :=
  let? token := getCookie W req "msf_at" in
  let hasToken := match token with None | Some "" => false | Some _ => true end in
  Ok {| reply_status := 200; reply_headers := [];
        reply_body := SendJson (VObj [("ok", VBool true); ("env", VStr "functions");
                                      ("msfTokenCookie", VBool hasToken)]) |}.

(** [tok.access_token.length] *)
Definition token_length (tok : value) : Result (option value) :=
  let? a := js_get tok "access_token" in
  match a with
  | Some v => js_get v "length"
  | None => Throw (TypeError "Cannot read properties of undefined (reading 'length')")
  end.

Definition tokenDebug : M Reply :=
  if negb in_emulator
  then ret {| reply_status := 404; reply_headers := []; reply_body := SendText "Not found" |}
  else
    try_catch
      (match missing_env with
       | _ :: _ => ret missing_env_reply
       | [] =>
           let* tok := getAppAccessToken W in
           let* expires_in := lift (js_get tok "expires_in") in
           let* token_len := lift (token_length tok) in
           ret {| reply_status := 200; reply_headers := [];
                  reply_body :=
                    SendJson (VObj ([("ok", VBool true)]
                                    ++ opt_field "expires_in" expires_in
                                    ++ opt_field "token_len" token_len)) |}
       end)
      (fun e => ret (refuse 500 (message e))).

(** [await file.exists()] *)
Definition file_exists (path : string) : M bool :=
  fun s =>
    match read_fault H "exists" path with
    | Some e => (Throw e, s)
    | None => (Ok (bool_decide (is_Some (bucket s !! path))), s)
    end.

(** [await file.download()]: the document saved at [path]. *)
Definition download (path : string) : M value :=
  fun s =>
    match read_fault H "download" path with
    | Some e => (Throw e, s)
    | None =>
        match bucket s !! path with
        | Some v => (Ok v, s)
        | None => (Throw (Error ("No such object: " +:+ path)), s)
        end
    end.

Definition datasets (req : DatasetsRequest) : M Reply :=
  try_catch
    (let* name := lift (dataset_name req) in
     if negb (String.eqb name "traits" || String.eqb name "characters")
     then ret (refuse 400 "name must be traits or characters")
     else
       let filePath := "datasets/" +:+ name +:+ ".json" in
       let bucketName :=
         if String.eqb (bucket_name H) "" then "<unknown>" else bucket_name H in
       let* exists_ := file_exists filePath in
       if negb exists_
       then ret (refuse 404 ("Not found: gs://" +:+ bucketName +:+ "/" +:+ filePath))
       else
         let* buf := download filePath in
         ret {| reply_status := 200;
                reply_headers := [("Content-Type", "application/json");
                                  ("Cache-Control", "public, max-age=300")];
                reply_body := SendJson buf |})
    (fun e => ret (refuse 500 (message e))).

End Handlers.

(** ** Vocabulary of the further statements *)

(** The one call [msfProxy] makes for [path] with the caller's [token]. *)
Definition proxy_request (W : World) (path token : string) : Request :=
  {| url := strip_trailing_slash (MSF_API_BASE W) +:+ "/" +:+ path;
     method := "GET";
     headers := [("x-api-key", MSF_X_API_KEY W);
                 ("Authorization", "Bearer " +:+ token);
                 ("User-Agent", "SynergyForge/1.0");
                 ("Accept", "application/json");
                 ("Accept-Language", "en-US,en;q=0.8")];
     body := None |}.

(** What [msfProxy] sends back for the upstream answer [r]. *)
Definition relayed (r : HttpResponse) : Response :=
  {| res_status := status r;
     res_contentType :=
       match contentType r with
       | Some "" | None => None
       | Some ct => Some ct
       end;
     res_body := SendText (text r) |}.

(** Everything of the process but the trace of calls. *)
Definition same_process (s s' : State) : Prop :=
  cachedToken s' = cachedToken s
  /\ clock_reads s' = clock_reads s
  /\ bucket s' = bucket s
  /\ firestore s' = firestore s.

(** A host outside the emulator, with an [encodeURIComponent] that leaves
    its argument as it is and a bucket that can be read. *)
Definition plain_host : Host :=
  {| FUNCTIONS_EMULATOR := None;
     encodeURIComponent := fun s => Some s;
     bucket_name := "forge.appspot.com";
     read_fault := fun _ _ => None |}.

(** The same host inside the emulator. *)
Definition emulator_host : Host :=
  {| FUNCTIONS_EMULATOR := Some "true";
     encodeURIComponent := fun s => Some s;
     bucket_name := "forge.appspot.com";
     read_fault := fun _ _ => None |}.

(** The body of the answer of [whoami]. *)
Definition whoami_reply (hasToken : bool) : Reply :=
  {| reply_status := 200; reply_headers := [];
     reply_body := SendJson (VObj [("ok", VBool true); ("env", VStr "functions");
                                   ("msfTokenCookie", VBool hasToken)]) |}.

(** [lo <= n <= hi] *)
Definition num_between (lo hi n : num) : Prop :=
  num_le lo n = true /\ num_le n hi = true.

(** A network on which every call is answered [500]. *)
Definition out_of_order : list Event -> Request -> Result HttpResponse :=
  fun _ _ => Ok {| status := 500; statusText := "Internal Server Error";
                   contentType := None; text := "oops"; json := None |}.

(** [Some ""] read back as a falsy property. *)
Definition drop_blank (o : option string) : option string :=
  match o with
  | Some "" => None
  | _ => o
  end.

(** A record with its blank optional strings left out. *)
Definition settled (out : Character) : Character :=
  {| out_id := out_id out; out_name := out_name out;
     out_imageUrl := drop_blank (out_imageUrl out);
     out_traits := out_traits out;
     out_faction := drop_blank (out_faction out);
     out_role := drop_blank (out_role out);
     out_stats := out_stats out |}.

(** What [normalize] guarantees of its result beyond the types. *)
Definition well_formed (out : Character) : Prop :=
  out_name out <> VNull
  /\ forall v, out_stats out = Some v -> to_boolean v && is_object v = true.

(** A page of [n] characters that declares the total [t]. *)
Definition page_declaring (n : nat) (t : Z) : value :=
  VObj [("items", VArr (replicate n Mock.raw_character));
        ("meta", VObj [("perTotal", VNum (Fin t))])].

(** Stores on which the [k]-th call fails with [e], the others succeed
    ([k] counted over all the calls of the run, fetches included). *)
Definition failing_at (k : nat) (e : exn) : list Event -> option exn :=
  fun history => if Nat.eqb (length history) k then Some e else None.

(** The world of [Mock.world], with stores that may fail. *)
Definition world_with_stores (net : list Event -> Request -> Result HttpResponse)
    (fault : list Event -> option exn) : World :=
  {| runtime := Mock.rt;
     MSF_CLIENT_ID := "forge";
     MSF_CLIENT_SECRET := "s3cret";
     MSF_TOKEN_URL := "https://hydra.test/oauth2/token";
     MSF_API_BASE := "https://api.test/";
     MSF_X_API_KEY := "k3y";
     Date_now := Mock.ticking;
     fetch := net;
     storage_fault := fault |}.

(** The two saves of [load], as events. *)
Definition save_traits (x : Extracted) : Event :=
  EvSave "datasets/traits.json" (traits x) "application/json".

Definition save_characters (x : Extracted) : Event :=
  EvSave "datasets/characters.json" (characters_document x) "application/json".

(** The answer of [datasets] that carries the document [v]. *)
Definition served (v : value) : Reply :=
  {| reply_status := 200;
     reply_headers := [("Content-Type", "application/json");
                       ("Cache-Control", "public, max-age=300")];
     reply_body := SendJson v |}.

(** The character [c] does not occur in [s]. *)
Fixpoint lacks (c : Ascii.ascii) (s : string) : bool :=
  match s with
  | "" => true
  | String a r => negb (Ascii.eqb a c) && lacks c r
  end.

Fixpoint ends_with_slash (s : string) : bool :=
  match s with
  | "" => false
  | String c "" => Ascii.eqb c "/"%char
  | String _ r => ends_with_slash r
  end.

Definition starts_with_slash (s : string) : bool :=
  match s with
  | String c _ => Ascii.eqb c "/"%char
  | "" => false
  end.

(** The text [k=v] of a cookie. *)
Definition pair_text (kv : string * string) : string := kv.1 +:+ "=" +:+ kv.2.

(** A cookie whose name and value hold no [;] and no [=], and whose name
    does not begin with white space. *)
Definition plain_pair (kv : string * string) : Prop :=
  lacks ";" kv.1 = true /\ lacks "=" kv.1 = true
  /\ lacks ";" kv.2 = true /\ lacks "=" kv.2 = true
  /\ match kv.1 with String c _ => is_space c = false | "" => True end.


(** [s] begins with a character that is not white space. *)
Definition starts_plain (s : string) : bool :=
  match s with
  | String c _ => negb (is_space c)
  | "" => false
  end.

(** What [getCookie] makes of the text of a value. *)
Definition decoded (W : World) (v : option string) : Result (option string) :=
  match v with
  | None => Ok None
  | Some t =>
      match decodeURIComponent (runtime W) t with
      | Some d => Ok (Some d)
      | None => Throw URIError
      end
  end.

(** * The client library *)

(** [src/lib/msf.ts] runs in the browser.  Its calls are kept in the same
    trace; [H] gives the browser's [encodeURIComponent] and [W] its
    [fetch].  Every call is made with [credentials: "include"], which is
    left out of the request. *)

Definition client_request (meth target : string) : Request :=
  {| url := target; method := meth; headers := []; body := None |}.

(** [String(page)], [String(perPage)] and the two constants, as
    [URLSearchParams] writes them. *)
Definition client_characters_path (page perPage : Z) : string :=
  "game/v1/characters?page=" +:+ pretty page +:+ "&perPage=" +:+ pretty perPage
  +:+ "&lang=none&traitFormat=id".

(** [...items]: an array gives its elements and a string its characters;
    nothing else that JSON holds can be iterated. *)
Definition spread (items : value) : Result (list value) :=
  match items with
  | VArr l => Ok l
  | VStr t => Ok ((fun c => VStr (String c "")) <$> String.list_ascii_of_string t)
  | _ => Throw (TypeError "Spread syntax requires ...iterable[Symbol.iterator] to be a function")
  end.

Section Client.

Context (H : Host) (W : World).

(** [await r.json()] *)
Definition read_json (r : HttpResponse) : M value :=
  match json r with
  | Some v => ret v
  | None => throw SyntaxError
  end.

(** The check that [ensureAppToken] makes twice: [fetch("/api/whoami")],
    and whether the answer is [ok] and has a truthy [msfTokenCookie]. *)
Definition cookie_confirmed : M bool :=
  let* w := do_fetch W (client_request "GET" "/api/whoami") in
  if ok w
  then
    let* info := read_json w in
    let* c := lift (js_get info "msfTokenCookie") in
    ret (truthy c)
  else ret false.

Definition ensureAppToken : M unit :=
  let* present := try_catch cookie_confirmed (fun _ => ret false) in
  if present then ret tt
  else
    let* r := do_fetch W (client_request "POST" "/api/oauth/client") in
    if negb (ok r)
    then throw (Error ("/api/oauth/client -> " +:+ pretty (status r)))
    else
      let* present := cookie_confirmed in
      if present then ret tt
      else throw (Error "MSF token cookie not set after oauth").

(** The URL of [call]. *)
Definition call_url (path : string) : Result string :=
  match encodeURIComponent H path with
  | Some enc => Ok ("/api/msf?path=" +:+ enc)
  | None => Throw URIError
  end.

Definition call (path : string) : M value :=
  let* target := lift (call_url path) in
  let* r := do_fetch W (client_request "GET" target) in
  let* r :=
    if status r =? 401
    then let* _ := ensureAppToken in do_fetch W (client_request "GET" target)
    else ret r in
  if negb (ok r)
  then throw (Error (path +:+ " -> " +:+ pretty (status r)))
  else read_json r.

Definition getTraits : M value := call "game/v1/traits?lang=none".

(** The [while] loop of [getAllCharacters], with its three variables;
    [None] means that [fuel] ran out with the loop still going. *)
Fixpoint gather (fuel : nat) (perPage page : Z) (all : list value) (total : value)
    : M (option (list value * Z)) :=
  let* more := lift (lt_value (runtime W) (Fin (len all)) total) in
  if negb more then ret (Some (all, page))
  else
    match fuel with
    | O => ret None
    | S fuel' =>
        let* resp := call (client_characters_path page perPage) in
        let* items := lift (let? i := items_of resp in spread i) in
        let all := all ++ items in
        let* meta := lift (js_get resp "meta") in
        let total :=
          nullish (js_get_opt meta "perTotal")
            (VNum (Fin (if len all <? perPage then len all else len all + perPage))) in
        if len items <? perPage then ret (Some (all, page))
        else
          let page := page + 1 in
          if 200 <? page then ret (Some (all, page))
          else gather fuel' perPage page all total
    end.

(** [getAllCharacters(perPage)], for a whole number [perPage]. *)
Definition getAllCharacters (fuel : nat) (perPage : Z) : M (option value) :=
  let* gathered := gather fuel perPage 1 [] (VNum PosInf) in
  ret ((fun '(all, page) =>
          VObj [("items", VArr all);
                ("meta", VObj [("perTotal", VNum (Fin (len all)));
                               ("perPage", VNum (Fin perPage));
                               ("page", VNum (Fin page))])]) <$> gathered).

End Client.


(** The answer [r] declares the cookie: it is [ok] and its JSON has a
    truthy [msfTokenCookie]. *)
Definition confirms (r : HttpResponse) : Prop :=
  ok r = true
  /\ exists (v : value) (c : option value),
       json r = Some v /\ js_get v "msfTokenCookie" = Ok c /\ truthy c = true.

(** A browser whose answers are the [replies], one after the other, each
    with its status. *)
Definition answering (replies : list (Z * value)) : list Event -> Request -> Result HttpResponse :=
  fun history _ =>
    match replies !! length history with
    | Some (code, v) =>
        Ok {| status := code; statusText := ""; contentType := Some "application/json";
              text := "(json)"; json := Some v |}
    | None => Throw (TypeError "Failed to fetch")
    end.

Definition whoami_check : Request := client_request "GET" "/api/whoami".

Definition token_post : Request := client_request "POST" "/api/oauth/client".

(** The JSON that [whoami] sends. *)
Definition whoami_body (hasToken : bool) : value :=
  VObj [("ok", VBool true); ("env", VStr "functions"); ("msfTokenCookie", VBool hasToken)].

(** * Properties *)

(** ** The normaliser *)

Lemma ToString_stringifiable (v : value) :
  stringifiable v = true -> exists s, ToString v = Ok s.
Proof.
  induction v as [| b | n | s | elems IH | fields _] using value_nested_ind;
    simpl; intros Hs; eauto.
  - induction IH as [| x r Hx _ IHr]; [eauto |].
    simpl in Hs. apply andb_prop in Hs as [Hx' Hr'].
    destruct (IHr Hr') as [b Hb].
    assert (exists a, match x with VNull => Ok "" | _ => ToString x end = Ok a) as [a Ha].
    { destruct x; eauto. }
    rewrite Ha. simpl. destruct r as [| y r']; [eauto |].
    rewrite Hb. simpl. eauto.
  - destruct (has_own "toString" fields); [discriminate | eauto].
Qed.

Lemma ToString_not_stringifiable (v : value) :
  stringifiable v = false -> ToString v = Throw cannot_convert.
Proof.
  induction v as [| b | n | s | elems IH | fields _] using value_nested_ind;
    simpl; intros Hs; try discriminate.
  - induction IH as [| x r Hx _ IHr]; [discriminate |].
    simpl in Hs. apply andb_false_iff in Hs as [Hx' | Hr'].
    + assert (match x with VNull => Ok "" | _ => ToString x end = Throw cannot_convert) as ->.
      { destruct x; try discriminate; auto. }
      reflexivity.
    + destruct (stringifiable x) eqn:Ex.
      * destruct (ToString_stringifiable x Ex) as [a Ha].
        assert (match x with VNull => Ok "" | _ => ToString x end = Ok
                  (match x with VNull => "" | _ => a end)) as ->.
        { destruct x; auto. }
        simpl. destruct r as [| y r']; [discriminate |].
        rewrite (IHr Hr'). reflexivity.
      * assert (match x with VNull => Ok "" | _ => ToString x end = Throw cannot_convert) as ->.
        { destruct x; try discriminate; auto. }
        reflexivity.
  - destruct (has_own "toString" fields); [reflexivity | discriminate].
Qed.

Lemma js_get_non_null (c : value) (k : string) :
  c <> VNull -> js_get c k = Ok (prop c k).
Proof. destruct c; simpl; congruence. Qed.

Lemma normalizable_non_null (c : value) :
  normalizable c = true -> c <> VNull.
Proof. intros H ->. discriminate. Qed.

Lemma stringifiable_nullish (o : option value) (d : value) :
  convertible o = true -> stringifiable d = true ->
  stringifiable (nullish o d) = true.
Proof. destruct o as [[]|]; simpl; auto. Qed.

Lemma string_if_truthy_convertible (o : option value) :
  convertible o = true -> exists r, string_if_truthy o = Ok r.
Proof.
  destruct o as [v|]; simpl; [| eauto]. intros Hv.
  destruct (to_boolean v); [| eauto].
  destruct (ToString_stringifiable v Hv) as [s ->]. simpl. eauto.
Qed.

Lemma string_if_truthy_not_convertible (o : option value) :
  convertible o = false -> string_if_truthy o = Throw cannot_convert.
Proof.
  destruct o as [v|]; simpl; [| discriminate]. intros Hv.
  rewrite (ToString_not_stringifiable v Hv).
  destruct v; try discriminate; reflexivity.
Qed.

Lemma mapR_ToString_stringifiable (ts : list value) :
  forallb stringifiable ts = true -> exists l, mapR ToString ts = Ok l.
Proof.
  induction ts as [| t ts IH]; simpl; [eauto |].
  intros [Ht Hts]%andb_prop.
  destruct (ToString_stringifiable t Ht) as [s ->].
  destruct (IH Hts) as [l ->]. simpl. eauto.
Qed.

Lemma mapR_ToString_not_stringifiable (ts : list value) :
  forallb stringifiable ts = false -> mapR ToString ts = Throw cannot_convert.
Proof.
  induction ts as [| t ts IH]; simpl; [discriminate |].
  intros [Ht | Hts]%andb_false_iff.
  - rewrite (ToString_not_stringifiable t Ht). reflexivity.
  - destruct (stringifiable t) eqn:Et.
    + destruct (ToString_stringifiable t Et) as [a ->]. rewrite (IH Hts). reflexivity.
    + rewrite (ToString_not_stringifiable t Et). reflexivity.
Qed.

(** [normalize] throws on exactly the records that are not [normalizable]. *)
Lemma normalize_throws (c : value) :
  normalizable c = false -> exists e, normalize c = Throw e.
Proof.
  intros Hc. unfold normalize.
  assert (c = VNull \/ c <> VNull) as [-> | Hnn]
    by (destruct c; auto; right; discriminate).
  { simpl. eauto. }
  rewrite !(js_get_non_null c) by assumption. simpl.
  assert (normalizable c =
            convertible (prop c "id") && convertible (prop c "imageUrl")
            && match prop c "traits" with
               | Some (VArr ts) => forallb stringifiable ts
               | _ => true
               end
            && convertible (prop c "faction") && convertible (prop c "role")) as E
      by (destruct c; try reflexivity; congruence).
  rewrite E in Hc. clear E.
  destruct (convertible (prop c "id")) eqn:Eid; simpl in Hc.
  2:{ assert (stringifiable (nullish (prop c "id") (VStr "")) = false) as Hs
        by (destruct (prop c "id") as [[]|]; simpl in *; congruence).
      rewrite (ToString_not_stringifiable _ Hs). simpl. eauto. }
  destruct (ToString_stringifiable (nullish (prop c "id") (VStr ""))) as [id ->];
    [apply stringifiable_nullish; auto |]. simpl.
  destruct (convertible (prop c "imageUrl")) eqn:Eim; simpl in Hc.
  2:{ rewrite (string_if_truthy_not_convertible _ Eim). simpl. eauto. }
  destruct (string_if_truthy_convertible _ Eim) as [im ->]. simpl.
  destruct (match prop c "traits" with
            | Some (VArr ts) => forallb stringifiable ts
            | _ => true
            end) eqn:Etr; simpl in Hc.
  2:{ destruct (prop c "traits") as [[]|]; try discriminate.
      rewrite (mapR_ToString_not_stringifiable _ Etr). simpl. eauto. }
  assert (exists l, match prop c "traits" with
                    | Some (VArr ts) => mapR ToString ts
                    | _ => Ok []
                    end = Ok l) as [l ->].
  { destruct (prop c "traits") as [[]|]; eauto using mapR_ToString_stringifiable. }
  simpl.
  destruct (convertible (prop c "faction")) eqn:Efa; simpl in Hc.
  2:{ rewrite (string_if_truthy_not_convertible _ Efa). simpl. eauto. }
  destruct (string_if_truthy_convertible _ Efa) as [fa ->]. simpl.
  rewrite (string_if_truthy_not_convertible _ Hc). simpl. eauto.
Qed.

(** C1 (as amended).  Every record other than [null] whose converted
    properties ([id], [imageUrl], [faction], [role], the elements of
    [traits]) reach no object with an own [toString] is normalised without
    an exception.  The result has a string [id] and a sequence of strings as
    [traits] (by the type of [Character]); its [name] is the raw [name]
    as it came, [""] when that is absent or [null], and so a string exactly
    when the raw [name] is a string, absent or [null]. *)
Theorem normalize_total_on_normalizable (c : value) :
  normalizable c = true ->
  exists out : Character,
    normalize c = Ok out
    /\ out_name out = nullish (prop c "name") (VStr "")
    /\ (is_string (out_name out) <->
        match prop c "name" with
        | None | Some VNull | Some (VStr _) => True
        | Some _ => False
        end).
Proof.
  intros Hc. pose proof (normalizable_non_null c Hc) as Hnn.
  unfold normalize. rewrite !(js_get_non_null c) by assumption. simpl.
  assert (convertible (prop c "id") = true
          /\ convertible (prop c "imageUrl") = true
          /\ match prop c "traits" with
             | Some (VArr ts) => forallb stringifiable ts
             | _ => true
             end = true
          /\ convertible (prop c "faction") = true
          /\ convertible (prop c "role") = true) as (Hid & Him & Htr & Hfa & Hro).
  { destruct c; try congruence; simpl in Hc;
      repeat (apply andb_prop in Hc as [Hc ?]); auto. }
  destruct (ToString_stringifiable (nullish (prop c "id") (VStr ""))) as [id ->];
    [apply stringifiable_nullish; auto |]. simpl.
  destruct (string_if_truthy_convertible _ Him) as [im ->]. simpl.
  assert (exists l, match prop c "traits" with
                    | Some (VArr ts) => mapR ToString ts
                    | _ => Ok []
                    end = Ok l) as [l ->].
  { destruct (prop c "traits") as [[]|]; eauto using mapR_ToString_stringifiable. }
  simpl.
  destruct (string_if_truthy_convertible _ Hfa) as [fa ->]. simpl.
  destruct (string_if_truthy_convertible _ Hro) as [ro ->]. simpl.
  eexists. split; [reflexivity |]. simpl. split; [reflexivity |].
  destruct (prop c "name") as [[]|]; simpl; tauto.
Qed.

Lemma normalize_total_on_normalizable_witness :
  normalizable (VObj [("id", VNum (Fin 7)); ("name", VStr "Hulk");
                      ("traits", VArr [VStr "Hero"; VNum (Fin 3)])]) = true
  /\ exists out : Character,
    normalize (VObj [("id", VNum (Fin 7)); ("name", VStr "Hulk");
                     ("traits", VArr [VStr "Hero"; VNum (Fin 3)])]) = Ok out
    /\ out_name out = VStr "Hulk"
    /\ (is_string (out_name out) <-> True).
Proof.
  split; [reflexivity |].
  apply (normalize_total_on_normalizable
           (VObj [("id", VNum (Fin 7)); ("name", VStr "Hulk");
                  ("traits", VArr [VStr "Hero"; VNum (Fin 3)])])).
  reflexivity.
Defined.

(** C1 (as stated) fails: [null] makes the normaliser throw, a numeric
    [name] is passed on as a number, and an [id] that is an object with an
    own [toString] makes the conversion throw. *)
Lemma normalize_not_total_counterexample :
  normalize VNull
    = Throw (TypeError "Cannot read properties of null (reading 'id')")
  /\ normalize (VObj [("id", VStr "x1"); ("name", VNum (Fin 7))])
     = Ok {| out_id := "x1"; out_name := VNum (Fin 7); out_imageUrl := None;
             out_traits := []; out_faction := None; out_role := None;
             out_stats := None |}
  /\ ~ is_string (VNum (Fin 7))
  /\ normalize (VObj [("id", VObj [("toString", VNum (Fin 1))])])
     = Throw cannot_convert.
Proof. repeat split; auto. Qed.

(** ** The token cache *)

Lemma getAppAccessToken_cached (W : World) (s : State) (c : CachedToken) :
  cachedToken s = Some c -> cache_fresh W s = true ->
  getAppAccessToken W s
  = (Ok (cached_answer c (Date_now W (S (clock_reads s)))), tick (tick s)).
Proof.
  unfold cache_fresh, getAppAccessToken, bind, get_cachedToken, now.
  intros -> Hf. cbn [clock_reads]. rewrite Hf. reflexivity.
Qed.

Lemma getAppAccessToken_refresh (W : World) (s : State) :
  cache_fresh W s = false ->
  getAppAccessToken W s
  = refresh_token W (match cachedToken s with Some _ => tick s | None => s end).
Proof.
  unfold cache_fresh, getAppAccessToken, bind, get_cachedToken, now.
  destruct (cachedToken s) as [c|]; [| reflexivity].
  intros ->. reflexivity.
Qed.

Lemma Math_max_60 (x : num) :
  x <> NaN -> num_le (Fin 60) (Math_max (Fin 60) x) = true.
Proof.
  destruct x; simpl; try congruence; intros _; auto.
  apply Z.leb_le. lia.
Qed.

Lemma fresh_not_NaN (t t' : Z) (e : num) :
  num_lt (Fin t) (num_sub e (Fin 60000)) = true ->
  floor_div (num_sub e (Fin t')) 1000 <> NaN.
Proof. destruct e; simpl; congruence. Qed.

(** [refresh_token], outcome by outcome. *)
Lemma refresh_token_cases (W : World) (s : State) :
  refresh_token W s =
  let s1 := log_event (EvFetch (token_request W)) s in
  match fetch W (trace s) (token_request W) with
  | Throw e => (Throw e, s1)
  | Ok r =>
      if negb (ok r) then (Throw (Error ("Hydra token error " +:+ pretty (status r))), s1)
      else match json r with
           | None => (Throw (Error "Hydra token parse error"), s1)
           | Some j =>
               let tok := js_get_opt (Some j) "access_token" in
               let exp := js_get_opt (Some j) "expires_in" in
               if negb (truthy tok) || negb (truthy exp)
               then (Throw (Error "Hydra token missing fields"), s1)
               else match ToNumber (runtime W) (nullish exp VNull) with
                    | Throw e => (Throw e, tick s1)
                    | Ok n => (Ok j, refreshed W s (nullish tok VNull) n)
                    end
           end
  end.
Proof.
  unfold refresh_token, bind, do_fetch, throw, ret, lift, now, set_cachedToken.
  destruct (fetch W (trace s) (token_request W)) as [r | e]; [| reflexivity].
  cbv zeta. destruct (negb (ok r)); [reflexivity |].
  destruct (json r) as [j |]; [| reflexivity].
  destruct (negb (truthy (js_get_opt (Some j) "access_token"))
            || negb (truthy (js_get_opt (Some j) "expires_in"))); [reflexivity |].
  destruct (ToNumber (runtime W) (nullish (js_get_opt (Some j) "expires_in") VNull));
    reflexivity.
Qed.

(** Every refresh makes exactly one call, to the token endpoint. *)
Lemma refresh_token_trace (W : World) (s : State) :
  trace (refresh_token W s).2 = trace s ++ [EvFetch (token_request W)].
Proof.
  rewrite refresh_token_cases. cbv zeta.
  destruct (fetch W (trace s) (token_request W)) as [r | e]; [| reflexivity].
  destruct (negb (ok r)); [reflexivity |].
  destruct (json r) as [j |]; [| reflexivity].
  destruct (negb _ || negb _); [reflexivity |].
  destruct (ToNumber _ _); reflexivity.
Qed.

(** A refresh that returns, returns the decoded answer of the endpoint. *)
Lemma refresh_token_returns (W : World) (s s' : State) (v : value) :
  refresh_token W s = (Ok v, s') ->
  exists r, fetch W (trace s) (token_request W) = Ok r
            /\ ok r = true /\ json r = Some v
            /\ truthy (js_get_opt (Some v) "access_token") = true
            /\ truthy (js_get_opt (Some v) "expires_in") = true.
Proof.
  rewrite refresh_token_cases. cbv zeta.
  destruct (fetch W (trace s) (token_request W)) as [r | e]; [| discriminate].
  destruct (ok r) eqn:Hok; [| discriminate]. cbn [negb].
  destruct (json r) as [j |] eqn:Hj; [| discriminate].
  destruct (truthy (js_get_opt (Some j) "access_token")) eqn:Ht;
    [| cbn [negb orb]; discriminate].
  destruct (truthy (js_get_opt (Some j) "expires_in")) eqn:He;
    [| cbn [negb orb]; discriminate].
  cbn [negb orb].
  destruct (ToNumber _ _); [| discriminate].
  intros [= <- <-]. exists r. repeat split; assumption || reflexivity.
Qed.

(** C2 (as amended).  Whatever the state the earlier calls have left, a
    call that returns either was answered from the cache, without a network
    call, and then reports an [expires_in] of at least 60; or it went to the
    token endpoint once and returns the decoded answer itself, its
    [expires_in] as the endpoint sent it. *)
Theorem getAppAccessToken_expires_in (W : World) (s s' : State) (v : value) :
  getAppAccessToken W s = (Ok v, s') ->
  (exists (c : CachedToken) (e : num),
      cachedToken s = Some c
      /\ trace s' = trace s
      /\ v = VObj [("access_token", access_token c); ("expires_in", VNum e)]
      /\ num_le (Fin 60) e = true)
  \/ (exists r : HttpResponse,
         fetch W (trace s) (token_request W) = Ok r
         /\ json r = Some v
         /\ trace s' = trace s ++ [EvFetch (token_request W)]).
Proof.
  destruct (cache_fresh W s) eqn:Hf.
  - unfold cache_fresh in Hf. destruct (cachedToken s) as [c|] eqn:Hc; [| discriminate].
    rewrite (getAppAccessToken_cached W s c Hc) by (unfold cache_fresh; rewrite Hc; exact Hf).
    intros [= <- <-]. left. eexists c, _.
    split; [reflexivity |]. split; [reflexivity |]. split; [reflexivity |].
    apply Math_max_60. eapply fresh_not_NaN. exact Hf.
  - rewrite (getAppAccessToken_refresh W s Hf). intros Hr. right.
    pose proof (refresh_token_trace W (match cachedToken s with Some _ => tick s | None => s end)) as Ht.
    rewrite Hr in Ht. simpl in Ht.
    apply refresh_token_returns in Hr as (r & Hr & _ & Hj & _).
    exists r. destruct (cachedToken s); auto.
Qed.

Lemma getAppAccessToken_expires_in_witness :
  getAppAccessToken (Mock.world "s3cret" Mock.ticking (Mock.granting "abc" 3600))
                    (Mock.warm "abc" 3600000)
  = (Ok (Mock.grant "abc" 3599), tick (tick (Mock.warm "abc" 3600000)))
  /\ num_le (Fin 60) (Fin 3599) = true.
Proof.
  split; [reflexivity |].
  destruct (getAppAccessToken_expires_in
              (Mock.world "s3cret" Mock.ticking (Mock.granting "abc" 3600))
              (Mock.warm "abc" 3600000) (tick (tick (Mock.warm "abc" 3600000)))
              (Mock.grant "abc" 3599) eq_refl)
    as [(c & e & Hc & _ & Hv & He) | (r & _ & _ & Ht)].
  - injection Hv as _ <-. exact He.
  - reflexivity.
Defined.

(** C2 (as stated) fails on the fresh path: an endpoint that grants a
    token for 30 seconds is answered to the caller with [expires_in = 30]. *)
Lemma fresh_token_below_60_counterexample :
  (getAppAccessToken (Mock.world "s3cret" Mock.ticking (Mock.granting "abc" 30)) Mock.cold).1
  = Ok (VObj [("access_token", VStr "abc"); ("expires_in", VNum (Fin 30))])
  /\ num_lt (Fin 30) (Fin 60) = true.
Proof. split; reflexivity. Qed.

Lemma ToString_throws (v : value) (e : exn) :
  ToString v = Throw e -> e = cannot_convert.
Proof.
  destruct (stringifiable v) eqn:Hs.
  - destruct (ToString_stringifiable v Hs) as [s ->]. discriminate.
  - rewrite (ToString_not_stringifiable v Hs). congruence.
Qed.

Lemma ToNumber_throws (rt : Runtime) (v : value) (e : exn) :
  ToNumber rt v = Throw e -> e = cannot_convert.
Proof.
  destruct v; cbn [ToNumber]; try discriminate; unfold bindR.
  - destruct (ToString (VArr elems)) eqn:E; [discriminate |].
    intros [= <-]. eapply ToString_throws; eassumption.
  - destruct (ToString (VObj fields)) eqn:E; [discriminate |].
    intros [= <-]. eapply ToString_throws; eassumption.
Qed.

(** C4 (as amended).  When the cache is passed over and the endpoint
    answers with a success status and a body that decodes to [j], the call
    fails with "Hydra token missing fields" exactly when [j.access_token] or
    [j.expires_in] is falsy (absent, [null], [false], [0], [NaN] or [""]).
    In particular a non-empty token with a positive duration is accepted,
    and [j] is returned. *)
Theorem getAppAccessToken_shape_check (W : World) (s : State)
    (r : HttpResponse) (j : value) :
  cache_fresh W s = false ->
  fetch W (trace s) (token_request W) = Ok r ->
  ok r = true ->
  json r = Some j ->
  ((getAppAccessToken W s).1 = Throw (Error "Hydra token missing fields")
   <-> truthy (js_get_opt (Some j) "access_token") = false
       \/ truthy (js_get_opt (Some j) "expires_in") = false)
  /\ (forall (a : string) (z : Z),
         js_get_opt (Some j) "access_token" = Some (VStr a) -> a <> "" ->
         js_get_opt (Some j) "expires_in" = Some (VNum (Fin z)) -> 0 < z ->
         (getAppAccessToken W s).1 = Ok j).
Proof.
  intros Hf Hr Hok Hj. rewrite (getAppAccessToken_refresh W s Hf).
  rewrite refresh_token_cases. cbv zeta.
  assert (trace (match cachedToken s with Some _ => tick s | None => s end) = trace s)
    as -> by (destruct (cachedToken s); reflexivity).
  rewrite Hr, Hok, Hj. cbn [negb]. split.
  - destruct (truthy (js_get_opt (Some j) "access_token")); cbn [negb orb];
      [| split; auto].
    destruct (truthy (js_get_opt (Some j) "expires_in")); cbn [negb orb];
      [| split; auto].
    destruct (ToNumber (runtime W) _) eqn:En; cbn [fst].
    + split; [discriminate | intros [|]; discriminate].
    + apply ToNumber_throws in En as ->.
      split; [discriminate | intros [|]; discriminate].
  - intros a z -> Ha -> Hz. cbn [truthy to_boolean nullish ToNumber].
    apply String.eqb_neq in Ha as ->.
    assert ((z =? 0) = false) as -> by lia. reflexivity.
Qed.

Lemma getAppAccessToken_shape_check_witness :
  (getAppAccessToken
     (Mock.world "s3cret" Mock.ticking (Mock.granting "abc" 1800)) Mock.cold).1
  = Ok (Mock.grant "abc" 1800).
Proof.
  refine (proj2 (getAppAccessToken_shape_check
                   (Mock.world "s3cret" Mock.ticking (Mock.granting "abc" 1800))
                   Mock.cold (Mock.json_reply (Mock.grant "abc" 1800))
                   (Mock.grant "abc" 1800) eq_refl eq_refl eq_refl eq_refl)
                "abc" 1800 eq_refl _ eq_refl _).
  - discriminate.
  - lia.
Defined.

(** C4 (as stated) fails: a negative [expires_in] is truthy, so the answer
    [{ access_token: "abc", expires_in: -5 }] passes the check and is
    returned. *)
Lemma negative_expiry_accepted_counterexample :
  (getAppAccessToken
     (Mock.world "s3cret" Mock.ticking (Mock.granting "abc" (-5))) Mock.cold).1
  = Ok (VObj [("access_token", VStr "abc"); ("expires_in", VNum (Fin (-5)))]).
Proof. reflexivity. Qed.

(** While the token has more than a minute left, the remaining lifetime
    is the plain quotient: the floor at 60 does not bite. *)
Lemma remaining_lifetime (e t : Z) :
  t + 60000 <= e ->
  Math_max (Fin 60) (floor_div (num_sub (Fin e) (Fin t)) 1000)
  = Fin (Z.max 60 ((e - t) / 1000))
  /\ Z.max 60 ((e - t) / 1000) = (e - t) / 1000.
Proof.
  intros Ht. simpl. replace (e + - t) with (e - t) by lia.
  split; [reflexivity |]. apply Z.max_r.
  assert (60 <= (e - t) / 1000) by (apply Z.div_le_lower_bound; lia).
  lia.
Qed.

Lemma fresh_with_a_minute_left (e t : Z) :
  t + 60000 < e ->
  num_lt (Fin t) (num_sub (Fin e) (Fin 60000)) = true.
Proof. intros Ht. simpl. apply Z.ltb_lt. lia. Qed.

(** A warm cache serves both calls: no event is added to the trace. *)
Lemma two_calls_warm (W : World) (s : State) (c : CachedToken) (t0 : Z) :
  (forall k, t0 <= Date_now W k <= t0 + 60000) ->
  cachedToken s = Some c ->
  expiresAt c = Fin (t0 + 3600000) ->
  two_calls W s
  = (Ok (cached_answer c (Date_now W (1 + clock_reads s)),
         cached_answer c (Date_now W (3 + clock_reads s))),
     tick (tick (tick (tick s)))).
Proof.
  intros Hclock Hc He. unfold two_calls, bind.
  rewrite (getAppAccessToken_cached W s c Hc).
  2:{ unfold cache_fresh. rewrite Hc, He. apply fresh_with_a_minute_left.
      specialize (Hclock (clock_reads s)). lia. }
  rewrite (getAppAccessToken_cached W (tick (tick s)) c Hc).
  2:{ unfold cache_fresh. cbn [tick cachedToken clock_reads]. rewrite Hc, He.
      apply fresh_with_a_minute_left.
      specialize (Hclock (S (S (clock_reads s)))). lia. }
  reflexivity.
Qed.

(** From an empty cache the first call fetches a one-hour token and the
    second is served from the cache. *)
Lemma two_calls_cold (W : World) (s : State) (t0 : Z)
    (r : HttpResponse) (j tok : value) :
  (forall k, t0 <= Date_now W k <= t0 + 60000) ->
  cachedToken s = None ->
  fetch W (trace s) (token_request W) = Ok r ->
  ok r = true ->
  json r = Some j ->
  js_get_opt (Some j) "access_token" = Some tok ->
  to_boolean tok = true ->
  js_get_opt (Some j) "expires_in" = Some (VNum (Fin 3600)) ->
  two_calls W s
  = (Ok (j, cached_answer
              {| access_token := tok;
                 expiresAt := Fin (Date_now W (clock_reads s) + 3600000) |}
              (Date_now W (2 + clock_reads s))),
     tick (tick (refreshed W s tok (Fin 3600)))).
Proof.
  intros Hclock Hc Hr Hok Hj Htok Htruthy Hexp.
  assert (nullish (Some tok) VNull = tok) as Hnn
      by (destruct tok; try reflexivity; discriminate).
  assert (getAppAccessToken W s = (Ok j, refreshed W s tok (Fin 3600))) as H1.
  { rewrite getAppAccessToken_refresh by (unfold cache_fresh; rewrite Hc; reflexivity).
    rewrite Hc, refresh_token_cases. cbv zeta.
    rewrite Hr, Hok, Hj, Htok, Hexp. cbn [negb truthy]. rewrite Htruthy, Hnn.
    reflexivity. }
  unfold two_calls, bind. rewrite H1.
  erewrite getAppAccessToken_cached; [reflexivity | reflexivity |].
  unfold cache_fresh. cbn [refreshed cachedToken expiresAt clock_reads num_mul num_add].
  replace (3600 * 1000) with 3600000 by reflexivity.
  apply fresh_with_a_minute_left.
  pose proof (Hclock (clock_reads s)). pose proof (Hclock (S (clock_reads s))). lia.
Qed.

(** C5 (as amended).  All readings of the clock fall within one minute
    from [t0].
    - If the cache already holds a token that expires at [t0 + 3600 s],
      two calls make no network call at all, and each returns the cached
      token with [expires_in = max(60, floor((expiresAt - now) / 1000))],
      [now] being the second reading of the clock in that call.
    - If the cache is empty and the endpoint grants a token for 3600
      seconds, the first call makes the one network call and returns the
      endpoint's answer; the second returns the cached token in the same
      way. *)
Theorem token_reuse_within_a_minute (W : World) (s : State) (t0 : Z) :
  (forall k, t0 <= Date_now W k <= t0 + 60000) ->
  (forall c : CachedToken,
      cachedToken s = Some c -> expiresAt c = Fin (t0 + 3600000) ->
      exists s' : State,
        two_calls W s
        = (Ok (reported (access_token c) (t0 + 3600000) (Date_now W (1 + clock_reads s)),
               reported (access_token c) (t0 + 3600000) (Date_now W (3 + clock_reads s))),
           s')
        /\ trace s' = trace s)
  /\ (forall (r : HttpResponse) (j tok : value),
         cachedToken s = None ->
         fetch W (trace s) (token_request W) = Ok r ->
         ok r = true ->
         json r = Some j ->
         js_get_opt (Some j) "access_token" = Some tok ->
         to_boolean tok = true ->
         js_get_opt (Some j) "expires_in" = Some (VNum (Fin 3600)) ->
         exists s' : State,
           two_calls W s
           = (Ok (j, reported tok (Date_now W (clock_reads s) + 3600000)
                       (Date_now W (2 + clock_reads s))),
              s')
           /\ trace s' = trace s ++ [EvFetch (token_request W)]).
Proof.
  intros Hclock. split.
  - intros c Hc He.
    eexists. rewrite (two_calls_warm W s c t0 Hclock Hc He).
    unfold cached_answer, reported. rewrite He.
    destruct (remaining_lifetime (t0 + 3600000) (Date_now W (1 + clock_reads s)))
      as [-> _]; [specialize (Hclock (1 + clock_reads s)%nat); lia |].
    destruct (remaining_lifetime (t0 + 3600000) (Date_now W (3 + clock_reads s)))
      as [-> _]; [specialize (Hclock (3 + clock_reads s)%nat); lia |].
    split; reflexivity.
  - intros r j tok Hc Hr Hok Hj Htok Htruthy Hexp.
    eexists. rewrite (two_calls_cold W s t0 r j tok) by assumption.
    unfold cached_answer, reported. cbn [access_token expiresAt].
    destruct (remaining_lifetime (Date_now W (clock_reads s) + 3600000)
                (Date_now W (2 + clock_reads s))) as [-> _].
    { pose proof (Hclock (clock_reads s)).
      pose proof (Hclock (2 + clock_reads s)%nat). lia. }
    split; reflexivity.
Qed.

Lemma token_reuse_within_a_minute_witness :
  (forall k, 0 <= Mock.first_minute k <= 0 + 60000)
  /\ (exists s',
         two_calls (Mock.world "s3cret" Mock.first_minute (Mock.granting "abc" 3600))
                   (Mock.warm "abc" 3600000)
         = (Ok (reported (VStr "abc") 3600000 1000, reported (VStr "abc") 3600000 3000), s')
         /\ trace s' = [])
  /\ (exists s',
         two_calls (Mock.world "s3cret" Mock.first_minute (Mock.granting "abc" 3600))
                   Mock.cold
         = (Ok (Mock.grant "abc" 3600, reported (VStr "abc") 3600000 2000), s')
         /\ trace s'
            = [EvFetch (token_request
                          (Mock.world "s3cret" Mock.first_minute (Mock.granting "abc" 3600)))]).
Proof.
  assert (forall k, 0 <= Mock.first_minute k <= 0 + 60000) as Hclock
      by (intros k; unfold Mock.first_minute; lia).
  split; [exact Hclock |].
  destruct (token_reuse_within_a_minute
              (Mock.world "s3cret" Mock.first_minute (Mock.granting "abc" 3600))
              (Mock.warm "abc" 3600000) 0 Hclock) as [Hwarm _].
  destruct (token_reuse_within_a_minute
              (Mock.world "s3cret" Mock.first_minute (Mock.granting "abc" 3600))
              Mock.cold 0 Hclock) as [_ Hcold].
  split.
  - exact (Hwarm {| access_token := VStr "abc"; expiresAt := Fin 3600000 |}
             eq_refl eq_refl).
  - exact (Hcold (Mock.json_reply (Mock.grant "abc" 3600)) (Mock.grant "abc" 3600)
             (VStr "abc") eq_refl eq_refl eq_refl eq_refl eq_refl eq_refl eq_refl).
Defined.

(** C5 (as stated) fails: with the token already in the cache, two calls
    within the minute make no network call, not one. *)
Lemma warm_cache_no_network_counterexample :
  cachedToken (Mock.warm "abc" 3600000)
  = Some {| access_token := VStr "abc"; expiresAt := Fin (0 + 3600000) |}
  /\ (two_calls (Mock.world "s3cret" Mock.ticking (Mock.granting "abc" 3600))
                (Mock.warm "abc" 3600000)).1
     = Ok (reported (VStr "abc") 3600000 1000, reported (VStr "abc") 3600000 3000)
  /\ trace (two_calls (Mock.world "s3cret" Mock.ticking (Mock.granting "abc" 3600))
                      (Mock.warm "abc" 3600000)).2
     = []
  /\ length (trace (two_calls (Mock.world "s3cret" Mock.ticking (Mock.granting "abc" 3600))
                              (Mock.warm "abc" 3600000)).2) <> 1%nat.
Proof. repeat split; discriminate. Qed.

(** ** The token request *)

(** C6.  Whenever [getAppAccessToken] passes over the cache it makes one
    call, and in that request: with an empty client secret there is no
    [Authorization] header and the form carries [client_id] and
    [client_secret]; with both the client id and the secret configured
    there is a [Basic] [Authorization] header and the form carries only
    [grant_type] and [scope]. *)
Theorem token_request_credentials (W : World) (s : State) :
  cache_fresh W s = false ->
  exists rq : Request,
    trace (getAppAccessToken W s).2 = trace s ++ [EvFetch rq]
    /\ (MSF_CLIENT_SECRET W = "" ->
        assoc "Authorization" (headers rq) = None
        /\ body rq = Some [("grant_type", "client_credentials"); ("scope", "openid");
                           ("client_id", MSF_CLIENT_ID W); ("client_secret", "")])
    /\ (MSF_CLIENT_ID W <> "" -> MSF_CLIENT_SECRET W <> "" ->
        assoc "Authorization" (headers rq)
        = Some ("Basic " +:+ base64 (runtime W)
                               (MSF_CLIENT_ID W +:+ ":" +:+ MSF_CLIENT_SECRET W))
        /\ body rq = Some [("grant_type", "client_credentials"); ("scope", "openid")]).
Proof.
  intros Hf. exists (token_request W). split.
  - rewrite (getAppAccessToken_refresh W s Hf), refresh_token_trace.
    destruct (cachedToken s); reflexivity.
  - unfold token_request. split.
    + intros ->. rewrite Bool.andb_false_r. split; reflexivity.
    + intros Hid%String.eqb_neq Hsecret%String.eqb_neq.
      rewrite Hid, Hsecret. split; reflexivity.
Qed.

Lemma token_request_credentials_witness :
  (exists rq,
      trace (getAppAccessToken
               (Mock.world "" Mock.ticking (Mock.granting "abc" 3600)) Mock.cold).2
      = [EvFetch rq]
      /\ assoc "Authorization" (headers rq) = None
      /\ body rq = Some [("grant_type", "client_credentials"); ("scope", "openid");
                         ("client_id", "forge"); ("client_secret", "")])
  /\ (exists rq,
         trace (getAppAccessToken
                  (Mock.world "s3cret" Mock.ticking (Mock.granting "abc" 3600)) Mock.cold).2
         = [EvFetch rq]
         /\ assoc "Authorization" (headers rq) = Some "Basic forge:s3cret"
         /\ body rq = Some [("grant_type", "client_credentials"); ("scope", "openid")]).
Proof.
  split.
  - destruct (token_request_credentials
                (Mock.world "" Mock.ticking (Mock.granting "abc" 3600)) Mock.cold eq_refl)
      as (rq & Ht & Hempty & _).
    exists rq. split; [exact Ht |]. exact (Hempty eq_refl).
  - destruct (token_request_credentials
                (Mock.world "s3cret" Mock.ticking (Mock.granting "abc" 3600)) Mock.cold eq_refl)
      as (rq & Ht & _ & Hboth).
    exists rq. split; [exact Ht |]. apply Hboth; discriminate.
Defined.

(** ** The proxy *)

Example split_semicolons_example :
  split_semicolons false "theme=dark;  msf_at=tok;lang" = ["theme=dark"; "msf_at=tok"; "lang"].
Proof. reflexivity. Qed.

Example key_value_example :
  key_value "msf_at=tok=1" = ("msf_at", Some "tok") /\ key_value "lang" = ("lang", None).
Proof. split; reflexivity. Qed.

Example getCookie_example :
  getCookie (Mock.world "s3cret" Mock.ticking (Mock.granting "abc" 3600))
            {| query_path := None; cookie := Some "theme=dark; msf_at=tok" |} "msf_at"
  = Ok (Some "tok").
Proof. reflexivity. Qed.

(** The cookie is absent when no part of the header has its name as key. *)
Lemma find_cookie_absent (W : World) (name : string) (parts : list string) :
  Forall (fun part => (key_value part).1 <> name) parts ->
  find_cookie W name parts = Ok None.
Proof.
  induction 1 as [| part parts Hpart _ IH]; [reflexivity |].
  cbn [find_cookie]. destruct (key_value part) as [k v]. cbn [fst] in Hpart.
  apply String.eqb_neq in Hpart as ->. exact IH.
Qed.

(** With the token in the cookie the request goes upstream, once, and the
    answer is relayed as it came. *)
Example msfProxy_forwards :
  msfProxy (Mock.world "s3cret" Mock.ticking (Mock.scripted [fast_traits]))
           {| query_path := Some (VStr "game/v1/traits"); cookie := Some "msf_at=tok" |}
           Mock.cold
  = (Ok {| res_status := 200; res_contentType := Some "application/json";
           res_body := SendText "(json)" |},
     log_event
       (EvFetch {| url := "https://api.test/game/v1/traits"; method := "GET";
                   headers := [("x-api-key", "k3y"); ("Authorization", "Bearer tok");
                               ("User-Agent", "SynergyForge/1.0");
                               ("Accept", "application/json");
                               ("Accept-Language", "en-US,en;q=0.8")];
                   body := None |})
       Mock.cold).
Proof. reflexivity. Qed.

Lemma getCookie_no_header (W : World) (req : IncomingRequest) (name : string) :
  cookie req = None -> name <> "" -> getCookie W req name = Ok None.
Proof.
  unfold getCookie. intros -> Hn. destruct name; [congruence | reflexivity].
Qed.

(** C3 (as amended).  A request without the [msf_at] cookie never reaches
    the upstream: the handler leaves the state, and so the trace of calls,
    as it found it.  Its answer is 401 when the requested path starts with
    [game/v1/], and 400 otherwise: the path is checked before the cookie. *)
Theorem msfProxy_without_token (W : World) (req : IncomingRequest) (s : State) :
  getCookie W req "msf_at" = Ok None ->
  (msfProxy W req s).2 = s
  /\ forall path : string,
       ToString (nullish (query_path req) (VStr "")) = Ok path ->
       (msfProxy W req s).1
       = Ok (if String.prefix "game/v1/" path
             then fail_with 401 "missing msf_at cookie"
             else fail_with 400 "path must start with game/v1/...").
Proof.
  intros Hc. unfold msfProxy, try_catch, bind, lift, ret.
  destruct (ToString (nullish (query_path req) (VStr ""))) as [path | e].
  - destruct (String.prefix "game/v1/" path) eqn:E; cbn [negb].
    + rewrite Hc. split; [reflexivity |]. intros ? [= <-]. rewrite E. reflexivity.
    + split; [reflexivity |]. intros ? [= <-]. rewrite E. reflexivity.
  - split; [reflexivity | discriminate].
Qed.

Lemma msfProxy_without_token_witness :
  getCookie (Mock.world "s3cret" Mock.ticking (Mock.granting "abc" 3600))
            {| query_path := Some (VStr "game/v1/characters");
               cookie := Some "theme=dark; lang=en" |} "msf_at"
  = Ok None
  /\ msfProxy (Mock.world "s3cret" Mock.ticking (Mock.granting "abc" 3600))
              {| query_path := Some (VStr "game/v1/characters");
                 cookie := Some "theme=dark; lang=en" |} Mock.cold
     = (Ok (fail_with 401 "missing msf_at cookie"), Mock.cold).
Proof.
  split; [reflexivity |].
  destruct (msfProxy_without_token
              (Mock.world "s3cret" Mock.ticking (Mock.granting "abc" 3600))
              {| query_path := Some (VStr "game/v1/characters");
                 cookie := Some "theme=dark; lang=en" |} Mock.cold eq_refl)
    as [Hs Hr].
  specialize (Hr "game/v1/characters" eq_refl).
  apply injective_projections; [exact Hr | exact Hs].
Defined.

(** C3 (as stated) fails: without the cookie, a path outside [game/v1/]
    is answered 400, not 401. *)
Lemma proxy_bad_path_without_token_counterexample :
  getCookie (Mock.world "s3cret" Mock.ticking (Mock.granting "abc" 3600))
            {| query_path := Some (VStr "admin/v1/delete"); cookie := None |} "msf_at"
  = Ok None
  /\ (msfProxy (Mock.world "s3cret" Mock.ticking (Mock.granting "abc" 3600))
               {| query_path := Some (VStr "admin/v1/delete"); cookie := None |}
               Mock.cold).1
     = Ok (fail_with 400 "path must start with game/v1/...")
  /\ res_status (fail_with 400 "path must start with game/v1/...") <> 401.
Proof. repeat split; discriminate. Qed.

(** ** Pagination *)

Example characters_path_example :
  characters_path 2 = "game/v1/characters?lang=none&traitFormat=id&perPage=200&page=2".
Proof. reflexivity. Qed.

Example api_request_example :
  url (api_request (Mock.world "s3cret" Mock.ticking (Mock.scripted []))
                   "/game/v1/traits?lang=none" [])
  = "https://api.test/game/v1/traits?lang=none".
Proof. reflexivity. Qed.

(** [fetchJSON] makes one call, whatever comes of it. *)
Lemma fetchJSON_trace (W : World) (path : string) (hdrs : list (string * string))
    (s : State) :
  (fetchJSON W path hdrs s).2 = log_event (EvFetch (api_request W path hdrs)) s.
Proof.
  unfold fetchJSON, bind, do_fetch, throw, ret.
  destruct (fetch W (trace s) (api_request W path hdrs)) as [r | e]; [| reflexivity].
  destruct (negb (ok r)); [reflexivity |].
  destruct (json r); reflexivity.
Qed.

Lemma fetchJSON_returns (W : World) (path : string) (hdrs : list (string * string))
    (s : State) (r : HttpResponse) (v : value) :
  fetch W (trace s) (api_request W path hdrs) = Ok r ->
  ok r = true -> json r = Some v ->
  fetchJSON W path hdrs s = (Ok v, log_event (EvFetch (api_request W path hdrs)) s).
Proof.
  intros Hr Hok Hj. unfold fetchJSON, bind, do_fetch, ret.
  rewrite Hr, Hok, Hj. reflexivity.
Qed.

(** One turn of the loop on a page that arrives and normalises. *)
Lemma collect_pages_turn (W : World) (fuel : nat) (hdrs : list (string * string))
    (page : Z) (acc : list Character) (perTotal : value) (s : State)
    (r : HttpResponse) (resp : value) (items : list value) (chars : list Character) :
  lt_value (runtime W) (Fin (len acc)) perTotal = Ok true ->
  fetch W (trace s) (api_request W (characters_path page) hdrs) = Ok r ->
  ok r = true -> json r = Some resp ->
  items_of resp = Ok (VArr items) ->
  mapR normalize items = Ok chars ->
  collect_pages W (S fuel) hdrs page acc perTotal s
  = let s1 := log_event (page_fetch W hdrs page) s in
    if len items <? perPage then (Ok (Some (acc ++ chars, page)), s1)
    else if 200 <? page + 1 then (Ok (Some (acc ++ chars, page + 1)), s1)
    else collect_pages W fuel hdrs (page + 1) (acc ++ chars)
           (nullish (declared_total resp) (VNum (Fin (len (acc ++ chars) + perPage))))
           s1.
Proof.
  intros Hlt Hr Hok Hj Hitems Hchars.
  cbn [collect_pages]. unfold bind at 1. unfold lift at 1. rewrite Hlt. cbn [negb].
  unfold bind at 1. rewrite (fetchJSON_returns W _ hdrs s r resp Hr Hok Hj).
  unfold bind at 1. unfold lift at 1. rewrite Hitems. cbn [bindR as_array].
  unfold bind at 1. unfold lift at 1. rewrite Hchars. cbv zeta.
  destruct (len items <? perPage); [reflexivity |].
  destruct (200 <? page + 1); reflexivity.
Qed.

Lemma mapR_length {A B} (f : A -> Result B) (l : list A) (l' : list B) :
  mapR f l = Ok l' -> length l' = length l.
Proof.
  revert l'. induction l as [| x l IH]; simpl; intros l'.
  - intros [= <-]. reflexivity.
  - destruct (f x); simpl; [| discriminate].
    destruct (mapR f l); simpl; [| discriminate].
    intros [= <-]. simpl. f_equal. apply IH. reflexivity.
Qed.

Lemma total_allows_continue (rt : Runtime) (resp : value) (n : Z) :
  total_allows resp n ->
  lt_value rt (Fin n) (nullish (declared_total resp) (VNum (Fin (n + perPage)))) = Ok true.
Proof.
  unfold total_allows, lt_value.
  destruct (declared_total resp) as [[| | [] | | |] |]; simpl; try tauto;
    intros H; f_equal; apply Z.ltb_lt; unfold perPage; lia.
Qed.

(** C7.  The upstream serves three pages of 200, 200 and 47 items, each
    of which normalises, and the first two declare no total (or one above
    what has been collected).  Then the loop makes exactly the three
    fetches, of pages 1, 2 and 3 in this order, stops on the short page
    with [page = 3], and holds the 447 characters in the order fetched. *)
Theorem three_pages_200_200_47 (W : World) (fuel : nat)
    (hdrs : list (string * string)) (s : State)
    (p1 p2 p3 : value) (i1 i2 i3 : list value) (c1 c2 c3 : list Character) :
  (3 <= fuel)%nat ->
  page_arrives W hdrs (trace s) 1 p1 i1 c1 ->
  page_arrives W hdrs (trace s ++ [page_fetch W hdrs 1]) 2 p2 i2 c2 ->
  page_arrives W hdrs (trace s ++ [page_fetch W hdrs 1; page_fetch W hdrs 2]) 3 p3 i3 c3 ->
  length i1 = 200%nat -> length i2 = 200%nat -> length i3 = 47%nat ->
  total_allows p1 200 -> total_allows p2 400 ->
  exists s' : State,
    collect_pages W fuel hdrs 1 [] (VNum PosInf) s = (Ok (Some (c1 ++ c2 ++ c3, 3)), s')
    /\ trace s' = trace s ++ [page_fetch W hdrs 1; page_fetch W hdrs 2; page_fetch W hdrs 3]
    /\ length (c1 ++ c2 ++ c3) = 447%nat.
Proof.
  intros Hfuel (r1 & Hr1 & Hok1 & Hj1 & Hi1 & Hc1) (r2 & Hr2 & Hok2 & Hj2 & Hi2 & Hc2)
         (r3 & Hr3 & Hok3 & Hj3 & Hi3 & Hc3) L1 L2 L3 T1 T2.
  pose proof (mapR_length _ _ _ Hc1) as N1.
  pose proof (mapR_length _ _ _ Hc2) as N2.
  pose proof (mapR_length _ _ _ Hc3) as N3.
  destruct fuel as [| [| [| fuel]]]; try lia.
  assert (len c1 = 200) as E1 by (unfold len; rewrite N1, L1; reflexivity).
  assert (len (c1 ++ c2) = 400) as E2
      by (unfold len; rewrite length_app, N1, N2, L1, L2; reflexivity).
  assert (trace s ++ [page_fetch W hdrs 1; page_fetch W hdrs 2]
          = (trace s ++ [page_fetch W hdrs 1]) ++ [page_fetch W hdrs 2]) as Eh
      by (rewrite <- app_assoc; reflexivity).
  rewrite Eh in Hr3.
  assert (lt_value (runtime W) (Fin (len c1))
            (nullish (declared_total p1) (VNum (Fin (len c1 + perPage)))) = Ok true)
    as More1 by (rewrite E1; apply total_allows_continue; exact T1).
  assert (lt_value (runtime W) (Fin (len (c1 ++ c2)))
            (nullish (declared_total p2) (VNum (Fin (len (c1 ++ c2) + perPage)))) = Ok true)
    as More2 by (rewrite E2; apply total_allows_continue; exact T2).
  eexists. split; [| split].
  - rewrite (collect_pages_turn W _ hdrs 1 [] (VNum PosInf) s r1 p1 i1 c1
               eq_refl Hr1 Hok1 Hj1 Hi1 Hc1).
    cbv zeta. unfold len at 1. rewrite L1. cbn [app].
    change (Z.of_nat 200 <? perPage) with false. change (200 <? 1 + 1) with false.
    cbv iota.
    rewrite (collect_pages_turn W _ hdrs (1 + 1) c1 _
               (log_event (page_fetch W hdrs 1) s) r2 p2 i2 c2
               More1 Hr2 Hok2 Hj2 Hi2 Hc2).
    cbv zeta. unfold len at 1. rewrite L2.
    change (Z.of_nat 200 <? perPage) with false. change (200 <? 1 + 1 + 1) with false.
    cbv iota.
    rewrite (collect_pages_turn W _ hdrs (1 + 1 + 1) (c1 ++ c2) _
               (log_event (page_fetch W hdrs 2) (log_event (page_fetch W hdrs 1) s))
               r3 p3 i3 c3 More2 Hr3 Hok3 Hj3 Hi3 Hc3).
    cbv zeta. unfold len at 1. rewrite L3.
    change (Z.of_nat 47 <? perPage) with true. cbv iota.
    rewrite <- app_assoc. reflexivity.
  - cbn [log_event trace]. rewrite <- !app_assoc. reflexivity.
  - rewrite !length_app, N1, N2, N3, L1, L2, L3. reflexivity.
Qed.

Lemma three_pages_200_200_47_witness :
  exists s' : State,
    collect_pages
      (Mock.world "s3cret" Mock.ticking
         (Mock.scripted [Mock.page_of 200; Mock.page_of 200; Mock.page_of 47]))
      200 [] 1 [] (VNum PosInf) Mock.cold
    = (Ok (Some (replicate 200 Mock.character ++ replicate 200 Mock.character
                 ++ replicate 47 Mock.character, 3)), s')
    /\ trace s'
       = trace Mock.cold
         ++ [page_fetch (Mock.world "s3cret" Mock.ticking
                           (Mock.scripted [Mock.page_of 200; Mock.page_of 200; Mock.page_of 47]))
                        [] 1;
             page_fetch (Mock.world "s3cret" Mock.ticking
                           (Mock.scripted [Mock.page_of 200; Mock.page_of 200; Mock.page_of 47]))
                        [] 2;
             page_fetch (Mock.world "s3cret" Mock.ticking
                           (Mock.scripted [Mock.page_of 200; Mock.page_of 200; Mock.page_of 47]))
                        [] 3]
    /\ length (replicate 200 Mock.character ++ replicate 200 Mock.character
               ++ replicate 47 Mock.character) = 447%nat.
Proof.
  apply (three_pages_200_200_47
           (Mock.world "s3cret" Mock.ticking
              (Mock.scripted [Mock.page_of 200; Mock.page_of 200; Mock.page_of 47]))
           200 [] Mock.cold
           (Mock.page_of 200) (Mock.page_of 200) (Mock.page_of 47)
           (replicate 200 Mock.raw_character) (replicate 200 Mock.raw_character)
           (replicate 47 Mock.raw_character)).
  - lia.
  - exists (Mock.json_reply (Mock.page_of 200)). repeat split; vm_compute; reflexivity.
  - exists (Mock.json_reply (Mock.page_of 200)). repeat split; vm_compute; reflexivity.
  - exists (Mock.json_reply (Mock.page_of 47)). repeat split; vm_compute; reflexivity.
  - vm_compute; reflexivity.
  - vm_compute; reflexivity.
  - vm_compute; reflexivity.
  - exact I.
  - exact I.
Defined.

Lemma page_fetches_shift (W : World) (hdrs : list (string * string)) (page : Z) (k : nat) :
  (fun i : nat => page_fetch W hdrs (page + Z.of_nat i)) <$> seq 0 (S k)
  = page_fetch W hdrs page
    :: ((fun i : nat => page_fetch W hdrs (page + 1 + Z.of_nat i)) <$> seq 0 k).
Proof.
  cbn [seq fmap list_fmap]. rewrite Z.add_0_r. f_equal.
  rewrite <- fmap_S_seq, <- list_fmap_compose.
  apply list_fmap_ext. intros _ i _. cbn. f_equal. lia.
Qed.

(** From any page up to 200, with fuel for the pages that remain, the loop
    comes to an end, and the calls it has made are the fetches of the
    consecutive pages from [page] on, none beyond page 200. *)
Ltac stops_after k :=
  exists k; unfold ret, throw; eexists _, _; split; [reflexivity |];
  cbn [seq fmap list_fmap log_event trace];
  rewrite ?Z.add_0_r, ?app_nil_r; repeat split; [lia | discriminate].

(** From any page up to 200, with fuel for the pages that remain, the loop
    comes to an end, and the calls it has made are the fetches of the
    consecutive pages from [page] on, none beyond page 200. *)
Lemma collect_pages_bounded (W : World) (hdrs : list (string * string)) :
  forall (fuel : nat) (page : Z) (acc : list Character) (perTotal : value) (s : State),
    page <= 200 -> 200 - page < Z.of_nat fuel ->
    exists (k : nat) (res : Result (option (list Character * Z))) (s' : State),
      collect_pages W fuel hdrs page acc perTotal s = (res, s')
      /\ page + Z.of_nat k <= 201
      /\ trace s'
         = trace s ++ ((fun i : nat => page_fetch W hdrs (page + Z.of_nat i)) <$> seq 0 k)
      /\ res <> Ok None.
Proof.
  induction fuel as [| fuel IH]; intros page acc perTotal s Hpage Hfuel; [lia |].
  cbn [collect_pages]. unfold bind at 1. unfold lift at 1.
  destruct (lt_value (runtime W) (Fin (len acc)) perTotal) as [[|] | e]; cbn [negb].
  2,3: stops_after 0%nat.
  unfold bind at 1.
  pose proof (fetchJSON_trace W (characters_path page) hdrs s) as Ht.
  destruct (fetchJSON W (characters_path page) hdrs s) as [[resp | e] s1];
    cbn [snd] in Ht; subst s1.
  2:{ stops_after 1%nat. }
  unfold bind at 1. unfold lift at 1.
  destruct (let? i := items_of resp in as_array i) as [items | e].
  2:{ stops_after 1%nat. }
  unfold bind at 1. unfold lift at 1.
  destruct (mapR normalize items) as [chars | e].
  2:{ stops_after 1%nat. }
  cbv zeta. destruct (len items <? perPage).
  { stops_after 1%nat. }
  destruct (200 <? page + 1) eqn:Hcap.
  { stops_after 1%nat. }
  apply Z.ltb_ge in Hcap.
  edestruct (IH (page + 1)) as (k & res & s' & Hrun & Hk & Htr & Hres);
    [exact Hcap | lia |].
  exists (S k), res, s'. split; [exact Hrun |]. split; [lia |]. split; [| exact Hres].
  rewrite Htr, page_fetches_shift. cbn [log_event trace].
  rewrite <- app_assoc. reflexivity.
Qed.

(** C8.  Whatever the upstream does, the loop started at page 1 comes to
    an end within 200 turns (the result is never "still going"), and the
    calls it has made are the fetches of pages 1 to [k] in order, for some
    [k] of at most 200: no page beyond 200 is ever fetched. *)
Theorem pagination_stops_by_page_200 (W : World) (fuel : nat)
    (hdrs : list (string * string)) (acc : list Character) (perTotal : value)
    (s : State) :
  (200 <= fuel)%nat ->
  exists k : nat,
    (k <= 200)%nat
    /\ trace (collect_pages W fuel hdrs 1 acc perTotal s).2
       = trace s ++ ((fun i : nat => page_fetch W hdrs (1 + Z.of_nat i)) <$> seq 0 k)
    /\ (collect_pages W fuel hdrs 1 acc perTotal s).1 <> Ok None.
Proof.
  intros Hfuel.
  destruct (collect_pages_bounded W hdrs fuel 1 acc perTotal s)
    as (k & res & s' & Hrun & Hk & Htr & Hres); [lia | lia |].
  exists k. rewrite Hrun. split; [lia |]. split; assumption.
Qed.

Lemma pagination_stops_by_page_200_witness :
  (200 <= 200)%nat
  /\ exists k : nat,
       (k <= 200)%nat
       /\ trace (collect_pages
                   (Mock.world "s3cret" Mock.ticking
                      (Mock.scripted [Mock.page_of 200; Mock.page_of 47]))
                   200 [] 1 [] (VNum PosInf) Mock.cold).2
          = trace Mock.cold
            ++ ((fun i : nat =>
                   page_fetch (Mock.world "s3cret" Mock.ticking
                                 (Mock.scripted [Mock.page_of 200; Mock.page_of 47]))
                              [] (1 + Z.of_nat i)) <$> seq 0 k)
       /\ (collect_pages
             (Mock.world "s3cret" Mock.ticking
                (Mock.scripted [Mock.page_of 200; Mock.page_of 47]))
             200 [] 1 [] (VNum PosInf) Mock.cold).1 <> Ok None.
Proof.
  split; [lia |].
  apply (pagination_stops_by_page_200
           (Mock.world "s3cret" Mock.ticking
              (Mock.scripted [Mock.page_of 200; Mock.page_of 47]))
           200 [] [] (VNum PosInf) Mock.cold).
  lia.
Defined.

(** The case the cap is there for: an upstream whose pages are always
    full.  The loop fetches the pages up to 200 and stops there, with
    [page = 201]. *)
Lemma full_pages_reach_the_cap (W : World) (hdrs : list (string * string)) :
  always_full W hdrs ->
  forall (fuel : nat) (page : Z) (acc : list Character) (perTotal : value) (s : State),
    1 <= page <= 200 -> 200 - page < Z.of_nat fuel ->
    lt_value (runtime W) (Fin (len acc)) perTotal = Ok true ->
    exists (chars : list Character) (s' : State),
      collect_pages W fuel hdrs page acc perTotal s = (Ok (Some (chars, 201)), s')
      /\ trace s'
         = trace s ++ ((fun i : nat => page_fetch W hdrs (page + Z.of_nat i))
                         <$> seq 0 (Z.to_nat (201 - page)))
      /\ len chars = len acc + (201 - page) * perPage.
Proof.
  intros Hfull. induction fuel as [| fuel IH];
    intros page acc perTotal s Hpage Hfuel Hmore; [lia |].
  destruct (Hfull (trace s) page)
    as (resp & items & chars & (r & Hr & Hok & Hj & Hi & Hc) & Hlen & Hdecl).
  rewrite (collect_pages_turn W fuel hdrs page acc perTotal s r resp items chars)
    by assumption.
  cbv zeta. unfold len at 1. rewrite Hlen.
  change (Z.of_nat 200 <? perPage) with false. cbv iota.
  assert (len (acc ++ chars) = len acc + perPage) as Hacc.
  { unfold len. rewrite length_app, (mapR_length _ _ _ Hc), Hlen. unfold perPage. lia. }
  replace (Z.to_nat (201 - page)) with (S (Z.to_nat (201 - (page + 1)))) by lia.
  rewrite page_fetches_shift.
  destruct (200 <? page + 1) eqn:Hcap.
  - apply Z.ltb_lt in Hcap. assert (page = 200) as -> by lia.
    exists (acc ++ chars), (log_event (page_fetch W hdrs 200) s).
    split; [reflexivity |]. split; [reflexivity |]. rewrite Hacc. lia.
  - apply Z.ltb_ge in Hcap. rewrite Hdecl. cbn [nullish].
    destruct (IH (page + 1) (acc ++ chars)
                (VNum (Fin (len (acc ++ chars) + perPage)))
                (log_event (page_fetch W hdrs page) s))
      as (all & s' & Hrun & Htr & Hall).
    + lia.
    + lia.
    + unfold lt_value. cbn [ToNumber bindR num_lt]. f_equal. apply Z.ltb_lt.
      unfold perPage. lia.
    + exists all, s'. split; [exact Hrun |]. split.
      * rewrite Htr. cbn [log_event trace]. rewrite <- app_assoc. reflexivity.
      * rewrite Hall, Hacc. lia.
Qed.

(** ** The ETL run *)

Lemma only_fetched_refl (s : State) : only_fetched s s.
Proof.
  split; [| split; reflexivity]. exists []. rewrite app_nil_r. split; [reflexivity | constructor].
Qed.

Lemma only_fetched_trans (s1 s2 s3 : State) :
  only_fetched s1 s2 -> only_fetched s2 s3 -> only_fetched s1 s3.
Proof.
  intros [(c1 & T1 & F1) [B1 D1]] [(c2 & T2 & F2) [B2 D2]].
  split; [| split; congruence].
  exists (c1 ++ c2). rewrite T2, T1, app_assoc. split; [reflexivity |].
  apply Forall_app. split; assumption.
Qed.

Lemma reads_only_bind {A B} (m : M A) (k : A -> M B) :
  reads_only m -> (forall a, reads_only (k a)) -> reads_only (bind m k).
Proof.
  intros Hm Hk s. unfold bind. specialize (Hm s).
  destruct (m s) as [[a | e] s1]; cbn [snd] in *; [| exact Hm].
  eapply only_fetched_trans; [exact Hm | apply Hk].
Qed.

Lemma reads_only_ret {A} (a : A) : reads_only (ret a).
Proof. intros s. apply only_fetched_refl. Qed.

Lemma reads_only_throw {A} (e : exn) : reads_only (@throw A e).
Proof. intros s. apply only_fetched_refl. Qed.

Lemma reads_only_lift {A} (r : Result A) : reads_only (lift r).
Proof. intros s. apply only_fetched_refl. Qed.

Lemma reads_only_now (W : World) : reads_only (now W).
Proof.
  intros s. split; [| split; reflexivity].
  exists []. cbn. rewrite app_nil_r. split; [reflexivity | constructor].
Qed.

Lemma reads_only_get_cachedToken : reads_only get_cachedToken.
Proof. intros s. apply only_fetched_refl. Qed.

Lemma reads_only_set_cachedToken (t : CachedToken) : reads_only (set_cachedToken t).
Proof.
  intros s. split; [| split; reflexivity].
  exists []. cbn. rewrite app_nil_r. split; [reflexivity | constructor].
Qed.

Lemma reads_only_do_fetch (W : World) (rq : Request) : reads_only (do_fetch W rq).
Proof.
  intros s. split; [| split; reflexivity].
  exists [EvFetch rq]. split; [reflexivity |]. repeat constructor.
Qed.

(** Walks through a computation built from the pieces above. *)
Ltac reads_only_steps :=
  repeat first
    [ apply reads_only_ret | apply reads_only_throw | apply reads_only_lift
    | apply reads_only_now | apply reads_only_get_cachedToken
    | apply reads_only_set_cachedToken | apply reads_only_do_fetch
    | apply reads_only_bind; [| intros ?]
    | match goal with
      | |- reads_only (if ?b then _ else _) => destruct b
      | |- reads_only (match ?x with _ => _ end) => destruct x
      end ].

Lemma reads_only_fetchJSON (W : World) (path : string) (hdrs : list (string * string)) :
  reads_only (fetchJSON W path hdrs).
Proof. unfold fetchJSON. reads_only_steps. Qed.

Lemma reads_only_refresh_token (W : World) : reads_only (refresh_token W).
Proof. unfold refresh_token. reads_only_steps. Qed.

Lemma reads_only_getAppAccessToken (W : World) : reads_only (getAppAccessToken W).
Proof.
  unfold getAppAccessToken.
  apply reads_only_bind; [apply reads_only_get_cachedToken |].
  intros [c |]; [| apply reads_only_refresh_token].
  apply reads_only_bind; [apply reads_only_now |]. intros t.
  destruct (num_lt _ _); [| apply reads_only_refresh_token].
  reads_only_steps.
Qed.

Lemma reads_only_collect_pages (W : World) (hdrs : list (string * string)) :
  forall (fuel : nat) (page : Z) (acc : list Character) (perTotal : value),
    reads_only (collect_pages W fuel hdrs page acc perTotal).
Proof.
  induction fuel as [| fuel IH]; intros page acc perTotal; cbn [collect_pages].
  - reads_only_steps.
  - apply reads_only_bind; [apply reads_only_lift |]. intros more.
    destruct (negb more); [apply reads_only_ret |].
    apply reads_only_bind; [apply reads_only_fetchJSON |]. intros resp.
    apply reads_only_bind; [apply reads_only_lift |]. intros items.
    apply reads_only_bind; [apply reads_only_lift |]. intros normalized.
    cbv zeta. destruct (len items <? perPage); [apply reads_only_ret |].
    destruct (200 <? page + 1); [apply reads_only_ret | apply IH].
Qed.

(** The first half of the run writes nothing. *)
Lemma reads_only_extract (W : World) (fuel : nat) : reads_only (extract W fuel).
Proof.
  unfold extract.
  apply reads_only_bind; [apply reads_only_getAppAccessToken |]. intros token.
  apply reads_only_bind; [apply reads_only_lift |]. intros bearer. cbv zeta.
  apply reads_only_bind; [apply reads_only_fetchJSON |]. intros traits.
  apply reads_only_bind; [apply reads_only_collect_pages |]. intros collected.
  apply reads_only_ret.
Qed.

Lemma writes_only_bind {A B} (m : M A) (k : A -> M B) :
  writes_only m -> (forall a, writes_only (k a)) -> writes_only (bind m k).
Proof.
  intros Hm Hk s. unfold bind. destruct (Hm s) as (w1 & T1 & F1).
  destruct (m s) as [[a | e] s1]; cbn [snd] in *; [| eauto].
  destruct (Hk a s1) as (w2 & T2 & F2).
  exists (w1 ++ w2). rewrite T2, T1, app_assoc. split; [reflexivity |].
  apply Forall_app. split; assumption.
Qed.

Lemma writes_only_silent {A} (m : M A) :
  (forall s, trace (m s).2 = trace s) -> writes_only m.
Proof.
  intros H s. exists []. rewrite H, app_nil_r. split; [reflexivity | constructor].
Qed.

Lemma writes_only_save (W : World) (path : string) (content : value) (ct : string) :
  writes_only (save W path content ct).
Proof.
  intros s. exists [EvSave path content ct]. unfold save.
  destruct (storage_fault W (trace s)); (split; [reflexivity | repeat constructor]).
Qed.

Lemma writes_only_set_merge (W : World) (c d : string) (data : value) :
  writes_only (set_merge W c d data).
Proof.
  intros s. exists [EvSet c d data true]. unfold set_merge.
  destruct (storage_fault W (trace s)); (split; [reflexivity | repeat constructor]).
Qed.

(** The second half of the run makes no network call. *)
Lemma writes_only_load (W : World) (x : Extracted) : writes_only (load W x).
Proof.
  unfold load.
  apply writes_only_bind; [apply writes_only_save |]. intros _.
  apply writes_only_bind; [apply writes_only_save |]. intros _.
  apply writes_only_bind; [apply writes_only_silent; reflexivity |]. intros traitsCount.
  cbv zeta.
  apply writes_only_bind; [apply writes_only_silent; reflexivity |]. intros t.
  apply writes_only_bind; [apply writes_only_set_merge |]. intros _.
  apply writes_only_silent. reflexivity.
Qed.

(** C10.  In every run of [syncGameRef] the calls to the stores come
    after all the network calls, and there are such calls only if the
    first half (token, traits, pages) has returned its result.  If the
    first half throws, the run answers 500 with the message, and the
    bucket and Firestore are as they were before the run. *)
Theorem sync_persists_after_extract (W : World) (fuel : nat) (s : State) :
  (exists calls writes : list Event,
      trace (syncGameRef W fuel s).2 = trace s ++ calls ++ writes
      /\ Forall is_fetch calls
      /\ Forall is_write writes
      /\ (writes <> [] -> exists x, (extract W fuel s).1 = Ok (Some x)))
  /\ (forall e : exn,
         (extract W fuel s).1 = Throw e ->
         (syncGameRef W fuel s).1 = Ok (Some (fail_with 500 (message e)))
         /\ bucket (syncGameRef W fuel s).2 = bucket s
         /\ firestore (syncGameRef W fuel s).2 = firestore s).
Proof.
  unfold syncGameRef, try_catch, bind.
  destruct (reads_only_extract W fuel s) as ((calls & Ht & Hf) & Hb & Hd).
  destruct (extract W fuel s) as [[[x |] | e] s1]; cbn [fst snd] in *.
  - destruct (writes_only_load W x s1) as (writes & Hw & Hfw).
    split; [| discriminate].
    exists calls, writes.
    assert (trace (load W x s1).2 = trace s ++ calls ++ writes) as Htr
        by (rewrite Hw, Ht, app_assoc; reflexivity).
    destruct (load W x s1) as [[r | e] s2]; cbn [fst snd] in *;
      (split; [exact Htr |]; split; [exact Hf |]; split; [exact Hfw | eauto]).
  - split; [| discriminate].
    exists calls, []. cbn. rewrite app_nil_r.
    split; [exact Ht |]. split; [exact Hf |]. split; [constructor | congruence].
  - split.
    + exists calls, []. cbn. rewrite app_nil_r.
      split; [exact Ht |]. split; [exact Hf |]. split; [constructor | congruence].
    + intros e' [= <-]. cbn. auto.
Qed.

Lemma sync_persists_after_extract_witness :
  (extract (Mock.world "s3cret" Mock.ticking
              (Mock.scripted [Mock.grant "abc" 1800; fast_traits]))
           200 Mock.cold).1
  = Throw (TypeError "fetch failed")
  /\ (syncGameRef (Mock.world "s3cret" Mock.ticking
                     (Mock.scripted [Mock.grant "abc" 1800; fast_traits]))
                  200 Mock.cold).1
     = Ok (Some (fail_with 500 "fetch failed"))
  /\ bucket (syncGameRef (Mock.world "s3cret" Mock.ticking
                            (Mock.scripted [Mock.grant "abc" 1800; fast_traits]))
                         200 Mock.cold).2
     = bucket Mock.cold
  /\ firestore (syncGameRef (Mock.world "s3cret" Mock.ticking
                               (Mock.scripted [Mock.grant "abc" 1800; fast_traits]))
                            200 Mock.cold).2
     = firestore Mock.cold.
Proof.
  split; [reflexivity |].
  exact (proj2 (sync_persists_after_extract
                  (Mock.world "s3cret" Mock.ticking
                     (Mock.scripted [Mock.grant "abc" 1800; fast_traits]))
                  200 Mock.cold)
               (TypeError "fetch failed") eq_refl).
Defined.

(** A call on a cold cache that the endpoint answers with a usable token. *)
Lemma getAppAccessToken_cold (W : World) (s : State) (j tok exp : value) (n : num) :
  cachedToken s = None ->
  replies W (trace s) (token_request W) j ->
  js_get_opt (Some j) "access_token" = Some tok -> to_boolean tok = true ->
  js_get_opt (Some j) "expires_in" = Some exp -> to_boolean exp = true ->
  ToNumber (runtime W) exp = Ok n ->
  getAppAccessToken W s = (Ok j, refreshed W s tok n).
Proof.
  intros Hc (r & Hr & Hok & Hj) Htok Ht Hexp He Hn.
  rewrite getAppAccessToken_refresh by (unfold cache_fresh; rewrite Hc; reflexivity).
  rewrite Hc, refresh_token_cases. cbv zeta.
  rewrite Hr, Hok, Hj, Htok, Hexp. cbn [negb truthy]. rewrite Ht, He. cbn [negb orb].
  assert (nullish (Some exp) VNull = exp) as -> by (destruct exp; try reflexivity; discriminate).
  assert (nullish (Some tok) VNull = tok) as -> by (destruct tok; try reflexivity; discriminate).
  rewrite Hn. reflexivity.
Qed.

(** C9.  A cold process, stores that do not fail, a token endpoint that
    answers [{ access_token: "abc", expires_in: 1800 }], a traits endpoint
    that answers [[{ id: "t1", name: "Fast" }]], and a first page of five
    characters that normalise.  The run answers 200 with the counts
    [{ traits: 1, characters: 5 }]; after the three fetches it makes exactly
    three calls to the stores: the save of [datasets/traits.json], the save
    of [datasets/characters.json], and one [set] on [meta/datasets] with
    [merge: true], whose effect is the merge into the document found there. *)
Theorem sync_end_to_end (W : World) (fuel : nat) (s : State)
    (page1 : value) (items : list value) (chars : list Character) :
  (1 <= fuel)%nat ->
  cachedToken s = None ->
  (forall history, storage_fault W history = None) ->
  replies W (trace s) (token_request W)
    (VObj [("access_token", VStr "abc"); ("expires_in", VNum (Fin 1800))]) ->
  replies W (trace s ++ [EvFetch (token_request W)])
    (api_request W "game/v1/traits?lang=none" (api_headers W "abc")) fast_traits ->
  page_arrives W (api_headers W "abc")
    (trace s ++ [EvFetch (token_request W);
                 EvFetch (api_request W "game/v1/traits?lang=none" (api_headers W "abc"))])
    1 page1 items chars ->
  length items = 5%nat ->
  exists (s' : State) (t : Z),
    syncGameRef W fuel s = (Ok (Some (sync_report (sync_counts 1 5))), s')
    /\ trace s'
       = trace s
         ++ [EvFetch (token_request W);
             EvFetch (api_request W "game/v1/traits?lang=none" (api_headers W "abc"));
             page_fetch W (api_headers W "abc") 1;
             EvSave "datasets/traits.json" fast_traits "application/json";
             EvSave "datasets/characters.json"
               (characters_document {| traits := fast_traits; allChars := chars; page := 1 |})
               "application/json";
             EvSet "meta" "datasets" (sync_metadata t (sync_counts 1 5)) true]
    /\ bucket s'
       = <["datasets/characters.json" :=
             characters_document {| traits := fast_traits; allChars := chars; page := 1 |}]>
           (<["datasets/traits.json" := fast_traits]> (bucket s))
    /\ firestore s'
       = <[("meta", "datasets") :=
             merge_value (firestore s !! ("meta", "datasets"))
               (sync_metadata t (sync_counts 1 5))]> (firestore s).
Proof.
  intros Hfuel Hc Hstore Htoken (rt & Hrt & Hokt & Hjt) (rp & Hrp & Hokp & Hjp & Hip & Hcp) Hlen.
  destruct fuel as [| fuel]; [lia |].
  pose proof (mapR_length _ _ _ Hcp) as Hn.
  assert (extract W (S fuel) s
          = (Ok (Some {| traits := fast_traits; allChars := chars; page := 1 |}),
             log_event (page_fetch W (api_headers W "abc") 1)
               (log_event (EvFetch (api_request W "game/v1/traits?lang=none"
                                      (api_headers W "abc")))
                  (refreshed W s (VStr "abc") (Fin 1800))))) as Hx.
  { unfold extract. unfold bind at 1.
    rewrite (getAppAccessToken_cold W s _ (VStr "abc") (VNum (Fin 1800)) (Fin 1800)
               Hc Htoken eq_refl eq_refl eq_refl eq_refl eq_refl).
    unfold bind at 1. unfold lift at 1. cbn [js_get prop assoc String.eqb Ascii.eqb
      Bool.eqb bindR template ToString]. cbv zeta.
    unfold bind at 1.
    rewrite (fetchJSON_returns W _ _ (refreshed W s (VStr "abc") (Fin 1800)) rt fast_traits
               Hrt Hokt Hjt).
    unfold bind at 1.
    rewrite (collect_pages_turn W fuel _ 1 [] (VNum PosInf) _ rp page1 items chars
               eq_refl).
    - cbv zeta. unfold len at 1. rewrite Hlen.
      change (Z.of_nat 5 <? perPage) with true. cbv iota. reflexivity.
    - cbn [log_event trace refreshed]. rewrite <- app_assoc. exact Hrp.
    - exact Hokp.
    - exact Hjp.
    - exact Hip.
    - exact Hcp. }
  unfold syncGameRef, try_catch. unfold bind at 1. rewrite Hx.
  unfold bind at 1. unfold load, bind, save, set_merge, now, lift, ret.
  rewrite !Hstore. cbn [count_traits fast_traits bindR traits allChars].
  unfold len. rewrite Hn, Hlen.
  eexists _, _. split; [reflexivity |].
  cbn [log_event trace bucket firestore refreshed].
  rewrite <- !app_assoc. repeat split.
Qed.

Lemma sync_end_to_end_witness :
  exists (s' : State) (t : Z),
    syncGameRef (Mock.world "s3cret" Mock.ticking
                   (Mock.scripted [Mock.grant "abc" 1800; fast_traits; Mock.page_of 5]))
                200 Mock.cold
    = (Ok (Some (sync_report (sync_counts 1 5))), s')
    /\ length (trace s') = 6%nat
    /\ bucket s' !! "datasets/traits.json" = Some fast_traits
    /\ firestore s' !! ("meta", "datasets") = Some (sync_metadata t (sync_counts 1 5)).
Proof.
  destruct (sync_end_to_end
              (Mock.world "s3cret" Mock.ticking
                 (Mock.scripted [Mock.grant "abc" 1800; fast_traits; Mock.page_of 5]))
              200 Mock.cold (Mock.page_of 5)
              (replicate 5 Mock.raw_character) (replicate 5 Mock.character))
    as (s' & t & Hrun & Htrace & Hbucket & Hstore).
  - lia.
  - reflexivity.
  - intros history. reflexivity.
  - exists (Mock.json_reply (Mock.grant "abc" 1800)). repeat split.
  - exists (Mock.json_reply fast_traits). repeat split.
  - exists (Mock.json_reply (Mock.page_of 5)). repeat split.
  - reflexivity.
  - exists s', t. split; [exact Hrun |]. split; [| split].
    + rewrite Htrace. reflexivity.
    + rewrite Hbucket. rewrite lookup_insert_ne by discriminate.
      apply lookup_insert_eq.
    + rewrite Hstore. rewrite lookup_insert_eq. reflexivity.
Defined.

Lemma unending_always_full (hdrs : list (string * string)) :
  always_full (Mock.world "s3cret" Mock.ticking Mock.unending) hdrs.
Proof.
  intros history p.
  exists (Mock.page_of 200), (replicate 200 Mock.raw_character),
    (replicate 200 Mock.character).
  split; [| split; reflexivity].
  exists (Mock.json_reply (Mock.page_of 200)). repeat split.
Qed.

(** Against the unending upstream the loop makes its 200 fetches and
    leaves with [page = 201] and 40000 characters. *)
Example cap_reached_on_unending_upstream :
  exists (chars : list Character) (s' : State),
    collect_pages (Mock.world "s3cret" Mock.ticking Mock.unending)
                  200 [] 1 [] (VNum PosInf) Mock.cold
    = (Ok (Some (chars, 201)), s')
    /\ length (trace s') = 200%nat
    /\ len chars = 40000.
Proof.
  destruct (full_pages_reach_the_cap _ [] (unending_always_full [])
              200 1 [] (VNum PosInf) Mock.cold) as (chars & s' & Hrun & Htr & Hlen);
    [lia | lia | reflexivity |].
  exists chars, s'. split; [exact Hrun |]. split; [| exact Hlen].
  rewrite Htr, length_app, length_fmap, length_seq. reflexivity.
Qed.

(** With fuel for 200 turns the handler always answers: 200 with the
    report, or 500 with the message of what was thrown. *)
Lemma syncGameRef_answers (W : World) (fuel : nat) (s : State) :
  (200 <= fuel)%nat ->
  exists resp : Response, (syncGameRef W fuel s).1 = Ok (Some resp).
Proof.
  intros Hfuel. unfold syncGameRef, try_catch. unfold bind at 1.
  assert ((extract W fuel s).1 <> Ok None) as Hx.
  { unfold extract. unfold bind at 1.
    destruct (getAppAccessToken W s) as [[token | e] s1]; [| discriminate].
    unfold bind at 1. unfold lift at 1.
    destruct (let? a := js_get token "access_token" in template a) as [bearer | e];
      [| discriminate].
    cbv zeta. unfold bind at 1.
    destruct (fetchJSON W _ _ s1) as [[traits | e] s2]; [| discriminate].
    unfold bind at 1.
    destruct (collect_pages_bounded W (api_headers W bearer) fuel 1 [] (VNum PosInf) s2)
      as (k & res & s3 & Hrun & _ & _ & Hres); [lia | lia |].
    rewrite Hrun. destruct res as [[[chars page] |] | e]; [discriminate | | discriminate].
    congruence. }
  destruct (extract W fuel s) as [[[x |] | e] s1]; cbn [fst] in Hx.
  - unfold bind. destruct (load W x s1) as [[r | e] s2]; cbn; eauto.
  - congruence.
  - cbn. eauto.
Qed.

(** * Further properties *)

(** ** The proxy, beyond the missing cookie *)

(** X1.  Whatever the request, [msfProxy] answers (nothing it throws leaves
    the handler), touches neither the cache, the clock nor the stores, and
    makes at most one call: a [GET] of the path that the request names in
    [req.query.path], which is then under [game/v1/], joined to the
    configured base, with the value of the request's own [msf_at] cookie,
    which is then not empty, as bearer. *)
Theorem msfProxy_only_forwards_game_paths (W : World) (req : IncomingRequest) (s : State) :
  exists (res : Response) (s' : State),
    msfProxy W req s = (Ok res, s')
    /\ same_process s s'
    /\ (trace s' = trace s
        \/ exists path token : string,
             ToString (nullish (query_path req) (VStr "")) = Ok path
             /\ String.prefix "game/v1/" path = true
             /\ getCookie W req "msf_at" = Ok (Some token)
             /\ token <> ""
             /\ trace s' = trace s ++ [EvFetch (proxy_request W path token)]).
Proof.
  unfold msfProxy, try_catch, bind, lift, ret, do_fetch.
  destruct (ToString (nullish (query_path req) (VStr ""))) as [path | e] eqn:Hpath.
  2:{ eexists _, s. split; [reflexivity |]. split; [repeat split | left; reflexivity]. }
  destruct (String.prefix "game/v1/" path) eqn:Hp; cbn [negb].
  2:{ eexists _, s. split; [reflexivity |]. split; [repeat split | left; reflexivity]. }
  destruct (getCookie W req "msf_at") as [[[| a token] |] | e] eqn:Hc.
  1,3,4: eexists _, s; (split; [reflexivity |]); (split; [repeat split | left; reflexivity]).
  destruct (fetch W (trace s) _) as [r | e] eqn:Hr;
    (eexists _, _; split; [reflexivity |]; split; [repeat split |]; right;
     exists path, (String a token);
     split; [reflexivity |]; split; [exact Hp |]; split; [reflexivity |];
     split; [discriminate | reflexivity]).
Qed.

(** X2.  With a path under [game/v1/] and a token in the cookie, whatever
    the upstream answers is relayed as it came: its status, error statuses
    included, its content type, and its body as text. *)
Theorem msfProxy_relays_upstream (W : World) (req : IncomingRequest) (s : State)
    (path token : string) (r : HttpResponse) :
  ToString (nullish (query_path req) (VStr "")) = Ok path ->
  String.prefix "game/v1/" path = true ->
  getCookie W req "msf_at" = Ok (Some token) ->
  token <> "" ->
  fetch W (trace s) (proxy_request W path token) = Ok r ->
  msfProxy W req s = (Ok (relayed r), log_event (EvFetch (proxy_request W path token)) s).
Proof.
  intros Hpath Hp Hc Ht Hr.
  unfold msfProxy, try_catch, bind, lift, ret, do_fetch.
  rewrite Hpath, Hp. cbn [negb]. rewrite Hc.
  destruct token as [| a token]; [congruence |].
  fold (proxy_request W path (String a token)). rewrite Hr. reflexivity.
Qed.

Lemma msfProxy_relays_upstream_witness :
  msfProxy (Mock.world "s3cret" Mock.ticking
              (fun _ _ => Ok {| status := 503; statusText := "Service Unavailable";
                                contentType := Some "text/plain";
                                text := "try later"; json := None |}))
           {| query_path := Some (VStr "game/v1/characters?page=2");
              cookie := Some "theme=dark; msf_at=tok" |}
           Mock.cold
  = (Ok {| res_status := 503; res_contentType := Some "text/plain";
           res_body := SendText "try later" |},
     log_event
       (EvFetch (proxy_request
                   (Mock.world "s3cret" Mock.ticking
                      (fun _ _ => Ok {| status := 503; statusText := "Service Unavailable";
                                        contentType := Some "text/plain";
                                        text := "try later"; json := None |}))
                   "game/v1/characters?page=2" "tok"))
       Mock.cold).
Proof.
  apply (msfProxy_relays_upstream
           (Mock.world "s3cret" Mock.ticking
              (fun _ _ => Ok {| status := 503; statusText := "Service Unavailable";
                                contentType := Some "text/plain";
                                text := "try later"; json := None |}))
           {| query_path := Some (VStr "game/v1/characters?page=2");
              cookie := Some "theme=dark; msf_at=tok" |}
           Mock.cold "game/v1/characters?page=2" "tok"
           {| status := 503; statusText := "Service Unavailable";
              contentType := Some "text/plain"; text := "try later"; json := None |});
    [reflexivity | reflexivity | reflexivity | discriminate | reflexivity].
Defined.

(** X3.  [whoami] and [msfProxy] read the cookie in the same way.  For a
    path under [game/v1/]: when [whoami] reports no token the proxy answers
    401 without a call; when it reports one the proxy makes its call; and
    when [whoami] fails on a malformed cookie the proxy answers 500 with
    that message. *)
Theorem whoami_agrees_with_msfProxy (W : World) (req : IncomingRequest) (s : State)
    (path : string) :
  ToString (nullish (query_path req) (VStr "")) = Ok path ->
  String.prefix "game/v1/" path = true ->
  (whoami W req = Ok (whoami_reply false) ->
   msfProxy W req s = (Ok (fail_with 401 "missing msf_at cookie"), s))
  /\ (whoami W req = Ok (whoami_reply true) ->
      exists token : string,
        trace (msfProxy W req s).2 = trace s ++ [EvFetch (proxy_request W path token)])
  /\ (forall e : exn,
         whoami W req = Throw e ->
         msfProxy W req s = (Ok (fail_with 500 (message e)), s)).
Proof.
  intros Hpath Hp.
  unfold whoami, msfProxy, try_catch, bind, lift, ret, do_fetch, whoami_reply.
  rewrite Hpath, Hp. cbn [negb].
  destruct (getCookie W req "msf_at") as [[[| a token] |] | e]; cbn [bindR].
  - split; [reflexivity |]. split; [discriminate | discriminate].
  - split; [discriminate |]. split; [| discriminate].
    intros _. exists (String a token).
    destruct (fetch W (trace s) _); reflexivity.
  - split; [reflexivity |]. split; [discriminate | discriminate].
  - split; [discriminate |]. split; [discriminate |].
    intros e' [= <-]. reflexivity.
Qed.

Lemma whoami_agrees_with_msfProxy_witness :
  whoami (Mock.world "s3cret" Mock.ticking (Mock.scripted [fast_traits]))
         {| query_path := Some (VStr "game/v1/traits"); cookie := Some "msf_at=tok" |}
  = Ok (whoami_reply true)
  /\ exists token : string,
       trace (msfProxy (Mock.world "s3cret" Mock.ticking (Mock.scripted [fast_traits]))
                {| query_path := Some (VStr "game/v1/traits"); cookie := Some "msf_at=tok" |}
                Mock.cold).2
       = trace Mock.cold
         ++ [EvFetch (proxy_request
                        (Mock.world "s3cret" Mock.ticking (Mock.scripted [fast_traits]))
                        "game/v1/traits" token)].
Proof.
  split; [reflexivity |].
  exact (proj1 (proj2 (whoami_agrees_with_msfProxy
                         (Mock.world "s3cret" Mock.ticking (Mock.scripted [fast_traits]))
                         {| query_path := Some (VStr "game/v1/traits");
                            cookie := Some "msf_at=tok" |}
                         Mock.cold "game/v1/traits" eq_refl eq_refl))
               eq_refl).
Defined.

(** ** The token cache, beyond the claims *)

(** A call leaves the trace as it is, or adds the one token request. *)
Lemma getAppAccessToken_trace (W : World) (s : State) :
  trace (getAppAccessToken W s).2 = trace s
  \/ trace (getAppAccessToken W s).2 = trace s ++ [EvFetch (token_request W)].
Proof.
  destruct (cache_fresh W s) eqn:Hf.
  - left. unfold cache_fresh in Hf. destruct (cachedToken s) as [c |] eqn:Hc; [| discriminate].
    rewrite (getAppAccessToken_cached W s c Hc); [reflexivity |].
    unfold cache_fresh. rewrite Hc. exact Hf.
  - right. rewrite (getAppAccessToken_refresh W s Hf), refresh_token_trace.
    destruct (cachedToken s); reflexivity.
Qed.

(** X4.  A call that fails, for whatever reason (the network, the status,
    the body, the fields, the conversion of [expires_in]), leaves the
    cached token, the bucket and Firestore as they were. *)
Theorem getAppAccessToken_failure_keeps_cache (W : World) (s s' : State) (e : exn) :
  getAppAccessToken W s = (Throw e, s') ->
  cachedToken s' = cachedToken s /\ bucket s' = bucket s /\ firestore s' = firestore s.
Proof.
  intros Hrun.
  destruct (reads_only_getAppAccessToken W s) as (_ & Hb & Hd).
  rewrite Hrun in Hb, Hd. cbn [snd] in Hb, Hd.
  split; [| split; assumption].
  destruct (cache_fresh W s) eqn:Hf.
  - unfold cache_fresh in Hf. destruct (cachedToken s) as [c |] eqn:Hc; [| discriminate].
    rewrite (getAppAccessToken_cached W s c Hc) in Hrun; [discriminate |].
    unfold cache_fresh. rewrite Hc. exact Hf.
  - rewrite (getAppAccessToken_refresh W s Hf) in Hrun.
    remember (match cachedToken s with Some _ => tick s | None => s end) as s0 eqn:Es0.
    assert (cachedToken s0 = cachedToken s) as Hsame
        by (rewrite Es0; destruct (cachedToken s) eqn:E; exact E).
    clear Es0. rewrite refresh_token_cases in Hrun. cbv zeta in Hrun.
    destruct (fetch W _ (token_request W)) as [r | e0];
      [| injection Hrun as _ <-; exact Hsame].
    destruct (negb (ok r)); [injection Hrun as _ <-; exact Hsame |].
    destruct (json r) as [j |]; [| injection Hrun as _ <-; exact Hsame].
    destruct (negb _ || negb _); [injection Hrun as _ <-; exact Hsame |].
    destruct (ToNumber _ _); [discriminate | injection Hrun as _ <-; exact Hsame].
Qed.

Lemma getAppAccessToken_failure_keeps_cache_witness :
  getAppAccessToken (Mock.world "s3cret" Mock.ticking out_of_order) (Mock.warm "old" 30000)
  = (Throw (Error "Hydra token error 500"),
     log_event (EvFetch (token_request (Mock.world "s3cret" Mock.ticking out_of_order)))
       (tick (Mock.warm "old" 30000)))
  /\ cachedToken
       (log_event (EvFetch (token_request (Mock.world "s3cret" Mock.ticking out_of_order)))
          (tick (Mock.warm "old" 30000)))
     = cachedToken (Mock.warm "old" 30000).
Proof.
  split; [reflexivity |].
  exact (proj1 (getAppAccessToken_failure_keeps_cache
                  (Mock.world "s3cret" Mock.ticking out_of_order)
                  (Mock.warm "old" 30000)
                  (log_event
                     (EvFetch (token_request (Mock.world "s3cret" Mock.ticking out_of_order)))
                     (tick (Mock.warm "old" 30000)))
                  (Error "Hydra token error 500") eq_refl)).
Defined.

(** X5.  A token granted for 60 seconds or less is never served from the
    cache.  After the call that fetched it, in any later state that still
    holds it, with a clock that does not go back, the next call goes to
    the token endpoint again. *)
Theorem short_lived_token_never_reused (W : World) (s s1 s2 : State)
    (v : value) (n : Z) :
  (forall i j : nat, (i <= j)%nat -> Date_now W i <= Date_now W j) ->
  cache_fresh W s = false ->
  getAppAccessToken W s = (Ok v, s1) ->
  js_get_opt (Some v) "expires_in" = Some (VNum (Fin n)) ->
  n <= 60 ->
  cachedToken s2 = cachedToken s1 ->
  (clock_reads s1 <= clock_reads s2)%nat ->
  cache_fresh W s2 = false
  /\ trace (getAppAccessToken W s2).2 = trace s2 ++ [EvFetch (token_request W)].
Proof.
  intros Hclock Hf Hrun Hexp Hn Hc Hlater.
  rewrite (getAppAccessToken_refresh W s Hf) in Hrun.
  remember (match cachedToken s with Some _ => tick s | None => s end) as s0 eqn:Es0.
  clear Es0. rewrite refresh_token_cases in Hrun. cbv zeta in Hrun.
  destruct (fetch W _ (token_request W)) as [r | e0]; [| discriminate].
  destruct (negb (ok r)); [discriminate |].
  destruct (json r) as [j |]; [| discriminate].
  destruct (negb _ || negb _); [discriminate |].
  destruct (ToNumber (runtime W) _) as [m | e0] eqn:Hm; [| discriminate].
  injection Hrun as <- <-. rewrite Hexp in Hm. cbn in Hm. injection Hm as <-.
  assert (cache_fresh W s2 = false) as Hstale.
  { unfold cache_fresh. rewrite Hc. cbn [refreshed cachedToken expiresAt num_mul num_add
      num_sub num_neg num_lt]. apply Z.ltb_ge.
    cbn [refreshed clock_reads] in Hlater.
    pose proof (Hclock _ _ (Nat.le_trans _ _ _ (Nat.le_succ_diag_r _) Hlater)). lia. }
  split; [exact Hstale |].
  rewrite (getAppAccessToken_refresh W s2 Hstale), refresh_token_trace.
  destruct (cachedToken s2); reflexivity.
Qed.

Lemma short_lived_token_never_reused_witness :
  getAppAccessToken (Mock.world "s3cret" Mock.ticking (Mock.granting "abc" 30)) Mock.cold
  = (Ok (Mock.grant "abc" 30),
     refreshed (Mock.world "s3cret" Mock.ticking (Mock.granting "abc" 30)) Mock.cold
       (VStr "abc") (Fin 30))
  /\ cache_fresh (Mock.world "s3cret" Mock.ticking (Mock.granting "abc" 30))
       (refreshed (Mock.world "s3cret" Mock.ticking (Mock.granting "abc" 30)) Mock.cold
          (VStr "abc") (Fin 30))
     = false.
Proof.
  split; [reflexivity |].
  refine (proj1 (short_lived_token_never_reused
                   (Mock.world "s3cret" Mock.ticking (Mock.granting "abc" 30))
                   Mock.cold
                   (refreshed (Mock.world "s3cret" Mock.ticking (Mock.granting "abc" 30))
                      Mock.cold (VStr "abc") (Fin 30))
                   (refreshed (Mock.world "s3cret" Mock.ticking (Mock.granting "abc" 30))
                      Mock.cold (VStr "abc") (Fin 30))
                   (Mock.grant "abc" 30) 30 _ eq_refl eq_refl eq_refl _ eq_refl (le_n _))).
  - intros i j Hij. unfold Mock.world, Mock.ticking. cbn [Date_now]. lia.
  - lia.
Defined.

(** ** The handlers around the token cache *)

Lemma missing_env_nil (W : World) :
  missing_env W = [] ->
  MSF_CLIENT_ID W <> "" /\ MSF_CLIENT_SECRET W <> "" /\ MSF_TOKEN_URL W <> "".
Proof.
  unfold missing_env.
  destruct (String.eqb_spec (MSF_CLIENT_ID W) ""); [discriminate |].
  destruct (String.eqb_spec (MSF_CLIENT_SECRET W) ""); [discriminate |].
  destruct (String.eqb_spec (MSF_TOKEN_URL W) ""); [discriminate |].
  auto.
Qed.

(** What [oauthClientCreds] does once the method and the settings have
    passed: the state is the one [getAppAccessToken] leaves. *)
Lemma oauthClientCreds_state (H : Host) (W : World) (s : State) :
  missing_env W = [] ->
  exists reply : Reply,
    oauthClientCreds H W "POST" s = (Ok reply, (getAppAccessToken W s).2).
Proof.
  intros Hm. unfold oauthClientCreds. cbn [String.eqb Ascii.eqb Bool.eqb negb].
  rewrite Hm. unfold try_catch. unfold bind at 1.
  destruct (getAppAccessToken W s) as [[token | e] s1]; [| eexists; reflexivity].
  unfold bind, lift, ret. cbn [snd].
  destruct (js_get token "expires_in") as [exp | e]; [| eexists; reflexivity].
  destruct (ToNumber _ _) as [n | e]; [| eexists; reflexivity].
  destruct (js_get token "access_token") as [tok | e]; [| eexists; reflexivity].
  destruct (encode_value H tok) as [enc | e]; eexists; reflexivity.
Qed.

(** X6.  [oauthClientCreds] always answers and writes nothing.  It leaves
    the state untouched when the method is not [POST] or one of the three
    settings is empty; otherwise it makes at most one call, the token
    request, and that request then always carries the client id and secret
    as [Basic] credentials, never in the form: the fallback of
    [getAppAccessToken] cannot be reached through this handler. *)
Theorem oauthClientCreds_uses_basic_credentials (H : Host) (W : World)
    (method : string) (s : State) :
  exists (reply : Reply) (s' : State),
    oauthClientCreds H W method s = (Ok reply, s')
    /\ bucket s' = bucket s /\ firestore s' = firestore s
    /\ (method <> "POST" \/ missing_env W <> [] -> s' = s)
    /\ (trace s' = trace s
        \/ (trace s' = trace s ++ [EvFetch (token_request W)]
            /\ method = "POST"
            /\ assoc "Authorization" (headers (token_request W))
               = Some ("Basic " +:+ base64 (runtime W)
                                      (MSF_CLIENT_ID W +:+ ":" +:+ MSF_CLIENT_SECRET W))
            /\ body (token_request W)
               = Some [("grant_type", "client_credentials"); ("scope", "openid")])).
Proof.
  destruct (String.eqb_spec method "POST") as [-> | Hm].
  - destruct (missing_env W) as [| m ms] eqn:Hmiss.
    + destruct (oauthClientCreds_state H W s Hmiss) as [reply Hrun].
      destruct (reads_only_getAppAccessToken W s) as (_ & Hb & Hd).
      exists reply, (getAppAccessToken W s).2.
      split; [exact Hrun |]. split; [exact Hb |]. split; [exact Hd |].
      split; [intros [? | ?]; congruence |].
      destruct (getAppAccessToken_trace W s) as [Ht | Ht]; [left; exact Ht | right].
      split; [exact Ht |]. split; [reflexivity |].
      apply missing_env_nil in Hmiss as (Hid%String.eqb_neq & Hsec%String.eqb_neq & _).
      unfold token_request. rewrite Hid, Hsec. split; reflexivity.
    + exists (missing_env_reply W), s.
      unfold oauthClientCreds. cbn [String.eqb Ascii.eqb Bool.eqb negb].
      unfold missing_env_reply. rewrite Hmiss.
      repeat split; auto.
  - exists {| reply_status := 405; reply_headers := []; reply_body := SendText "POST only" |}, s.
    unfold oauthClientCreds. apply String.eqb_neq in Hm. rewrite Hm.
    repeat split; auto.
Qed.

Lemma clamp_between (n : num) :
  n <> NaN -> num_between (Fin 60) (Fin 3600) (Math_max (Fin 60) (Math_min n (Fin 3600))).
Proof.
  unfold num_between. destruct n; cbn; try congruence; intros _;
    split; first [reflexivity | apply Z.leb_le; lia].
Qed.

(** X7.  When [oauthClientCreds] answers 200, the token is the one
    [getAppAccessToken] returned; the cookie carries it encoded, with a
    [Max-Age] of [max(60, min(expires_in ?? 3300, 3600))], which lies
    between 60 and 3600 whenever [expires_in] converts to a number; the
    body reports [expires_in] as it came, without that clamp. *)
Theorem oauthClientCreds_cookie_lifetime (H : Host) (W : World) (method : string)
    (s s' : State) (reply : Reply) :
  oauthClientCreds H W method s = (Ok reply, s') ->
  reply_status reply = 200 ->
  exists (token : value) (tok exp : option value) (encoded : string) (n : num),
    getAppAccessToken W s = (Ok token, s')
    /\ js_get token "access_token" = Ok tok
    /\ js_get token "expires_in" = Ok exp
    /\ ToNumber (runtime W) (nullish exp (VNum (Fin 3300))) = Ok n
    /\ encode_value H tok = Ok encoded
    /\ reply_headers reply
       = [("Set-Cookie",
           session_cookie H encoded (Math_max (Fin 60) (Math_min n (Fin 3600))))]
    /\ reply_body reply
       = SendJson (VObj [("ok", VBool true); ("expires_in", nullish exp (VNum (Fin 0)))])
    /\ (n <> NaN ->
        num_between (Fin 60) (Fin 3600) (Math_max (Fin 60) (Math_min n (Fin 3600)))).
Proof.
  unfold oauthClientCreds.
  destruct (negb (String.eqb method "POST")); [intros [= <- <-]; discriminate |].
  unfold try_catch. destruct (missing_env W) as [| m ms].
  2:{ unfold ret. intros [= <- <-]. discriminate. }
  unfold bind at 1.
  destruct (getAppAccessToken W s) as [[token | e] s1];
    [| unfold ret; intros [= <- <-]; discriminate].
  unfold bind, lift, ret.
  destruct (js_get token "expires_in") as [exp | e] eqn:Hexp;
    [| intros [= <- <-]; discriminate].
  destruct (ToNumber _ _) as [n | e] eqn:Hn; [| intros [= <- <-]; discriminate].
  destruct (js_get token "access_token") as [tok | e] eqn:Htok;
    [| intros [= <- <-]; discriminate].
  destruct (encode_value H tok) as [enc | e] eqn:Henc; [| intros [= <- <-]; discriminate].
  intros [= <- <-] _. exists token, tok, exp, enc, n.
  repeat split; try assumption; try reflexivity; apply clamp_between; assumption.
Qed.

Lemma oauthClientCreds_cookie_lifetime_witness :
  oauthClientCreds plain_host (Mock.world "s3cret" Mock.ticking (Mock.granting "abc" 30))
                   "POST" Mock.cold
  = (Ok {| reply_status := 200;
           reply_headers :=
             [("Set-Cookie",
               "msf_at=abc; Path=/; HttpOnly; SameSite=Lax; Max-Age=60; Secure;")];
           reply_body := SendJson (VObj [("ok", VBool true); ("expires_in", VNum (Fin 30))]) |},
     refreshed (Mock.world "s3cret" Mock.ticking (Mock.granting "abc" 30)) Mock.cold
       (VStr "abc") (Fin 30))
  /\ exists n : num,
       ToNumber Mock.rt (VNum (Fin 30)) = Ok n
       /\ num_between (Fin 60) (Fin 3600) (Math_max (Fin 60) (Math_min n (Fin 3600))).
Proof.
  split; [reflexivity |].
  destruct (oauthClientCreds_cookie_lifetime
              plain_host (Mock.world "s3cret" Mock.ticking (Mock.granting "abc" 30))
              "POST" Mock.cold _ _ eq_refl eq_refl)
    as (token & tok & exp & enc & n & Hrun & Htok & Hexp & Hn & _ & _ & _ & Hclamp).
  injection Hrun as <-. injection Hexp as <-.
  exists n. split; [exact Hn |]. apply Hclamp.
  injection Hn as <-. discriminate.
Defined.

(** X8.  Outside the emulator [tokenDebug] answers 404 and touches
    nothing.  Inside it, what it does to the cache, the clock and the
    network is what a [POST] to [oauthClientCreds] does. *)
Theorem tokenDebug_acts_like_oauthClientCreds (H : Host) (W : World) (s : State) :
  (in_emulator H = false ->
   tokenDebug H W s
   = (Ok {| reply_status := 404; reply_headers := []; reply_body := SendText "Not found" |}, s))
  /\ (in_emulator H = true ->
      (tokenDebug H W s).2 = (oauthClientCreds H W "POST" s).2).
Proof.
  unfold tokenDebug. split; intros ->; [reflexivity |]. cbn [negb].
  destruct (missing_env W) as [| m ms] eqn:Hmiss.
  - destruct (oauthClientCreds_state H W s Hmiss) as [reply ->]. cbn [snd].
    unfold try_catch. unfold bind at 1.
    destruct (getAppAccessToken W s) as [[token | e] s1]; [| reflexivity].
    unfold bind, lift, ret. cbn [snd].
    destruct (js_get token "expires_in") as [exp | e]; [| reflexivity].
    destruct (token_length token); reflexivity.
  - unfold oauthClientCreds. cbn [String.eqb Ascii.eqb Bool.eqb negb].
    rewrite Hmiss. reflexivity.
Qed.

Lemma tokenDebug_acts_like_oauthClientCreds_witness :
  tokenDebug plain_host (Mock.world "s3cret" Mock.ticking (Mock.granting "abc" 30)) Mock.cold
  = (Ok {| reply_status := 404; reply_headers := []; reply_body := SendText "Not found" |},
     Mock.cold)
  /\ (tokenDebug emulator_host
        (Mock.world "s3cret" Mock.ticking (Mock.granting "abc" 30)) Mock.cold).2
     = (oauthClientCreds emulator_host
          (Mock.world "s3cret" Mock.ticking (Mock.granting "abc" 30)) "POST" Mock.cold).2.
Proof.
  split.
  - exact (proj1 (tokenDebug_acts_like_oauthClientCreds
                    plain_host (Mock.world "s3cret" Mock.ticking (Mock.granting "abc" 30))
                    Mock.cold) eq_refl).
  - exact (proj2 (tokenDebug_acts_like_oauthClientCreds
                    emulator_host (Mock.world "s3cret" Mock.ticking (Mock.granting "abc" 30))
                    Mock.cold) eq_refl).
Defined.

(** ** The normaliser, beyond the claims *)

Lemma nullish_not_null (o : option value) (d : value) :
  d <> VNull -> nullish o d <> VNull.
Proof. destruct o as [[] |]; cbn; congruence. Qed.

Lemma normalize_well_formed (c : value) (out : Character) :
  normalize c = Ok out -> well_formed out.
Proof.
  unfold normalize, bindR.
  destruct (js_get c "id") as [_a |]; [| discriminate].
  destruct (ToString _) as [id |]; [| discriminate].
  destruct (js_get c "name") as [_b |]; [| discriminate].
  destruct (js_get c "imageUrl") as [im |]; [| discriminate].
  destruct (string_if_truthy im) as [imageUrl |]; [| discriminate].
  destruct (js_get c "traits") as [tr |]; [| discriminate].
  destruct (match tr with Some (VArr ts) => mapR ToString ts | _ => Ok [] end)
    as [traits |]; [| discriminate].
  destruct (js_get c "faction") as [fa |]; [| discriminate].
  destruct (string_if_truthy fa) as [faction |]; [| discriminate].
  destruct (js_get c "role") as [ro |]; [| discriminate].
  destruct (string_if_truthy ro) as [role |]; [| discriminate].
  destruct (js_get c "stats") as [st |]; [| discriminate].
  intros [= <-]. split; cbn.
  - apply nullish_not_null. discriminate.
  - intros v. destruct st as [v' |]; [| discriminate].
    destruct (to_boolean v' && is_object v') eqn:E; [| discriminate].
    intros [= <-]. exact E.
Qed.

Lemma mapR_ToString_strings (ts : list string) :
  mapR ToString (VStr <$> ts) = Ok ts.
Proof.
  induction ts as [| t ts IH]; [reflexivity |].
  cbn [fmap list_fmap mapR ToString bindR]. cbn in IH. rewrite IH. reflexivity.
Qed.

Lemma string_if_truthy_string (o : option string) :
  string_if_truthy (VStr <$> o) = Ok (drop_blank o).
Proof. destruct o as [[| a s] |]; reflexivity. Qed.

Lemma assoc_app {A} (k : string) (l1 l2 : list (string * A)) :
  assoc k (l1 ++ l2) = match assoc k l1 with Some v => Some v | None => assoc k l2 end.
Proof.
  induction l1 as [| [k' v] l1 IH]; [reflexivity |].
  cbn [app assoc]. destruct (String.eqb k k'); [reflexivity | exact IH].
Qed.

Lemma assoc_opt_field (k k' : string) (o : option value) :
  assoc k (opt_field k' o) = if String.eqb k k' then o else None.
Proof. destruct o; cbn [opt_field assoc]; destruct (String.eqb k k'); reflexivity. Qed.

Lemma assoc_cons {A} (k k' : string) (v : A) (l : list (string * A)) :
  assoc k ((k', v) :: l) = if String.eqb k k' then Some v else assoc k l.
Proof. reflexivity. Qed.

(** A well-formed record, written out as an object, normalises to itself
    with its blank optional strings left out. *)
Lemma normalize_character_value (out : Character) :
  well_formed out -> normalize (character_value out) = Ok (settled out).
Proof.
  intros [Hname Hstats]. destruct out as [id name im ts fa ro st]. cbn in Hname, Hstats.
  unfold normalize, character_value, settled.
  cbn [out_id out_name out_imageUrl out_traits out_faction out_role out_stats js_get prop].
  rewrite !assoc_app, !assoc_opt_field, !assoc_cons.
  cbn [String.eqb Ascii.eqb Bool.eqb assoc bindR].
  assert (nullish (Some name) (VStr "") = name) as ->
      by (destruct name; try reflexivity; congruence).
  cbn [nullish ToString bindR].
  assert (out_stats_kept :
            match st with
            | Some v => if to_boolean v && is_object v then Some v else None
            | None => None
            end = st)
    by (destruct st as [v |]; [rewrite (Hstats v eq_refl) |]; reflexivity).
  rewrite out_stats_kept.
  destruct im as [[| ? ?] |];
    cbn [fmap option_fmap option_map string_if_truthy to_boolean String.eqb negb
         ToString bindR drop_blank];
    rewrite mapR_ToString_strings; cbn [bindR];
    destruct fa as [[| ? ?] |];
    cbn [fmap option_fmap option_map string_if_truthy to_boolean String.eqb negb
         ToString bindR drop_blank];
    destruct ro as [[| ? ?] |]; reflexivity.
Qed.

Lemma settled_well_formed (out : Character) : well_formed out -> well_formed (settled out).
Proof. intros [? ?]. split; assumption. Qed.

Lemma settled_settled (out : Character) : settled (settled out) = settled out.
Proof.
  destruct out as [id name [[| ? ?] |] ts [[| ? ?] |] [[| ? ?] |] st]; reflexivity.
Qed.

(** X9.  Normalising is stable on what it produces.  The object written
    for a normalised character normalises again, without an exception, to
    the same record with its blank optional strings ([imageUrl], [faction],
    [role] equal to [""]) left out; and from there on to itself. *)
Theorem normalize_settles (c : value) (out : Character) :
  normalize c = Ok out ->
  normalize (character_value out) = Ok (settled out)
  /\ normalize (character_value (settled out)) = Ok (settled out).
Proof.
  intros Hwf%normalize_well_formed. split.
  - apply normalize_character_value. exact Hwf.
  - rewrite normalize_character_value by (apply settled_well_formed; exact Hwf).
    rewrite settled_settled. reflexivity.
Qed.

Lemma normalize_settles_witness :
  normalize (VObj [("id", VNum (Fin 7)); ("name", VStr "Hulk"); ("imageUrl", VArr []);
                   ("traits", VArr [VStr "Hero"; VNum (Fin 3)]);
                   ("stats", VObj [("speed", VNum (Fin 110))]); ("extra", VBool true)])
  = Ok {| out_id := "7"; out_name := VStr "Hulk"; out_imageUrl := Some "";
          out_traits := ["Hero"; "3"]; out_faction := None; out_role := None;
          out_stats := Some (VObj [("speed", VNum (Fin 110))]) |}
  /\ normalize (character_value
                  {| out_id := "7"; out_name := VStr "Hulk"; out_imageUrl := Some "";
                     out_traits := ["Hero"; "3"]; out_faction := None; out_role := None;
                     out_stats := Some (VObj [("speed", VNum (Fin 110))]) |})
     = Ok {| out_id := "7"; out_name := VStr "Hulk"; out_imageUrl := None;
             out_traits := ["Hero"; "3"]; out_faction := None; out_role := None;
             out_stats := Some (VObj [("speed", VNum (Fin 110))]) |}.
Proof.
  split; [reflexivity |].
  exact (proj1 (normalize_settles
                  (VObj [("id", VNum (Fin 7)); ("name", VStr "Hulk"); ("imageUrl", VArr []);
                         ("traits", VArr [VStr "Hero"; VNum (Fin 3)]);
                         ("stats", VObj [("speed", VNum (Fin 110))]); ("extra", VBool true)])
                  _ eq_refl)).
Defined.

(** ** Pagination, beyond the claims *)

(** X10.  The loop only ever appends.  Whatever the upstream does, the
    characters it returns begin with those it was started with, in their
    order, and the page counter never goes back. *)
Theorem collect_pages_appends (W : World) (hdrs : list (string * string)) :
  forall (fuel : nat) (page : Z) (acc : list Character) (perTotal : value) (s s' : State)
         (chars : list Character) (page' : Z),
    collect_pages W fuel hdrs page acc perTotal s = (Ok (Some (chars, page')), s') ->
    (exists more : list Character, chars = acc ++ more) /\ page <= page'.
Proof.
  induction fuel as [| fuel IH]; intros page acc perTotal s s' chars page';
    cbn [collect_pages]; unfold bind at 1; unfold lift at 1;
    destruct (lt_value (runtime W) (Fin (len acc)) perTotal) as [[|] | e];
    cbn [negb]; unfold ret; try discriminate.
  - intros [= <- <- <-]. split; [exists []; rewrite app_nil_r; reflexivity | lia].
  - unfold bind at 1.
    destruct (fetchJSON W (characters_path page) hdrs s) as [[resp | e] s1];
      [| discriminate].
    unfold bind at 1. unfold lift at 1.
    destruct (let? i := items_of resp in as_array i) as [items | e]; [| discriminate].
    unfold bind at 1. unfold lift at 1.
    destruct (mapR normalize items) as [normalized | e]; [| discriminate].
    cbv zeta. destruct (len items <? perPage).
    { intros [= <- <- <-]. split; [eexists; reflexivity | lia]. }
    destruct (200 <? page + 1).
    { intros [= <- <- <-]. split; [eexists; reflexivity | lia]. }
    intros Hrun. apply IH in Hrun as [[more ->] Hp].
    split; [exists (normalized ++ more); rewrite app_assoc; reflexivity | lia].
  - intros [= <- <- <-]. split; [exists []; rewrite app_nil_r; reflexivity | lia].
Qed.

Lemma collect_pages_appends_witness :
  exists (chars : list Character) (page' : Z) (s' : State),
    collect_pages (Mock.world "s3cret" Mock.ticking (Mock.scripted [Mock.page_of 3]))
                  200 [] 1 [Mock.character] (VNum PosInf) Mock.cold
    = (Ok (Some (chars, page')), s')
    /\ (exists more : list Character, chars = [Mock.character] ++ more)
    /\ 1 <= page'.
Proof.
  eexists _, _, _. split; [vm_compute; reflexivity |].
  eapply (collect_pages_appends
            (Mock.world "s3cret" Mock.ticking (Mock.scripted [Mock.page_of 3]))
            [] 200 1 [Mock.character] (VNum PosInf) Mock.cold).
  vm_compute. reflexivity.
Defined.

(** X11.  A full page that declares a total no greater than what has been
    collected ends the loop without a further fetch; [page] is then one
    past the page that was fetched. *)
Theorem declared_total_ends_the_loop (W : World) (fuel : nat)
    (hdrs : list (string * string)) (page : Z) (acc : list Character)
    (perTotal : value) (s : State)
    (resp : value) (items : list value) (chars : list Character) (t : Z) :
  lt_value (runtime W) (Fin (len acc)) perTotal = Ok true ->
  page_arrives W hdrs (trace s) page resp items chars ->
  length items = 200%nat ->
  page < 200 ->
  declared_total resp = Some (VNum (Fin t)) ->
  t <= len acc + 200 ->
  collect_pages W (S fuel) hdrs page acc perTotal s
  = (Ok (Some (acc ++ chars, page + 1)), log_event (page_fetch W hdrs page) s).
Proof.
  intros Hmore (r & Hr & Hok & Hj & Hi & Hc) Hlen Hpage Hdecl Ht.
  rewrite (collect_pages_turn W fuel hdrs page acc perTotal s r resp items chars)
    by assumption.
  cbv zeta. unfold len at 1. rewrite Hlen.
  change (Z.of_nat 200 <? perPage) with false. cbv iota.
  assert ((200 <? page + 1) = false) as -> by (apply Z.ltb_ge; lia).
  rewrite Hdecl. cbn [nullish].
  assert (lt_value (runtime W) (Fin (len (acc ++ chars))) (VNum (Fin t)) = Ok false) as Hstop.
  { unfold lt_value. cbn [ToNumber bindR num_lt]. f_equal. apply Z.ltb_ge.
    unfold len. rewrite length_app, (mapR_length _ _ _ Hc), Hlen. unfold len in Ht. lia. }
  destruct fuel; cbn [collect_pages]; unfold bind at 1; unfold lift at 1;
    rewrite Hstop; reflexivity.
Qed.

Lemma declared_total_ends_the_loop_witness :
  collect_pages (Mock.world "s3cret" Mock.ticking (fun _ _ => Ok (Mock.json_reply (page_declaring 200 200))))
                200 [] 1 [] (VNum PosInf) Mock.cold
  = (Ok (Some ([] ++ replicate 200 Mock.character, 1 + 1)),
     log_event (page_fetch (Mock.world "s3cret" Mock.ticking
                              (fun _ _ => Ok (Mock.json_reply (page_declaring 200 200))))
                           [] 1)
       Mock.cold).
Proof.
  apply (declared_total_ends_the_loop
           (Mock.world "s3cret" Mock.ticking
              (fun _ _ => Ok (Mock.json_reply (page_declaring 200 200))))
           199 [] 1 [] (VNum PosInf) Mock.cold (page_declaring 200 200)
           (replicate 200 Mock.raw_character) (replicate 200 Mock.character) 200).
  - reflexivity.
  - exists (Mock.json_reply (page_declaring 200 200)). repeat split.
  - reflexivity.
  - lia.
  - reflexivity.
  - unfold len. cbn [length]. lia.
Defined.

(** ** The writes of the run *)

(** X12.  The run is not atomic.  If the first save goes through and the
    second fails, the run answers 500 with the failure's message, the
    traits artifact of this run stays in the bucket, the characters
    artifact is whatever it was, and the metadata is not touched. *)
Theorem sync_is_not_atomic (W : World) (fuel : nat) (s : State) (x : Extracted) (e : exn) :
  (extract W fuel s).1 = Ok (Some x) ->
  storage_fault W (trace (extract W fuel s).2) = None ->
  storage_fault W (trace (extract W fuel s).2 ++ [save_traits x]) = Some e ->
  (syncGameRef W fuel s).1 = Ok (Some (fail_with 500 (message e)))
  /\ bucket (syncGameRef W fuel s).2 = <["datasets/traits.json" := traits x]> (bucket s)
  /\ firestore (syncGameRef W fuel s).2 = firestore s
  /\ trace (syncGameRef W fuel s).2
     = trace (extract W fuel s).2 ++ [save_traits x; save_characters x].
Proof.
  intros Hx H1 H2.
  destruct (reads_only_extract W fuel s) as (_ & Hb & Hd).
  destruct (extract W fuel s) as [r s1] eqn:Hrun. cbn [fst snd] in *. subst r.
  assert (syncGameRef W fuel s
          = (Ok (Some (fail_with 500 (message e))),
             log_event (save_characters x)
               {| cachedToken := cachedToken s1; clock_reads := clock_reads s1;
                  trace := trace s1 ++ [save_traits x];
                  bucket := <["datasets/traits.json" := traits x]> (bucket s1);
                  firestore := firestore s1 |})) as ->.
  { unfold syncGameRef, try_catch. unfold bind at 1. rewrite Hrun.
    unfold bind at 1. unfold load. unfold bind at 1. unfold save at 1. rewrite H1.
    unfold bind at 1. unfold save at 1. cbn [log_event trace]. 
    fold (save_traits x). rewrite H2. reflexivity. }
  cbn [fst snd log_event bucket firestore trace].
  rewrite Hb, Hd, <- app_assoc. repeat split.
Qed.

Lemma sync_is_not_atomic_witness :
  (syncGameRef (world_with_stores
                  (Mock.scripted [Mock.grant "abc" 1800; fast_traits; Mock.page_of 5])
                  (failing_at 4 (Error "quota exceeded")))
               200 Mock.cold).1
  = Ok (Some (fail_with 500 "quota exceeded"))
  /\ bucket (syncGameRef (world_with_stores
                            (Mock.scripted [Mock.grant "abc" 1800; fast_traits; Mock.page_of 5])
                            (failing_at 4 (Error "quota exceeded")))
                         200 Mock.cold).2
     = <["datasets/traits.json" := fast_traits]> (bucket Mock.cold).
Proof.
  destruct (sync_is_not_atomic
              (world_with_stores
                 (Mock.scripted [Mock.grant "abc" 1800; fast_traits; Mock.page_of 5])
                 (failing_at 4 (Error "quota exceeded")))
              200 Mock.cold
              {| traits := fast_traits; allChars := replicate 5 Mock.character; page := 1 |}
              (Error "quota exceeded"))
    as (Hr & Hb & _ & _); [reflexivity | reflexivity | reflexivity |].
  split; [exact Hr | exact Hb].
Defined.

Lemma count_traits_throws (traits : value) :
  traits = VNull ->
  count_traits traits = Throw (TypeError "Cannot read properties of null (reading 'items')").
Proof. intros ->. reflexivity. Qed.

(** X13.  A traits body that is [null] is accepted by the fetch and saved
    as it is; the run fails only afterwards, at the count, with the stores
    working: it answers 500, both artifacts of this run are in the bucket,
    and the metadata is not touched. *)
Theorem null_traits_fail_after_the_saves (W : World) (fuel : nat) (s : State)
    (x : Extracted) :
  (extract W fuel s).1 = Ok (Some x) ->
  traits x = VNull ->
  (forall history, storage_fault W history = None) ->
  (syncGameRef W fuel s).1
  = Ok (Some (fail_with 500 "Cannot read properties of null (reading 'items')"))
  /\ bucket (syncGameRef W fuel s).2
     = <["datasets/characters.json" := characters_document x]>
         (<["datasets/traits.json" := VNull]> (bucket s))
  /\ firestore (syncGameRef W fuel s).2 = firestore s
  /\ trace (syncGameRef W fuel s).2
     = trace (extract W fuel s).2 ++ [save_traits x; save_characters x].
Proof.
  intros Hx Hnull Hstore.
  destruct (reads_only_extract W fuel s) as (_ & Hb & Hd).
  destruct (extract W fuel s) as [r s1] eqn:Hrun. cbn [fst snd] in *. subst r.
  assert (syncGameRef W fuel s
          = (Ok (Some (fail_with 500 "Cannot read properties of null (reading 'items')")),
             {| cachedToken := cachedToken s1; clock_reads := clock_reads s1;
                trace := (trace s1 ++ [save_traits x]) ++ [save_characters x];
                bucket := <["datasets/characters.json" := characters_document x]>
                            (<["datasets/traits.json" := traits x]> (bucket s1));
                firestore := firestore s1 |})) as ->.
  { unfold syncGameRef, try_catch. unfold bind at 1. rewrite Hrun.
    unfold bind at 1. unfold load. unfold bind at 1. unfold save at 1. rewrite Hstore.
    unfold bind at 1. unfold save at 1. rewrite Hstore.
    unfold bind at 1. unfold lift at 1. rewrite (count_traits_throws _ Hnull).
    reflexivity. }
  cbn [fst snd bucket firestore trace].
  rewrite Hb, Hd, Hnull, <- app_assoc. repeat split.
Qed.

Lemma null_traits_fail_after_the_saves_witness :
  (syncGameRef (Mock.world "s3cret" Mock.ticking
                  (Mock.scripted [Mock.grant "abc" 1800; VNull; Mock.page_of 5]))
               200 Mock.cold).1
  = Ok (Some (fail_with 500 "Cannot read properties of null (reading 'items')"))
  /\ firestore (syncGameRef (Mock.world "s3cret" Mock.ticking
                               (Mock.scripted [Mock.grant "abc" 1800; VNull; Mock.page_of 5]))
                            200 Mock.cold).2
     = firestore Mock.cold.
Proof.
  destruct (null_traits_fail_after_the_saves
              (Mock.world "s3cret" Mock.ticking
                 (Mock.scripted [Mock.grant "abc" 1800; VNull; Mock.page_of 5]))
              200 Mock.cold
              {| traits := VNull; allChars := replicate 5 Mock.character; page := 1 |})
    as (Hr & _ & Hd & _); [reflexivity | reflexivity | intros; reflexivity |].
  split; [exact Hr | exact Hd].
Defined.

(** ** The datasets handler *)

(** A [load] that returns has saved both artifacts and reports the counts
    of what it saved. *)
Lemma load_returns (W : World) (x : Extracted) (s s' : State) (r : Response) :
  load W x s = (Ok r, s') ->
  bucket s'
  = <["datasets/characters.json" := characters_document x]>
      (<["datasets/traits.json" := traits x]> (bucket s))
  /\ exists tc : value,
       count_traits (traits x) = Ok tc
       /\ r = sync_report (VObj [("traits", tc);
                                 ("characters", VNum (Fin (len (allChars x))))]).
Proof.
  unfold load. unfold bind at 1. unfold save at 1.
  destruct (storage_fault W (trace s)); [discriminate |].
  unfold bind at 1. unfold save at 1.
  destruct (storage_fault W _); [discriminate |].
  unfold bind at 1. unfold lift at 1.
  destruct (count_traits (traits x)) as [tc | e]; [| discriminate].
  unfold bind at 1. unfold now at 1. unfold bind at 1. unfold set_merge at 1.
  destruct (storage_fault W _); [discriminate |].
  unfold ret. intros [= <- <-]. cbn [bucket log_event].
  split; [reflexivity |]. exists tc. split; reflexivity.
Qed.

(** A run that answers 200 went through both halves. *)
Lemma syncGameRef_succeeded (W : World) (fuel : nat) (s s' : State) (resp : Response) :
  syncGameRef W fuel s = (Ok (Some resp), s') ->
  res_status resp = 200 ->
  exists x : Extracted,
    (extract W fuel s).1 = Ok (Some x)
    /\ load W x (extract W fuel s).2 = (Ok resp, s').
Proof.
  unfold syncGameRef, try_catch. unfold bind at 1.
  destruct (extract W fuel s) as [[[x |] | e] s1]; cbn [fst snd].
  - unfold bind at 1. destruct (load W x s1) as [[r | e] s2] eqn:Hl.
    + unfold ret. intros [= <- <-] _. exists x. split; [reflexivity | exact Hl].
    + unfold ret. intros [= <- <-]. discriminate.
  - unfold ret. discriminate.
  - unfold ret. intros [= <- <-]. discriminate.
Qed.

Lemma datasets_found (H : Host) (req : DatasetsRequest) (s : State)
    (name : string) (v : value) :
  dataset_name req = Ok name ->
  name = "traits" \/ name = "characters" ->
  (forall op path, read_fault H op path = None) ->
  bucket s !! ("datasets/" +:+ name +:+ ".json") = Some v ->
  datasets H req s = (Ok (served v), s).
Proof.
  intros Hname Hn Hread Hv.
  unfold datasets, try_catch, bind, lift, ret, file_exists, download.
  rewrite Hname.
  assert (String.eqb name "traits" || String.eqb name "characters" = true) as ->
      by (destruct Hn as [-> | ->]; reflexivity).
  cbn [negb]. rewrite !Hread, Hv.
  rewrite bool_decide_eq_true_2 by eauto. cbn [negb]. rewrite Hv. reflexivity.
Qed.

(** X14.  What a successful run saved is what [datasets] serves next.
    After a run that answered 200, with a bucket that can be read, the
    traits request is answered with the traits as fetched and the
    characters request with the document of the normalised characters;
    the characters count of the run's report is the number of items in
    that document. *)
Theorem datasets_serve_what_sync_saved (H : Host) (W : World) (fuel : nat)
    (s s' : State) (resp : Response) :
  syncGameRef W fuel s = (Ok (Some resp), s') ->
  res_status resp = 200 ->
  (forall op path, read_fault H op path = None) ->
  exists (x : Extracted) (tc : value),
    (extract W fuel s).1 = Ok (Some x)
    /\ resp = sync_report (VObj [("traits", tc);
                                 ("characters", VNum (Fin (len (allChars x))))])
    /\ datasets H {| pathname := "/datasets/traits"; query_name := None |} s'
       = (Ok (served (traits x)), s')
    /\ datasets H {| pathname := "/datasets/characters"; query_name := None |} s'
       = (Ok (served (characters_document x)), s')
    /\ prop (characters_document x) "items" = Some (VArr (character_value <$> allChars x))
    /\ length (character_value <$> allChars x) = length (allChars x).
Proof.
  intros Hrun H200 Hread.
  destruct (syncGameRef_succeeded W fuel s s' resp Hrun H200) as (x & Hx & Hload).
  destruct (load_returns W x _ s' resp Hload) as (Hb & tc & _ & ->).
  exists x, tc. split; [exact Hx |]. split; [reflexivity |].
  split; [| split; [| split; [reflexivity | apply length_fmap]]].
  - apply (datasets_found H _ s' "traits"); [reflexivity | auto | exact Hread |].
    rewrite Hb. rewrite lookup_insert_ne by discriminate. apply lookup_insert_eq.
  - apply (datasets_found H _ s' "characters"); [reflexivity | auto | exact Hread |].
    rewrite Hb. apply lookup_insert_eq.
Qed.

Lemma datasets_serve_what_sync_saved_witness :
  exists (s' : State) (x : Extracted),
    syncGameRef (Mock.world "s3cret" Mock.ticking
                   (Mock.scripted [Mock.grant "abc" 1800; fast_traits; Mock.page_of 5]))
                200 Mock.cold
    = (Ok (Some (sync_report (sync_counts 1 5))), s')
    /\ datasets plain_host {| pathname := "/datasets/traits"; query_name := None |} s'
       = (Ok (served (traits x)), s').
Proof.
  eexists _, _. split; [vm_compute; reflexivity |].
  match goal with
  | |- datasets _ _ ?s' = _ =>
      destruct (datasets_serve_what_sync_saved plain_host
                  (Mock.world "s3cret" Mock.ticking
                     (Mock.scripted [Mock.grant "abc" 1800; fast_traits; Mock.page_of 5]))
                  200 Mock.cold s' (sync_report (sync_counts 1 5)))
        as (x & tc & Hx & _ & Htraits & _)
  end.
  - vm_compute. reflexivity.
  - reflexivity.
  - intros op path. reflexivity.
  - injection Hx as <-. exact Htraits.
Defined.

(** X15.  [datasets] never changes the state and always answers.  When it
    answers 200 the body is the document stored at [datasets/traits.json]
    or at [datasets/characters.json]: no other object of the bucket is
    ever served, whatever the request names. *)
Theorem datasets_only_serves_the_two_artifacts (H : Host)
    (req : DatasetsRequest) (s : State) :
  exists reply : Reply,
    datasets H req s = (Ok reply, s)
    /\ (reply_status reply = 200 ->
        exists v : value,
          reply = served v
          /\ (bucket s !! "datasets/traits.json" = Some v
              \/ bucket s !! "datasets/characters.json" = Some v)).
Proof.
  unfold datasets, try_catch, bind, lift, ret, file_exists, download.
  destruct (dataset_name req) as [name | e];
    [| eexists; split; [reflexivity | discriminate]].
  destruct (String.eqb_spec name "traits") as [-> | _]; cbn [orb negb];
    [| destruct (String.eqb_spec name "characters") as [-> | _]; cbn [negb];
       [| eexists; split; [reflexivity | discriminate]]].
  all: cbn [String.append].
  all: match goal with
       | |- context [read_fault ?h "exists" ?path] =>
           destruct (read_fault h "exists" path);
             [eexists; split; [reflexivity | discriminate] |];
           destruct (bucket s !! path) as [v |] eqn:Hv;
             [rewrite bool_decide_eq_true_2 by eauto
             | rewrite bool_decide_eq_false_2 by (intros [? ?]; discriminate);
               eexists; split; [reflexivity | discriminate]];
           cbn [negb];
           destruct (read_fault h "download" path);
             [eexists; split; [reflexivity | discriminate] |];
           rewrite Hv;
           eexists; split; [reflexivity |]; intros _; exists v;
           split; [reflexivity | first [left; exact Hv | right; exact Hv]]
       end.
Qed.

Lemma take_segment_lacks (seg : string) :
  lacks "/" seg = true -> take_segment seg = seg.
Proof.
  induction seg as [| a seg IH]; [reflexivity |]. cbn [lacks take_segment].
  intros [Ha Hs]%andb_prop. apply negb_true_iff in Ha. rewrite Ha, IH by exact Hs.
  reflexivity.
Qed.

Lemma match_datasets_segment (seg : string) :
  seg <> "" -> lacks "/" seg = true ->
  match_datasets ("/datasets/" +:+ seg) = Some seg.
Proof.
  intros Hne Hl.
  change ("/datasets/" +:+ seg) with (String "/" ("datasets/" +:+ seg)).
  change (match_datasets (String "/" ("datasets/" +:+ seg)))
    with (match take_segment seg with
          | "" => match_datasets ("datasets/" +:+ seg)
          | String c r => Some (String c r)
          end).
  rewrite (take_segment_lacks seg Hl). destruct seg; [congruence | reflexivity].
Qed.

Lemma append_length (a b : string) :
  String.length (a +:+ b) = (String.length a + String.length b)%nat.
Proof.
  induction a as [| c a IH]; [reflexivity |].
  change (S (String.length (a +:+ b)) = S (String.length a + String.length b))%nat.
  rewrite IH. reflexivity.
Qed.

Lemma strip_json_suffix_json (n : string) : strip_json_suffix (n +:+ ".json") = n.
Proof.
  induction n as [| a n IH]; [reflexivity |].
  change (String a n +:+ ".json") with (String a (n +:+ ".json")).
  cbn [strip_json_suffix].
  assert (String.eqb (n +:+ ".json") "json" || String.eqb (n +:+ ".json") "" = false) as ->.
  { apply orb_false_iff. split; apply String.eqb_neq; intros E;
      apply (f_equal String.length) in E; rewrite append_length in E; cbn in E; lia. }
  rewrite andb_false_r, IH. reflexivity.
Qed.

(** X16.  [datasets] takes the name from the path before the query, in
    any letter case, and drops a trailing [.json]: a request for
    [/datasets/<seg>], [seg] spelling [traits] or [characters] or either
    followed by [.json], is served the stored artifact of that name
    whatever [req.query.name] says. *)
Theorem datasets_name_from_path (H : Host) (seg n : string) (q : option value)
    (s : State) (v : value) :
  seg <> "" ->
  lacks "/" seg = true ->
  toLowerCase seg = n \/ toLowerCase seg = n +:+ ".json" ->
  n = "traits" \/ n = "characters" ->
  (forall op path, read_fault H op path = None) ->
  bucket s !! ("datasets/" +:+ n +:+ ".json") = Some v ->
  datasets H {| pathname := "/datasets/" +:+ seg; query_name := q |} s
  = (Ok (served v), s).
Proof.
  intros Hne Hl Hlow Hn Hread Hv.
  apply (datasets_found H _ s n v); [| exact Hn | exact Hread | exact Hv].
  unfold dataset_name. cbn [pathname]. rewrite (match_datasets_segment seg Hne Hl).
  cbn [bindR]. f_equal.
  destruct Hlow as [-> | ->]; [| apply strip_json_suffix_json].
  destruct Hn as [-> | ->]; reflexivity.
Qed.

Lemma datasets_name_from_path_witness :
  datasets plain_host
    {| pathname := "/datasets/" +:+ "Traits.JSON"; query_name := Some (VStr "characters") |}
    {| cachedToken := None; clock_reads := 0; trace := [];
       bucket := <["datasets/traits.json" := fast_traits]> ∅; firestore := ∅ |}
  = (Ok (served fast_traits),
     {| cachedToken := None; clock_reads := 0; trace := [];
        bucket := <["datasets/traits.json" := fast_traits]> ∅; firestore := ∅ |}).
Proof.
  apply (datasets_name_from_path plain_host "Traits.JSON" "traits"
           (Some (VStr "characters")) _ fast_traits).
  - discriminate.
  - reflexivity.
  - right. reflexivity.
  - left. reflexivity.
  - intros op path. reflexivity.
  - apply lookup_insert_eq.
Defined.

(** ** The upstream URL *)

Lemma strip_trailing_slash_added (b : string) : strip_trailing_slash (b +:+ "/") = b.
Proof.
  induction b as [| c b IH]; [reflexivity |].
  change (String c b +:+ "/") with (String c (b +:+ "/")).
  destruct b as [| a b]; [reflexivity |].
  change (String a b +:+ "/") with (String a (b +:+ "/")) in *.
  change (strip_trailing_slash (String c (String a (b +:+ "/"))))
    with (String c (strip_trailing_slash (String a (b +:+ "/")))).
  rewrite IH. reflexivity.
Qed.

Lemma strip_trailing_slash_none (b : string) :
  ends_with_slash b = false -> strip_trailing_slash b = b.
Proof.
  induction b as [| c b IH]; [reflexivity |].
  destruct b as [| a b].
  - cbn. intros ->. reflexivity.
  - change (ends_with_slash (String c (String a b))) with (ends_with_slash (String a b)).
    change (strip_trailing_slash (String c (String a b)))
      with (String c (strip_trailing_slash (String a b))).
    intros Hb. rewrite (IH Hb). reflexivity.
Qed.

(** X17.  The URL that [fetchJSON] calls does not depend on whether the
    configured base ends with a slash, nor on whether the path begins
    with one: the two are joined by exactly one slash. *)
Theorem api_request_joins_once (W : World) (b p path : string)
    (hdrs : list (string * string)) :
  MSF_API_BASE W = b \/ MSF_API_BASE W = b +:+ "/" ->
  ends_with_slash b = false ->
  path = p \/ path = "/" +:+ p ->
  starts_with_slash p = false ->
  url (api_request W path hdrs) = b +:+ "/" +:+ p.
Proof.
  intros Hb Hend Hp Hstart. unfold api_request. cbn [url].
  assert (strip_trailing_slash (MSF_API_BASE W) = b) as ->.
  { destruct Hb as [-> | ->];
      [apply strip_trailing_slash_none; exact Hend | apply strip_trailing_slash_added]. }
  assert (strip_leading_slash path = p) as ->; [| reflexivity].
  destruct Hp as [-> | ->]; [| reflexivity].
  destruct p as [| c p]; [reflexivity |]. cbn in Hstart. cbn. rewrite Hstart. reflexivity.
Qed.

Lemma api_request_joins_once_witness :
  url (api_request (Mock.world "s3cret" Mock.ticking (Mock.scripted []))
                   "/game/v1/traits?lang=none" [])
  = "https://api.test" +:+ "/" +:+ "game/v1/traits?lang=none".
Proof.
  apply (api_request_joins_once
           (Mock.world "s3cret" Mock.ticking (Mock.scripted []))
           "https://api.test" "game/v1/traits?lang=none");
    [right; reflexivity | reflexivity | right; reflexivity | reflexivity].
Defined.

(** ** Cookies *)

Lemma append_cons (c : Ascii.ascii) (a b : string) :
  String c a +:+ b = String c (a +:+ b).
Proof. reflexivity. Qed.

Lemma append_assoc (a b c : string) : (a +:+ b) +:+ c = a +:+ (b +:+ c).
Proof.
  induction a as [| x a IH]; [reflexivity |].
  rewrite !append_cons, IH. reflexivity.
Qed.

Lemma lacks_append (c : Ascii.ascii) (a b : string) :
  lacks c (a +:+ b) = lacks c a && lacks c b.
Proof.
  induction a as [| x a IH]; [reflexivity |].
  rewrite append_cons. cbn [lacks]. rewrite IH, andb_assoc. reflexivity.
Qed.

Lemma split_semicolons_part (p : string) :
  lacks ";" p = true -> split_semicolons false p = [p].
Proof.
  induction p as [| c p IH]; [reflexivity |].
  cbn [lacks split_semicolons andb]. intros [Hc Hp]%andb_prop.
  apply negb_true_iff in Hc. rewrite Hc, (IH Hp). reflexivity.
Qed.

Lemma split_semicolons_resume (rest : string) :
  starts_plain rest = true ->
  split_semicolons true rest = split_semicolons false rest.
Proof.
  destruct rest as [| c r]; [discriminate |].
  cbn [starts_plain split_semicolons andb]. intros ->%negb_true_iff. reflexivity.
Qed.

Lemma split_semicolons_next (p rest : string) :
  lacks ";" p = true -> starts_plain rest = true ->
  split_semicolons false (p +:+ "; " +:+ rest) = p :: split_semicolons false rest.
Proof.
  intros Hp Hrest. induction p as [| c p IH].
  - change ("" +:+ "; " +:+ rest) with (String ";" (String " " rest)).
    cbn [split_semicolons andb Ascii.eqb Bool.eqb].
    change (is_space " ") with true. cbn [andb].
    rewrite (split_semicolons_resume rest Hrest). reflexivity.
  - rewrite append_cons. cbn [lacks] in Hp. apply andb_prop in Hp as [Hc Hp].
    apply negb_true_iff in Hc. cbn [split_semicolons andb].
    rewrite Hc, (IH Hp). reflexivity.
Qed.

Lemma starts_plain_append (a b : string) :
  starts_plain a = true -> starts_plain (a +:+ b) = true.
Proof. destruct a; [discriminate | intros Ha; exact Ha]. Qed.

Lemma split_semicolons_join (parts : list string) :
  parts <> [] ->
  Forall (fun p => lacks ";" p = true /\ starts_plain p = true) parts ->
  split_semicolons false (join_with "; " parts) = parts.
Proof.
  induction parts as [| p parts IH]; [congruence |]. intros _ Hall.
  apply Forall_cons in Hall as [[Hp Hs] Hall].
  destruct parts as [| q parts].
  - apply split_semicolons_part, Hp.
  - change (join_with "; " (p :: q :: parts))
      with (p +:+ "; " +:+ join_with "; " (q :: parts)).
    assert (starts_plain (join_with "; " (q :: parts)) = true) as Hq.
    { pose proof Hall as [[_ Hq] _]%Forall_cons.
      destruct parts; [exact Hq |].
      change (join_with "; " (q :: s :: parts))
        with (q +:+ "; " +:+ join_with "; " (s :: parts)).
      apply starts_plain_append, Hq. }
    rewrite (split_semicolons_next _ _ Hp Hq), IH by (congruence || exact Hall).
    reflexivity.
Qed.

Lemma cut_at_equals_plain (v : string) :
  lacks "=" v = true -> cut_at_equals v = (v, None).
Proof.
  induction v as [| c v IH]; [reflexivity |].
  cbn [lacks cut_at_equals]. intros [Hc Hv]%andb_prop.
  apply negb_true_iff in Hc. rewrite Hc, (IH Hv). reflexivity.
Qed.

Lemma cut_at_equals_pair (k v : string) :
  lacks "=" k = true -> cut_at_equals (k +:+ "=" +:+ v) = (k, Some v).
Proof.
  induction k as [| c k IH]; [reflexivity |].
  rewrite append_cons. cbn [lacks cut_at_equals]. intros [Hc Hk]%andb_prop.
  apply negb_true_iff in Hc. rewrite Hc, (IH Hk). reflexivity.
Qed.

Lemma key_value_pair (k v : string) :
  lacks "=" k = true -> lacks "=" v = true ->
  key_value (k +:+ "=" +:+ v) = (k, Some v).
Proof.
  intros Hk Hv. unfold key_value. rewrite (cut_at_equals_pair k v Hk).
  cbn [fmap option_fmap option_map]. rewrite (cut_at_equals_plain v Hv). reflexivity.
Qed.

Lemma plain_pair_text (kv : string * string) :
  plain_pair kv -> lacks ";" (pair_text kv) = true /\ starts_plain (pair_text kv) = true.
Proof.
  destruct kv as [k v]. unfold plain_pair, pair_text. cbn [fst snd].
  intros (Hk & _ & Hv & _ & Hs). split.
  - rewrite !lacks_append, Hk, Hv. reflexivity.
  - destruct k as [| c k]; [reflexivity |]. cbn [String.append starts_plain].
    rewrite append_cons. cbn [starts_plain]. rewrite Hs. reflexivity.
Qed.

Lemma find_cookie_pairs (W : World) (name : string) (pairs : list (string * string)) :
  Forall plain_pair pairs ->
  find_cookie W name (pair_text <$> pairs) = decoded W (assoc name pairs).
Proof.
  induction pairs as [| [k v] pairs IH]; [reflexivity |].
  intros [Hkv Hall]%Forall_cons. destruct Hkv as (_ & Hk & _ & Hv & _).
  cbn [fst snd] in Hk, Hv.
  cbn [fmap list_fmap find_cookie assoc]. unfold pair_text at 1. cbn [fst snd].
  rewrite (key_value_pair k v Hk Hv), String.eqb_sym.
  destruct (String.eqb name k); [reflexivity | apply IH, Hall].
Qed.

(** The white space after a semicolon includes the no-break space. *)
Example getCookie_after_no_break_space :
  getCookie (Mock.world "s3cret" Mock.ticking (Mock.scripted []))
    {| query_path := None;
       cookie := Some ("a=1;" +:+ String (Ascii.ascii_of_N 160) "msf_at=tok") |}
    "msf_at"
  = Ok (Some "tok").
Proof. reflexivity. Qed.

(** X18.  [getCookie] reads a [Cookie] header as the list of its
    [name=value] pairs: on a header that joins such pairs by [; ] it
    answers the decoded value of the first pair with the name asked for
    (or throws [URIError] when that value cannot be decoded), and [null]
    when no pair has it. *)
Theorem getCookie_first_pair_named (W : World) (q : option value) (name : string)
    (pairs : list (string * string)) :
  pairs <> [] -> Forall plain_pair pairs ->
  getCookie W {| query_path := q;
                 cookie := Some (join_with "; " (pair_text <$> pairs)) |} name
  = decoded W (assoc name pairs).
Proof.
  intros Hne Hall. unfold getCookie. cbn [cookie from_option id].
  rewrite split_semicolons_join.
  - apply find_cookie_pairs, Hall.
  - destruct pairs; [congruence | discriminate].
  - apply Forall_fmap. eapply Forall_impl; [exact Hall |].
    intros kv Hkv. apply plain_pair_text, Hkv.
Qed.

Lemma getCookie_first_pair_named_witness :
  getCookie (Mock.world "s3cret" Mock.ticking (Mock.scripted []))
    {| query_path := None;
       cookie := Some (join_with "; "
                         (pair_text <$> [("theme", "dark"); ("msf_at", "abc"); ("msf_at", "xyz")])) |}
    "msf_at"
  = Ok (Some "abc").
Proof.
  apply (getCookie_first_pair_named (Mock.world "s3cret" Mock.ticking (Mock.scripted []))
           None "msf_at" [("theme", "dark"); ("msf_at", "abc"); ("msf_at", "xyz")]).
  - discriminate.
  - repeat constructor.
Defined.

(** X19.  The cookie that [oauthClientCreds] sets is one [getCookie]
    reads back: when the encoded token [enc] holds no [;] and no [=] and
    [decodeURIComponent] turns it into [tok], [getCookie] finds [tok]
    under [msf_at] in the text of the [Set-Cookie] header, whatever the
    lifetime and whether or not the cookie is marked [Secure]. *)
Theorem session_cookie_read_back (H : Host) (W : World) (q : option value)
    (tok enc : string) (maxAge : num) :
  decodeURIComponent (runtime W) enc = Some tok ->
  lacks ";" enc = true -> lacks "=" enc = true ->
  getCookie W {| query_path := q; cookie := Some (session_cookie H enc maxAge) |} "msf_at"
  = Ok (Some tok).
Proof.
  intros Hdec Hsemi Heq. unfold getCookie, session_cookie. cbn [cookie from_option id].
  replace ("msf_at=" +:+ enc +:+ "; Path=/; HttpOnly; SameSite=Lax; Max-Age="
           +:+ num_to_string maxAge +:+ ";" +:+ secureCookie H)
    with (("msf_at" +:+ "=" +:+ enc) +:+ "; "
          +:+ ("Path=/; HttpOnly; SameSite=Lax; Max-Age="
               +:+ num_to_string maxAge +:+ ";" +:+ secureCookie H))
    by (rewrite append_assoc; reflexivity).
  rewrite split_semicolons_next; [| | reflexivity].
  - cbn [find_cookie]. rewrite (key_value_pair "msf_at" enc eq_refl Heq).
    cbn [String.eqb Ascii.eqb Bool.eqb from_option id]. rewrite Hdec. reflexivity.
  - rewrite !lacks_append, Hsemi. reflexivity.
Qed.

Lemma session_cookie_read_back_witness :
  getCookie (Mock.world "s3cret" Mock.ticking (Mock.scripted []))
    {| query_path := None; cookie := Some (session_cookie plain_host "abc" (Fin 60)) |}
    "msf_at"
  = Ok (Some "abc").
Proof.
  apply (session_cookie_read_back plain_host
           (Mock.world "s3cret" Mock.ticking (Mock.scripted [])) None "abc" "abc" (Fin 60));
    reflexivity.
Defined.

(** ** The client library *)

Lemma cookie_confirmed_run (W : World) (s : State) :
  (cookie_confirmed W s).2 = log_event (EvFetch whoami_check) s
  /\ ((cookie_confirmed W s).1 = Ok true ->
      exists r : HttpResponse, fetch W (trace s) whoami_check = Ok r /\ confirms r).
Proof.
  unfold cookie_confirmed, bind, do_fetch, read_json, lift, ret, throw.
  fold whoami_check.
  destruct (fetch W (trace s) whoami_check) as [r | e] eqn:Hf;
    [| split; [reflexivity | discriminate]].
  destruct (ok r) eqn:Hok; [| split; [reflexivity | discriminate]].
  destruct (json r) as [v |] eqn:Hj; [| split; [reflexivity | discriminate]].
  destruct (js_get v "msfTokenCookie") as [c | e] eqn:Hc;
    [| split; [reflexivity | discriminate]].
  split; [reflexivity |]. cbn [fst]. intros Ht.
  exists r. split; [reflexivity |]. split; [exact Hok |].
  exists v, c. split; [exact Hj |]. split; [exact Hc | congruence].
Qed.

(** The four ways [ensureAppToken] can go. *)
Lemma ensureAppToken_cases (W : World) (s : State) :
  let s1 := log_event (EvFetch whoami_check) s in
  let s2 := log_event (EvFetch token_post) s1 in
  let s3 := log_event (EvFetch whoami_check) s2 in
  (ensureAppToken W s = (Ok tt, s1)
   /\ exists r, fetch W (trace s) whoami_check = Ok r /\ confirms r)
  \/ (ensureAppToken W s = (Ok tt, s3)
      /\ exists r, fetch W (trace s2) whoami_check = Ok r /\ confirms r)
  \/ (exists e, ensureAppToken W s = (Throw e, s2))
  \/ (exists e, ensureAppToken W s = (Throw e, s3)).
Proof.
  cbv zeta. remember (ensureAppToken W s) as run eqn:E.
  unfold ensureAppToken, bind, try_catch, do_fetch, ret, throw in E.
  fold whoami_check token_post in E.
  destruct (cookie_confirmed_run W s) as [Hs Hr].
  destruct (cookie_confirmed W s) as [r0 s0]. cbn [fst snd] in Hs, Hr. subst s0.
  remember (log_event (EvFetch whoami_check) s) as s1 eqn:Es1.
  assert (run = if match r0 with Ok true => true | _ => false end then (Ok tt, s1)
                else match fetch W (trace s1) token_post with
                     | Ok r =>
                         if negb (ok r)
                         then (Throw (Error ("/api/oauth/client -> " +:+ pretty (status r))),
                               log_event (EvFetch token_post) s1)
                         else match cookie_confirmed W (log_event (EvFetch token_post) s1) with
                              | (Ok true, s') => (Ok tt, s')
                              | (Ok false, s') =>
                                  (Throw (Error "MSF token cookie not set after oauth"), s')
                              | (Throw e, s') => (Throw e, s')
                              end
                     | Throw e => (Throw e, log_event (EvFetch token_post) s1)
                     end) as E'.
  { rewrite E. destruct r0 as [[|] | e]; try reflexivity;
      (destruct (fetch W (trace s1) token_post) as [r | e']; [| reflexivity];
       destruct (ok r); cbn [negb]; cbv beta; [| reflexivity];
       destruct (cookie_confirmed W (log_event (EvFetch token_post) s1))
         as [[[|] | e2] s']; reflexivity). }
  clear E. rewrite E'. clear E' run.
  destruct (match r0 with Ok true => true | _ => false end) eqn:Hr0.
  { left. split; [reflexivity |]. apply Hr. destruct r0 as [[|] | e]; congruence. }
  right.
  destruct (fetch W (trace s1) token_post) as [r | e];
    [| right; left; eexists; reflexivity].
  destruct (ok r); cbn [negb]; [| right; left; eexists; reflexivity].
  destruct (cookie_confirmed_run W (log_event (EvFetch token_post) s1)) as [Hs2 Hr2].
  destruct (cookie_confirmed W (log_event (EvFetch token_post) s1)) as [r2 s0].
  cbn [fst snd] in Hs2, Hr2. subst s0.
  destruct r2 as [[|] | e2].
  - left. split; [reflexivity | apply Hr2; reflexivity].
  - right. right. eexists. reflexivity.
  - right. right. eexists. reflexivity.
Qed.


(** X20.  [ensureAppToken] resolves only on a confirmation: when it
    returns without an error, the last call it made is a [whoami] check
    whose answer was [ok] and had a truthy [msfTokenCookie]; and it made
    either that check alone, or a check, the [POST] and a second check. *)
Theorem ensureAppToken_resolves_on_confirmation (W : World) (s s' : State) :
  ensureAppToken W s = (Ok tt, s') ->
  exists (before : list Event) (r : HttpResponse),
    trace s' = before ++ [EvFetch whoami_check]
    /\ (before = trace s
        \/ before = trace s ++ [EvFetch whoami_check; EvFetch token_post])
    /\ fetch W before whoami_check = Ok r
    /\ confirms r.
Proof.
  intros Hrun.
  destruct (ensureAppToken_cases W s)
    as [[E (r & Hf & Hc)] | [[E (r & Hf & Hc)] | [[e E] | [e E]]]];
    rewrite E in Hrun; try discriminate; injection Hrun as <-.
  - exists (trace s), r. repeat split; [left; reflexivity | exact Hf | apply Hc | apply Hc].
  - exists (trace s ++ [EvFetch whoami_check; EvFetch token_post]), r.
    cbn [log_event trace] in *. rewrite <- app_assoc in Hf. cbn [app] in Hf.
    split; [rewrite <- !app_assoc; reflexivity |].
    split; [right; reflexivity |]. split; [exact Hf | exact Hc].
Qed.

Lemma ensureAppToken_resolves_on_confirmation_witness :
  exists (before : list Event) (r : HttpResponse),
    trace (ensureAppToken
             (Mock.world "s3cret" Mock.ticking
                (answering [(200, whoami_body false); (200, VObj [("ok", VBool true)]);
                            (200, whoami_body true)]))
             Mock.cold).2
    = before ++ [EvFetch whoami_check]
    /\ (before = trace Mock.cold
        \/ before = trace Mock.cold ++ [EvFetch whoami_check; EvFetch token_post])
    /\ fetch (Mock.world "s3cret" Mock.ticking
                (answering [(200, whoami_body false); (200, VObj [("ok", VBool true)]);
                            (200, whoami_body true)]))
             before whoami_check = Ok r
    /\ confirms r.
Proof.
  apply (ensureAppToken_resolves_on_confirmation
           (Mock.world "s3cret" Mock.ticking
              (answering [(200, whoami_body false); (200, VObj [("ok", VBool true)]);
                          (200, whoami_body true)]))
           Mock.cold).
  vm_compute. reflexivity.
Defined.



Lemma gather_bounded (H : Host) (W : World) (perPage : Z) :
  forall (fuel : nat) (page : Z) (all : list value) (total : value) (s : State),
    page <= 200 -> 200 - page < Z.of_nat fuel ->
    forall (res : Result (option (list value * Z))) (s' : State),
      gather H W fuel perPage page all total s = (res, s') ->
      res <> Ok None
      /\ forall (all' : list value) (p : Z), res = Ok (Some (all', p)) -> page <= p <= 201.
Proof.
  induction fuel as [| fuel IH]; intros page all total s Hpage Hfuel res s'; [lia |].
  cbn [gather]. unfold bind at 1. unfold lift at 1.
  destruct (lt_value (runtime W) (Fin (len all)) total) as [[|] | e]; cbn [negb].
  2,3: unfold ret; intros [= <- <-]; split; [discriminate |];
       intros all' p [= <- <-] || intros all' p [=]; lia.
  unfold bind at 1.
  destruct (call H W (client_characters_path page perPage) s) as [[resp | e] s1].
  2:{ intros [= <- <-]. split; [discriminate | intros all' p [=]]. }
  unfold bind at 1. unfold lift at 1.
  destruct (let? i := items_of resp in spread i) as [items | e].
  2:{ intros [= <- <-]. split; [discriminate | intros all' p [=]]. }
  unfold bind at 1. unfold lift at 1.
  destruct (js_get resp "meta") as [meta | e].
  2:{ intros [= <- <-]. split; [discriminate | intros all' p [=]]. }
  destruct (len items <? perPage).
  { unfold ret. intros [= <- <-]. split; [discriminate |]. intros all' p [= <- <-]. lia. }
  destruct (200 <? page + 1) eqn:Hcap.
  { unfold ret. intros [= <- <-]. split; [discriminate |]. intros all' p [= <- <-]. lia. }
  apply Z.ltb_ge in Hcap. intros Hrun.
  destruct (IH _ _ _ _ Hcap ltac:(lia) _ _ Hrun) as [Hres Hp].
  split; [exact Hres |]. intros all' p E. specialize (Hp all' p E). lia.
Qed.

(** X22.  [getAllCharacters] comes to an end within 200 turns of its
    loop, whatever the server answers and whatever [perPage] is: the
    result is never "still going", and the [page] it reports lies between 1
    and 201, with [perTotal] the number of items returned. *)
Theorem getAllCharacters_ends (H : Host) (W : World) (fuel : nat) (perPage : Z)
    (s : State) :
  (200 <= fuel)%nat ->
  (getAllCharacters H W fuel perPage s).1 <> Ok None
  /\ forall v : value,
       (getAllCharacters H W fuel perPage s).1 = Ok (Some v) ->
       exists (all : list value) (page : Z),
         1 <= page <= 201
         /\ v = VObj [("items", VArr all);
                      ("meta", VObj [("perTotal", VNum (Fin (len all)));
                                     ("perPage", VNum (Fin perPage));
                                     ("page", VNum (Fin page))])].
Proof.
  intros Hfuel. unfold getAllCharacters, bind, ret.
  destruct (gather H W fuel perPage 1 [] (VNum PosInf) s) as [res s'] eqn:Hrun.
  destruct (gather_bounded H W perPage fuel 1 [] (VNum PosInf) s ltac:(lia) ltac:(lia)
              res s' Hrun) as [Hres Hp].
  destruct res as [[[all p] |] | e]; cbn [fst fmap option_fmap option_map].
  - split; [discriminate |]. intros v [= <-]. exists all, p.
    split; [apply (Hp all p eq_refl) | reflexivity].
  - congruence.
  - split; [discriminate | intros v [=]].
Qed.

Lemma getAllCharacters_ends_witness :
  (getAllCharacters plain_host
     (Mock.world "s3cret" Mock.ticking (answering [(200, VArr [VStr "a"; VStr "b"])]))
     200 200 Mock.cold).1 <> Ok None
  /\ forall v : value,
       (getAllCharacters plain_host
          (Mock.world "s3cret" Mock.ticking (answering [(200, VArr [VStr "a"; VStr "b"])]))
          200 200 Mock.cold).1 = Ok (Some v) ->
       exists (all : list value) (page : Z),
         1 <= page <= 201
         /\ v = VObj [("items", VArr all);
                      ("meta", VObj [("perTotal", VNum (Fin (len all)));
                                     ("perPage", VNum (Fin 200));
                                     ("page", VNum (Fin page))])].
Proof.
  apply (getAllCharacters_ends plain_host
           (Mock.world "s3cret" Mock.ticking (answering [(200, VArr [VStr "a"; VStr "b"])]))
           200 200 Mock.cold).
  lia.
Defined.

(** X23.  [ensureAppToken] and [whoami] agree about the cookie.  When the
    browser's first check is answered with the JSON that [whoami] sends
    for a request, [ensureAppToken] returns after that single call exactly
    when the request carried a non-empty [msf_at] cookie. *)
Theorem ensureAppToken_trusts_whoami (Ws Wb : World) (req : IncomingRequest)
    (s : State) (rep : Reply) (r : HttpResponse) (v : value) :
  whoami Ws req = Ok rep ->
  reply_body rep = SendJson v ->
  fetch Wb (trace s) whoami_check = Ok r ->
  ok r = true ->
  json r = Some v ->
  (exists t : string, getCookie Ws req "msf_at" = Ok (Some t) /\ t <> "")
  <-> ensureAppToken Wb s = (Ok tt, log_event (EvFetch whoami_check) s).
Proof.
  intros Hrep Hbody Hf Hok Hj.
  assert (cookie_confirmed Wb s
          = (Ok (match getCookie Ws req "msf_at" with
                 | Ok (Some t) => negb (String.eqb t "")
                 | _ => false
                 end), log_event (EvFetch whoami_check) s)) as Hc.
  { unfold cookie_confirmed, bind, do_fetch, read_json, lift, ret. fold whoami_check.
    rewrite Hf, Hok, Hj. unfold whoami in Hrep.
    destruct (getCookie Ws req "msf_at") as [[[| a t] |] | e]; cbn [bindR] in Hrep;
      try discriminate; injection Hrep as <-; cbn [reply_body] in Hbody;
      injection Hbody as <-; reflexivity. }
  assert (forall a b (l : list Event), l ++ [a] <> (l ++ [a]) ++ b :: [] ) as Hneq1.
  { intros a b l E. apply (f_equal length) in E. rewrite !length_app in E. cbn in E. lia. }
  unfold ensureAppToken. unfold bind at 1. unfold try_catch. rewrite Hc.
  destruct (getCookie Ws req "msf_at") as [[[| a t] |] | e].
  2:{ split; [reflexivity |]. intros _. exists (String a t). split; [reflexivity | discriminate]. }
  all: cbn [negb String.eqb]; split; [intros (t & Ht & Hne); congruence |];
    intros Hrun; exfalso;
    pose proof (f_equal (fun x => length (trace x.2)) Hrun) as Hlen; cbv beta in Hlen;
    cbn [snd log_event trace] in Hlen; revert Hlen; clear Hrun;
    unfold bind at 1; unfold do_fetch at 1;
    (destruct (fetch Wb (trace (log_event (EvFetch whoami_check) s))
                 (client_request "POST" "/api/oauth/client")) as [r1 | e1];
     [| cbn [snd log_event trace]; rewrite !length_app; cbn [length]; lia]);
    (destruct (negb (ok r1));
     [unfold throw; cbn [snd log_event trace]; rewrite !length_app; cbn [length]; lia |]);
    unfold bind;
    match goal with
    | |- context [cookie_confirmed ?w ?st] =>
        destruct (cookie_confirmed_run w st) as [Hs2 _];
        destruct (cookie_confirmed w st) as [[[|] | e2] s2]; cbn [snd] in Hs2; subst s2
    end;
    unfold ret, throw; cbn [snd log_event trace]; rewrite !length_app; cbn [length]; lia.
Qed.

Lemma ensureAppToken_trusts_whoami_witness :
  (exists t : string,
      getCookie (Mock.world "s3cret" Mock.ticking (Mock.scripted []))
        {| query_path := None; cookie := Some "msf_at=abc" |} "msf_at" = Ok (Some t)
      /\ t <> "")
  <-> ensureAppToken
        (Mock.world "s3cret" Mock.ticking (answering [(200, whoami_body true)])) Mock.cold
      = (Ok tt, log_event (EvFetch whoami_check) Mock.cold).
Proof.
  apply (ensureAppToken_trusts_whoami
           (Mock.world "s3cret" Mock.ticking (Mock.scripted []))
           (Mock.world "s3cret" Mock.ticking (answering [(200, whoami_body true)]))
           {| query_path := None; cookie := Some "msf_at=abc" |}
           Mock.cold (whoami_reply true)
           {| status := 200; statusText := ""; contentType := Some "application/json";
              text := "(json)"; json := Some (whoami_body true) |}
           (whoami_body true));
    reflexivity.
Defined.
